(** * video-detection-ai: the dispatcher, the capture queue and the cooldown
    coordinator

    A shallow embedding of
      - [client/utils/api_client.py]    (class [NetworkWorker]),
      - [client/utils/gemini_client.py] (class [GeminiWorker]),
      - [client/core/pipeline.py]       (class [VideoPipeline]),
      - [client/app.py]                 (class [SmartMonitor]),
    together with the parts of the Python runtime these classes lean on
    ([str] methods, [queue.Queue], [json.loads], [bool]/[str]/[float]). *)

From Stdlib Require Import String Ascii ZArith NArith QArith Bool List Lia Lqa.
From Stdlib Require Import Floats.SpecFloat.
Import ListNotations.

Set Implicit Arguments.

(* ================================================================== *)
(** * Python [str] *)
(* ================================================================== *)

(** A Python [str] is a sequence of Unicode code points. *)
Module PyStr.

Definition pystr := list N.

(** A literal written in ASCII. *)
Definition lit (s : string) : pystr :=
  map N_of_ascii (list_ascii_of_string s).

(** A literal in which the apostrophe stands for the double quote
    (code point 34), used to write JSON texts. *)
Definition jq (s : string) : pystr :=
  map (fun c => if N.eqb c 39 then 34%N else c) (lit s).

Definition eqb (a b : pystr) : bool :=
  if list_eq_dec N.eq_dec a b then true else false.

(** [str.isspace] on one code point (the table of CPython's
    [_PyUnicode_IsWhitespace]). *)
Definition isspace (c : N) : bool :=
  ((9 <=? c) && (c <=? 13) || (28 <=? c) && (c <=? 32)
   || (c =? 133) || (c =? 160) || (c =? 5760)
   || (8192 <=? c) && (c <=? 8202)
   || (c =? 8232) || (c =? 8233) || (c =? 8239) || (c =? 8287)
   || (c =? 12288))%N.

Fixpoint lstrip (s : pystr) : pystr :=
  match s with
  | c :: s' => if isspace c then lstrip s' else s
  | [] => []
  end.

Definition rstrip (s : pystr) : pystr := rev (lstrip (rev s)).

(** [s.strip()] *)
Definition strip (s : pystr) : pystr := rstrip (lstrip s).

(** [s.startswith(p)] *)
Fixpoint startswith (p s : pystr) : bool :=
  match p, s with
  | [], _ => true
  | a :: p', b :: s' => N.eqb a b && startswith p' s'
  | _ :: _, [] => false
  end.

(** [s.endswith(p)] *)
Definition endswith (p s : pystr) : bool := startswith (rev p) (rev s).

(** [s[n:]] for [n >= 0] *)
Definition drop (n : nat) (s : pystr) : pystr := skipn n s.

(** [s[:-n]] for [n > 0] *)
Definition drop_last (n : nat) (s : pystr) : pystr :=
  firstn (length s - n) s.

(** [s[a:b]] for [a >= 0] and [b >= 0]: empty when [b <= a]. *)
Definition slice (a b : Z) (s : pystr) : pystr :=
  firstn (Z.to_nat (b - a)) (skipn (Z.to_nat a) s).

(** [s.find(c)] for a one-character [c]: the lowest index, or -1. *)
Fixpoint find (c : N) (s : pystr) : Z :=
  match s with
  | [] => -1
  | x :: s' =>
      if N.eqb x c then 0
      else match find c s' with
           | Zneg _ => -1
           | i => i + 1
           end
  end%Z.

(** [s.rfind(c)] for a one-character [c]: the highest index, or -1. *)
Fixpoint rfind (c : N) (s : pystr) : Z :=
  match s with
  | [] => -1
  | x :: s' =>
      match rfind c s' with
      | Zneg _ => if N.eqb x c then 0 else -1
      | i => i + 1
      end
  end%Z.

(** [s.lower()].  The model folds the letters A-Z.  Python folds the cased
    letters beyond ASCII as well; none of them is mapped to one of the
    letters d, a, n, g, e, r or to a CJK character, and those characters are
    left alone, so the keyword tests below see the same occurrences. *)
Definition lower_char (c : N) : N :=
  if ((65 <=? c) && (c <=? 90))%N then (c + 32)%N else c.

Definition lower (s : pystr) : pystr := map lower_char s.

(** [needle in hay] *)
Fixpoint contains (needle hay : pystr) : bool :=
  startswith needle hay ||
  match hay with
  | [] => false
  | _ :: hay' => contains needle hay'
  end.

(** [str(n)] for an integer. *)
Fixpoint digits_of_pos (fuel : nat) (p : N) (acc : pystr) : pystr :=
  match fuel with
  | O => acc
  | S fuel' =>
      let acc' := (48 + p mod 10)%N :: acc in
      if (p <? 10)%N then acc' else digits_of_pos fuel' (p / 10)%N acc'
  end.

Definition str_of_Z (z : Z) : pystr :=
  let n := Z.abs_N z in
  let ds := digits_of_pos (S (N.to_nat (N.log2 n))) n [] in
  if (z <? 0)%Z then 45%N :: ds else ds.

End PyStr.
Export PyStr.

(* ================================================================== *)
(** * Python [float] *)
(* ================================================================== *)

(** A Python [float] is an IEEE 754 binary64 number.  The values are those of
    the Standard Library's [spec_float] at precision 53. *)
Module PyFloat.

Definition prec : Z := 53.
Definition emax : Z := 1024.

Definition float := spec_float.

Definition zero : float := S754_zero false.
Definition one : float := S754_finite false 4503599627370496 (-52).
Definition half : float := S754_finite false 4503599627370496 (-53).

(** [a < b], [a <= b], [a == b] on floats *)
Definition ltb (a b : float) : bool := SFltb a b.
Definition leb (a b : float) : bool := SFleb a b.
Definition eqb (a b : float) : bool := SFeqb a b.

(** The builtin [min(a, b)]: the first argument unless the second is
    strictly smaller. *)
Definition py_min (a b : float) : float := if ltb b a then b else a.

(** The builtin [max(a, b)]: the first argument unless the second is
    strictly greater. *)
Definition py_max (a b : float) : float := if ltb a b then b else a.

(** [float(n)] for an integer: rounded to nearest even; [None] is the
    [OverflowError] of an integer beyond the finite range. *)
Definition of_int (z : Z) : option float :=
  match binary_normalize prec emax z 0 false with
  | S754_infinity _ => None
  | x => Some x
  end.

(** The position of an exact quotient between two neighbouring integers. *)
Definition location_of_rem (r d : Z) : location :=
  if (r =? 0)%Z then loc_Exact else loc_Inexact (Z.compare (2 * r) d).

(** The float nearest to [(-1)^neg * m * 10^e10], ties to even, as the
    conversion of a decimal literal computes it; out of range gives an
    infinity.  For a negative [e10] the quotient is taken with more than 53
    bits and the remainder is kept as the rounding position. *)
Definition of_decimal (neg : bool) (m : Z) (e10 : Z) : float :=
  match m with
  | Zpos _ =>
      if (0 <=? e10)%Z then binary_normalize prec emax
                              (if neg then - (m * 10 ^ e10) else m * 10 ^ e10)
                              0 neg
      else
        let d := (10 ^ (- e10))%Z in
        let s := Z.max 0 (Zdigits2 d - Zdigits2 m + 56)%Z in
        let n := (m * 2 ^ s)%Z in
        binary_round_aux prec emax neg (n / d) (- s)
                         (location_of_rem (n mod d) d)
  | _ => S754_zero neg
  end.

End PyFloat.

(* ================================================================== *)
(** * Exceptions *)
(* ================================================================== *)

(** The exception classes the modelled code can meet. *)
Inductive exn : Type :=
| JSONDecodeError
| ValueError
| TypeError
| OverflowError
| AttributeError
| RecursionError.

(** [isinstance(e, json.JSONDecodeError)]: which of the two handlers of
    [_parse_response] catches [e]. *)
Definition is_JSONDecodeError (e : exn) : bool :=
  match e with JSONDecodeError => true | _ => false end.

(* ================================================================== *)
(** * [json.loads] *)
(* ================================================================== *)

Module Json.

Import PyFloat.

(** What [json.loads] builds.  An object keeps its pairs in the order of the
    text; a key written twice is looked up at its last pair, as in the
    [dict] Python makes of it. *)
#[warnings="-register-all"]
Inductive json : Type :=
| JNull
| JBool (b : bool)
| JInt (z : Z)
| JFloat (x : float)
| JString (s : pystr)
| JArray (l : list json)
| JObject (l : list (pystr * json)).

(** The outcome of scanning a value at the head of a text: a value and the
    text after it; an exception raised where the scanner stands; or [Stop],
    the [StopIteration] by which the scanner says that no value starts
    there, and which [raw_decode] turns into a [JSONDecodeError].
    [OutOfFuel] is the model's own: the bound on the items of one array or
    object is used up, which no call ever meets (lemma [scan_once_fuel]). *)
Inductive scanned (A : Type) : Type :=
| Scan (a : A) (rest : pystr)
| Raise (e : exn)
| Stop
| OutOfFuel.
Arguments Raise {A} e.
Arguments Stop {A}.
Arguments OutOfFuel {A}.

Definition iswhite (c : N) : bool :=
  ((c =? 32) || (c =? 9) || (c =? 10) || (c =? 13))%N.

Fixpoint skip_ws (s : pystr) : pystr :=
  match s with
  | c :: s' => if iswhite c then skip_ws s' else s
  | [] => []
  end.

Definition isdigit (c : N) : bool := ((48 <=? c) && (c <=? 57))%N.

Definition hexval (c : N) : option N :=
  if isdigit c then Some (c - 48)%N
  else if ((97 <=? c) && (c <=? 102))%N then Some (c - 87)%N
  else if ((65 <=? c) && (c <=? 70))%N then Some (c - 55)%N
  else None.

Definition hex4 (a b c d : N) : option N :=
  match hexval a, hexval b, hexval c, hexval d with
  | Some x, Some y, Some z, Some w =>
      Some (((x * 16 + y) * 16 + z) * 16 + w)%N
  | _, _, _, _ => None
  end.

Definition is_high_surrogate (u : N) : bool :=
  ((55296 <=? u) && (u <=? 56319))%N.
Definition is_low_surrogate (u : N) : bool :=
  ((56320 <=? u) && (u <=? 57343))%N.
Definition join_surrogates (hi lo : N) : N :=
  (65536 + ((hi - 55296) * 1024 + (lo - 56320)))%N.

(** The one-letter escapes after a backslash. *)
Definition unescape (c : N) : option N :=
  if (c =? 34)%N then Some 34%N
  else if (c =? 92)%N then Some 92%N
  else if (c =? 47)%N then Some 47%N
  else if (c =? 98)%N then Some 8%N
  else if (c =? 102)%N then Some 12%N
  else if (c =? 110)%N then Some 10%N
  else if (c =? 114)%N then Some 13%N
  else if (c =? 116)%N then Some 9%N
  else None.

(** [scanstring] (strict): the text after the opening quote, up to and
    including the closing one. *)
Fixpoint scanstring (s : pystr) (acc : pystr) : scanned pystr :=
  match s with
  | [] => Raise JSONDecodeError
  | c :: s1 =>
      if (c =? 34)%N then Scan (rev acc) s1
      else if (c =? 92)%N then
        match s1 with
        | [] => Raise JSONDecodeError
        | e :: s2 =>
            if (e =? 117)%N then
              match s2 with
              | h1 :: h2 :: h3 :: h4 :: s3 =>
                  match hex4 h1 h2 h3 h4 with
                  | None => Raise JSONDecodeError
                  | Some u =>
                      if is_high_surrogate u then
                        match s3 with
                        | b :: v :: g1 :: g2 :: g3 :: g4 :: s4 =>
                            if ((b =? 92) && (v =? 117))%N then
                              match hex4 g1 g2 g3 g4 with
                              | None => Raise JSONDecodeError
                              | Some u2 =>
                                  if is_low_surrogate u2
                                  then scanstring s4 (join_surrogates u u2 :: acc)
                                  else scanstring s3 (u :: acc)
                              end
                            else scanstring s3 (u :: acc)
                        | _ => scanstring s3 (u :: acc)
                        end
                      else scanstring s3 (u :: acc)
                  end
              | _ => Raise JSONDecodeError
              end
            else
              match unescape e with
              | Some c' => scanstring s2 (c' :: acc)
              | None => Raise JSONDecodeError
              end
        end
      else if (c <=? 31)%N then Raise JSONDecodeError
      else scanstring s1 (c :: acc)
  end.

Fixpoint span_digits (s : pystr) : pystr * pystr :=
  match s with
  | c :: s' =>
      if isdigit c then let (ds, r) := span_digits s' in (c :: ds, r)
      else ([], s)
  | [] => ([], [])
  end.

Definition digits_value (ds : pystr) : Z :=
  fold_left (fun acc c => acc * 10 + Z.of_N (c - 48))%Z ds 0%Z.

(** The limit of [int] on the digits of a decimal literal
    ([sys.get_int_max_str_digits()]); beyond it [int] raises
    [ValueError]. *)
Definition int_max_str_digits : nat := 4300.

(** The integer part of a number: one [0], or a digit 1-9 and the digits
    after it. *)
Definition int_part (s : pystr) : option (pystr * pystr) :=
  match s with
  | c :: r =>
      if ((49 <=? c) && (c <=? 57))%N
      then let (ds, r') := span_digits r in Some (c :: ds, r')
      else if (c =? 48)%N then Some ([c], r)
      else None
  | [] => None
  end.

(** The fraction: a dot and at least one digit, or nothing. *)
Definition frac_part (s : pystr) : pystr * pystr :=
  match s with
  | dot :: d :: _ =>
      if ((dot =? 46)%N && isdigit d) then span_digits (tl s)
      else ([], s)
  | _ => ([], s)
  end.

(** The exponent: [e] or [E], a sign if any, and at least one digit; with no
    digit the scanner backs up to the [e]. *)
Definition exp_part (s : pystr) : option Z * pystr :=
  match s with
  | e :: r =>
      if ((e =? 101) || (e =? 69))%N then
        let '(neg, r1) :=
          match r with
          | sg :: r' =>
              if (sg =? 45)%N then (true, r')
              else if (sg =? 43)%N then (false, r')
              else (false, r)
          | [] => (false, r)
          end in
        match span_digits r1 with
        | ([], _) => (None, s)
        | (ds, r2) =>
            (Some (if neg then - digits_value ds else digits_value ds)%Z, r2)
        end
      else (None, s)
  | [] => (None, s)
  end.

(** [_match_number]: [None] is the scanner's [StopIteration]. *)
Definition match_number (s : pystr) : option (scanned json) :=
  let '(neg, s1) :=
    match s with
    | c :: r => if (c =? 45)%N then (true, r) else (false, s)
    | [] => (false, s)
    end in
  match int_part s1 with
  | None => None
  | Some (ip, s2) =>
      let '(fp, s3) := frac_part s2 in
      let '(ep, s4) := exp_part s3 in
      match fp, ep with
      | [], None =>
          if Nat.ltb int_max_str_digits (length ip)
          then Some (Raise ValueError)
          else Some (Scan (JInt (if neg then - digits_value ip
                                 else digits_value ip)%Z) s4)
      | _, _ =>
          let e := match ep with Some e => e | None => 0%Z end in
          Some (Scan (JFloat (of_decimal neg (digits_value (ip ++ fp))
                                         (e - Z.of_nat (length fp))))
                     s4)
      end
  end.

(** A [JSONDecodeError] is an object of a Python class: building it takes
    three nested calls (the class, its [__init__], [ValueError.__init__]), and
    where the interpreter has fewer than three left before its recursion
    limit the [RecursionError] of the attempt is what is raised (CPython up
    to 3.11, where the calls of C and of Python are counted together). *)
Definition error_depth : nat := 3.

(** The exception of an error message raised where [remaining] nested calls
    are left. *)
Definition errmsg (remaining : nat) : exn :=
  if Nat.ltb remaining error_depth then RecursionError else JSONDecodeError.

(** The items of an array after its bracket, [scan] being the scanner of one
    value and [err] the exception of an error message raised inside the
    array; [n] bounds the number of items. *)
Fixpoint array_items (scan : pystr -> scanned json) (err : exn) (n : nat)
         (s : pystr) (acc : list json) {struct n} : scanned json :=
  match n with
  | O => OutOfFuel
  | S n' =>
      match scan s with
      | Scan v s1 =>
          match skip_ws s1 with
          | c :: s2 =>
              if (c =? 93)%N then Scan (JArray (rev (v :: acc))) s2
              else if (c =? 44)%N
              then array_items scan err n' (skip_ws s2) (v :: acc)
              else Raise err
          | [] => Raise err
          end
      | Raise e => Raise e
      | Stop => Stop
      | OutOfFuel => OutOfFuel
      end
  end.

(** The pairs of an object after its brace: a key in double quotes, a colon,
    a value, then a comma or the closing brace. *)
Fixpoint object_pairs (scan : pystr -> scanned json) (err : exn) (n : nat)
         (s : pystr) (acc : list (pystr * json)) {struct n} : scanned json :=
  match n with
  | O => OutOfFuel
  | S n' =>
      match s with
      | q :: s1 =>
          if (q =? 34)%N then
            match scanstring s1 [] with
            | Scan key s2 =>
                match skip_ws s2 with
                | colon :: s3 =>
                    if (colon =? 58)%N then
                      match scan (skip_ws s3) with
                      | Scan v s4 =>
                          match skip_ws s4 with
                          | c :: s5 =>
                              if (c =? 125)%N
                              then Scan (JObject (rev ((key, v) :: acc))) s5
                              else if (c =? 44)%N
                              then object_pairs scan err n' (skip_ws s5)
                                                ((key, v) :: acc)
                              else Raise err
                          | [] => Raise err
                          end
                      | Raise e => Raise e
                      | Stop => Stop
                      | OutOfFuel => OutOfFuel
                      end
                    else Raise err
                | [] => Raise err
                end
            | _ => Raise err
            end
          else Raise err
      | [] => Raise err
      end
  end.

(** [scan_once] of the C scanner.  [depth] is the number of arrays and
    objects, one inside the other, that the interpreter still lets the
    scanner enter: the scanner asks [Py_EnterRecursiveCall] at every opening
    bracket or brace, the one of an empty array or object included, and
    [RecursionError] is raised when none is left.  The length of what
    follows the bracket bounds the items of one array or object.  Every
    error of [scanstring] is an error message. *)
Fixpoint scan_once (depth : nat) (s : pystr) {struct depth} : scanned json :=
  match s with
  | [] => Stop
  | c :: r =>
      if (c =? 34)%N then
        match scanstring r [] with
        | Scan str r' => Scan (JString str) r'
        | _ => Raise (errmsg depth)
        end
      else if (c =? 123)%N then
        match depth with
        | O => Raise RecursionError
        | S depth' =>
            match skip_ws r with
            | c' :: r' =>
                if (c' =? 125)%N then Scan (JObject []) r'
                else object_pairs (scan_once depth') (errmsg depth')
                                  (length r) (skip_ws r) []
            | [] => Raise (errmsg depth')
            end
        end
      else if (c =? 91)%N then
        match depth with
        | O => Raise RecursionError
        | S depth' =>
            match skip_ws r with
            | c' :: r' =>
                if (c' =? 93)%N then Scan (JArray []) r'
                else array_items (scan_once depth') (errmsg depth')
                                 (length r) (skip_ws r) []
            | [] => Stop
            end
        end
      else if startswith (lit "null") s then Scan JNull (skipn 4 s)
      else if startswith (lit "true") s then Scan (JBool true) (skipn 4 s)
      else if startswith (lit "false") s then Scan (JBool false) (skipn 5 s)
      else if startswith (lit "NaN") s then Scan (JFloat S754_nan) (skipn 3 s)
      else if startswith (lit "Infinity") s
      then Scan (JFloat (S754_infinity false)) (skipn 8 s)
      else if startswith (lit "-Infinity") s
      then Scan (JFloat (S754_infinity true)) (skipn 9 s)
      else match match_number s with
           | Some r => r
           | None => Stop
           end
  end.

(** A scanner that uses up no fuel and consumes something of every text it
    scans a value from. *)
Definition scans_well (scan : pystr -> scanned json) : Prop :=
  forall s, scan s <> OutOfFuel /\
            forall v rest, scan s = Scan v rest -> (length rest < length s)%nat.

(** [json.loads(s)], the interpreter letting the scanner enter [depth]
    arrays and objects one inside the other.  [loads] calls [decode], which
    calls [raw_decode], which calls the scanner: where the scanner has
    [depth] nested calls left, [raw_decode] has one more for the error it
    makes of a [StopIteration], [decode] two for its error on what follows
    the value, and [loads] three for its error on a byte order mark.  The
    last case is never met (lemma [scan_once_fuel]). *)
Definition loads (depth : nat) (s : pystr) : exn + json :=
  if startswith [65279%N] s then inl (errmsg (depth + 3))
  else match scan_once depth (skip_ws s) with
       | Scan v rest =>
           match skip_ws rest with
           | [] => inr v
           | _ :: _ => inl (errmsg (depth + 2))
           end
       | Raise e => inl e
       | Stop => inl (errmsg (depth + 1))
       | OutOfFuel => inl RecursionError
       end.

End Json.

(* ================================================================== *)
(** * The builtins [bool], [str], [float] and [dict.get] on parsed values *)
(* ================================================================== *)

Module Builtins.

Import PyFloat Json.

(** What is kept as a parameter of the Python runtime.  Two conversions:
    [float(s)] for a [str] (its grammar of signs, underscores, spellings of
    infinity and Unicode digits), [None] being its [ValueError]; and
    [str(v)] for a parsed value that is not itself a [str] (the [repr] of
    numbers, constants, lists and dicts).  And [recursion_depth], the number
    of arrays and objects, one inside the other, that the scanner of
    [json.loads] can enter where [_parse_response] calls it before the
    interpreter raises [RecursionError]: what the recursion limit (1000
    unless it is set) leaves once the calls already on the stack are taken
    off.  The other calls of the method nest to a fixed depth and are taken
    to fit. *)
Record PyBuiltins : Type := {
  float_of_str : pystr -> option float;
  repr_value : json -> pystr;
  recursion_depth : nat
}.

(** [bool(v)] *)
Definition truthy (v : json) : bool :=
  match v with
  | JNull => false
  | JBool b => b
  | JInt z => negb (z =? 0)%Z
  | JFloat (S754_zero _) => false
  | JFloat _ => true
  | JString s => match s with [] => false | _ :: _ => true end
  | JArray l => match l with [] => false | _ :: _ => true end
  | JObject l => match l with [] => false | _ :: _ => true end
  end.

(** [str(v)] *)
Definition py_str (B : PyBuiltins) (v : json) : pystr :=
  match v with
  | JString s => s
  | _ => repr_value B v
  end.

(** [float(v)] *)
Definition py_float (B : PyBuiltins) (v : json) : exn + float :=
  match v with
  | JNull => inl TypeError
  | JBool b => inr (if b then one else zero)
  | JInt z => match of_int z with
              | Some x => inr x
              | None => inl OverflowError
              end
  | JFloat x => inr x
  | JString s => match float_of_str B s with
                 | Some x => inr x
                 | None => inl ValueError
                 end
  | JArray _ => inl TypeError
  | JObject _ => inl TypeError
  end.

(** The value of [key] in the [dict] made of the pairs [d]: that of the last
    pair with this key. *)
Fixpoint lookup (key : pystr) (d : list (pystr * json)) : option json :=
  match d with
  | [] => None
  | (k, v) :: d' =>
      match lookup key d' with
      | Some v' => Some v'
      | None => if PyStr.eqb k key then Some v else None
      end
  end.

(** [d.get(key, default)] on a [dict] *)
Definition dict_get (d : list (pystr * json)) (key : pystr) (default : json)
  : json :=
  match lookup key d with
  | Some x => x
  | None => default
  end.

(** [v.get(key, default)]; only a [dict] has the method. *)
Definition py_get (v : json) (key : pystr) (default : json) : exn + json :=
  match v with
  | JObject d => inr (dict_get d key default)
  | _ => inl AttributeError
  end.

(** An instance to run the model on closed inputs: a [str] in the syntax of
    a JSON number converts as that number does, [repr] is given for the
    constants and the integers, and the scanner can go 990 deep, about what
    CPython 3.11 leaves under its default limit. *)
Definition sample_builtins : PyBuiltins := {|
  float_of_str := fun s =>
    match match_number s with
    | Some (Scan (JFloat x) []) => Some x
    | Some (Scan (JInt z) []) => of_int z
    | _ => None
    end;
  repr_value := fun v =>
    match v with
    | JNull => lit "None"
    | JBool true => lit "True"
    | JBool false => lit "False"
    | JInt z => str_of_Z z
    | _ => []
    end;
  recursion_depth := 990
|}.

End Builtins.

(* ================================================================== *)
(** * [queue.Queue] *)
(* ================================================================== *)

(** What a call does to the thread that makes it: it returns, or it waits for
    another thread. *)
Inductive outcome (S : Type) : Type :=
| Returns (s : S)
| Blocks.
Arguments Blocks {S}.

Module Queue.

Section Queue.
Variable A : Type.

(** [maxsize <= 0] is a queue without bound. *)
Record t : Type := mk { maxsize : Z; items : list A }.

(** [queue.Queue(maxsize)]; [queue.Queue()] is [new 0]. *)
Definition new (maxsize : Z) : t := mk maxsize [].

Definition qsize (q : t) : Z := Z.of_nat (length (items q)).

Definition empty (q : t) : bool := (qsize q =? 0)%Z.

(** [q.full()] *)
Definition full (q : t) : bool :=
  ((0 <? maxsize q) && (maxsize q <=? qsize q))%Z.

(** The three ends of a [put]. *)
Inductive put_result : Type :=
| Put (q' : t)
| Full
| PutBlocks.

(** [q.put(item, block)] with no timeout. *)
Definition put (q : t) (item : A) (block : bool) : put_result :=
  if full q then (if block then PutBlocks else Full)
  else Put (mk (maxsize q) (items q ++ [item])).

(** [q.put_nowait(item)]: [None] is [queue.Full]. *)
Definition put_nowait (q : t) (item : A) : option t :=
  match put q item false with
  | Put q' => Some q'
  | _ => None
  end.

(** [q.get_nowait()], and [q.get(timeout=...)] once the wait is over:
    [None] is [queue.Empty]. *)
Definition get_nowait (q : t) : option (A * t) :=
  match items q with
  | [] => None
  | x :: rest => Some (x, mk (maxsize q) rest)
  end.

End Queue.

Arguments Full {A}.
Arguments PutBlocks {A}.

End Queue.

(* ================================================================== *)
(** * Log records *)
(* ================================================================== *)

Inductive Level : Type := DEBUG | INFO | WARNING | ERROR.

(** The messages of the modelled methods, by the place that writes them. *)
Inductive Message : Type :=
| MsgQueueFull          (* submit_task: the task queue is full, request skipped *)
| MsgSending            (* _worker_loop: sending the request *)
| MsgDone               (* _worker_loop: analysis finished *)
| MsgRequestFailed      (* NetworkWorker._worker_loop: HTTP request failed *)
| MsgApiFailed          (* GeminiWorker._worker_loop: API call failed *)
| MsgWorkerError        (* _worker_loop: outer handler *)
| MsgJsonFailed         (* _parse_response: JSON decoding failed, raw text used *)
| MsgParseFailed        (* _parse_response: error while parsing the response *)
| MsgCooldown           (* _trigger_alert: alert cooling down *)
| MsgAlert              (* _trigger_alert: alert raised *)
| MsgImageSaved         (* _save_alert_image *)
| MsgSubmitted.         (* run: image handed to the analysis *)

Record LogRecord : Type := Log { level : Level; message : Message }.

(* ================================================================== *)
(** * Response normalization: [_parse_response] *)
(* ================================================================== *)

Module Response.

Import PyFloat Json Builtins.

(** The result dictionary.  [_parse_response] fills the six keys; the error
    result of [GeminiWorker._worker_loop] has no ["alert_type"] and no
    ["alert_message"], which is [None] here. *)
Record AnalysisResult : Type := mkResult {
  raw_response : pystr;
  is_danger : bool;
  alert_type : option pystr;
  alert_message : option pystr;
  reasoning : pystr;
  confidence : float
}.

Definition set_is_danger (v : bool) (r : AnalysisResult) :=
  mkResult (raw_response r) v (alert_type r) (alert_message r)
           (reasoning r) (confidence r).
Definition set_alert_type (v : pystr) (r : AnalysisResult) :=
  mkResult (raw_response r) (is_danger r) (Some v) (alert_message r)
           (reasoning r) (confidence r).
Definition set_alert_message (v : pystr) (r : AnalysisResult) :=
  mkResult (raw_response r) (is_danger r) (alert_type r) (Some v)
           (reasoning r) (confidence r).
Definition set_reasoning (v : pystr) (r : AnalysisResult) :=
  mkResult (raw_response r) (is_danger r) (alert_type r) (alert_message r)
           v (confidence r).
Definition set_confidence (v : float) (r : AnalysisResult) :=
  mkResult (raw_response r) (is_danger r) (alert_type r) (alert_message r)
           (reasoning r) v.

(** The body of a [try]: statements that update [result] in place and may
    raise; what was assigned before the exception stays assigned. *)
Definition Try (A : Type) : Type :=
  AnalysisResult -> (exn + A) * AnalysisResult.

Definition ret {A} (a : A) : Try A := fun r => (inr a, r).

Definition bind {A B} (c : Try A) (k : A -> Try B) : Try B :=
  fun r => match c r with
           | (inr a, r') => k a r'
           | (inl e, r') => (inl e, r')
           end.

(** An expression that yields a value or raises. *)
Definition eval {A} (x : exn + A) : Try A := fun r => (x, r).

(** [result[key] = ...] *)
Definition assign (f : AnalysisResult -> AnalysisResult) : Try unit :=
  fun r => (inr tt, f r).

Notation "x <- c ;; k" := (bind c (fun x => k))
  (at level 61, c at next level, right associativity).
Notation "c ;;; k" := (bind c (fun _ => k))
  (at level 61, right associativity).

Definition fence_json : pystr := lit "```json".
Definition fence : pystr := lit "```".
Definition lbrace : N := 123.
Definition rbrace : N := 125.

(** The keywords of the fallback: "danger" and three Chinese words
    (danger, abnormal, injured). *)
Definition keywords : list pystr :=
  [ lit "danger"; [21361; 38505]; [24322; 24120]; [21463; 20260] ]%N.

(** [any(keyword in response_text.lower() for keyword in ...)] *)
Definition any_keyword (response_text : pystr) : bool :=
  existsb (fun keyword => contains keyword (lower response_text)) keywords.

(** Lines 152-161: whitespace and code fences taken off both ends. *)
Definition clean (response_text : pystr) : pystr :=
  let response_clean := strip response_text in
  let response_clean :=
    if startswith fence_json response_clean then drop 7 response_clean
    else if startswith fence response_clean then drop 3 response_clean
    else response_clean in
  let response_clean :=
    if endswith fence response_clean then drop_last 3 response_clean
    else response_clean in
  strip response_clean.

Definition json_start (response_text : pystr) : Z :=
  find lbrace (clean response_text).
Definition json_end (response_text : pystr) : Z :=
  (rfind rbrace (clean response_text) + 1)%Z.

(** [json_start != -1 and json_end > 0] *)
Definition json_found (response_text : pystr) : bool :=
  negb (json_start response_text =? -1)%Z && (json_end response_text >? 0)%Z.

Definition json_str (response_text : pystr) : pystr :=
  slice (json_start response_text) (json_end response_text)
        (clean response_text).

(** [max(0.0, min(1.0, x))] *)
Definition clamp (x : float) : float := py_max zero (py_min one x).

(** The [try] block, lines 151-183. *)
Definition try_block (B : PyBuiltins) (response_text : pystr) : Try unit :=
  if json_found response_text then
    json_data <- eval (Json.loads (recursion_depth B)
                                  (json_str response_text)) ;;
    v <- eval (py_get json_data (lit "is_danger") (JBool false)) ;;
    assign (set_is_danger (truthy v)) ;;;
    v <- eval (py_get json_data (lit "alert_type") (JString [])) ;;
    assign (set_alert_type (py_str B v)) ;;;
    v <- eval (py_get json_data (lit "alert_message") (JString [])) ;;
    assign (set_alert_message (py_str B v)) ;;;
    v <- eval (py_get json_data (lit "reasoning") (JString [])) ;;
    assign (set_reasoning (py_str B v)) ;;;
    v <- eval (py_get json_data (lit "confidence") (JFloat half)) ;;
    x <- eval (py_float B v) ;;
    assign (set_confidence x) ;;;
    assign (fun result => set_confidence (clamp (confidence result)) result)
  else
    assign (set_reasoning response_text) ;;;
    if any_keyword response_text
    then assign (set_is_danger true)
    else ret tt.

(** The dictionary the method starts from, lines 141-148. *)
Definition initial_result (response_text : pystr) : AnalysisResult :=
  {| raw_response := response_text;
     is_danger := false;
     alert_type := Some [];
     alert_message := Some [];
     reasoning := [];
     confidence := half |}.

(** [_parse_response(response_text)]: the returned dictionary and the
    warning of the handler that ran, if one did.  Both handlers assign the
    raw text to ["reasoning"]. *)
Definition _parse_response (B : PyBuiltins) (response_text : pystr)
  : AnalysisResult * list LogRecord :=
  match try_block B response_text (initial_result response_text) with
  | (inr _, result) => (result, [])
  | (inl e, result) =>
      (set_reasoning response_text result,
       [Log WARNING (if is_JSONDecodeError e then MsgJsonFailed
                     else MsgParseFailed)])
  end.

(** The well-formed text of the specification's example. *)
Definition example_text : pystr :=
  jq "{'is_danger':true,'confidence':1.5,'reasoning':'x'}".

End Response.

(* ================================================================== *)
(** * The analysis dispatcher: [NetworkWorker] and [GeminiWorker] *)
(* ================================================================== *)

(** What the two classes share word for word: the fields, [submit_task],
    [get_result] and [stop]. *)
Module Dispatcher.

Import Response.

Section Dispatcher.
Variable Frame : Type.

(** The dictionary [submit_task] queues. *)
Record Task : Type := mkTask {
  frame : Frame;
  query : pystr;
  timestamp : Q
}.

(** The worker object.  [delivered] lists the calls made to the callback
    and [log] the records written to the logger. *)
Record Worker : Type := mkWorker {
  task_queue : Queue.t Task;
  result_queue : Queue.t AnalysisResult;
  running : bool;
  callback : bool;
  delivered : list AnalysisResult;
  log : list LogRecord
}.

(** [__init__]: both queues are made by [queue.Queue()], without bound. *)
Definition __init__ : Worker :=
  mkWorker (Queue.new Task 0) (Queue.new AnalysisResult 0)
           false false [] [].

(** [start(callback)] with a callback given. *)
Definition start (w : Worker) : Worker :=
  mkWorker (task_queue w) (result_queue w) true true
           (delivered w) (log w).

Definition with_task_queue (q : Queue.t Task) (w : Worker) : Worker :=
  mkWorker q (result_queue w) (running w) (callback w)
           (delivered w) (log w).

Definition with_result_queue (q : Queue.t AnalysisResult) (w : Worker)
  : Worker :=
  mkWorker (task_queue w) q (running w) (callback w)
           (delivered w) (log w).

Definition logging (records : list LogRecord) (w : Worker) : Worker :=
  mkWorker (task_queue w) (result_queue w) (running w) (callback w)
           (delivered w) (log w ++ records).

(** [if self.callback: self.callback(result)] *)
Definition call_back (result : AnalysisResult) (w : Worker) : Worker :=
  mkWorker (task_queue w) (result_queue w) (running w) (callback w)
           (if callback w then delivered w ++ [result] else delivered w)
           (log w).

(** [submit_task(frame, query)] at clock reading [now]. *)
Definition submit_task (w : Worker) (frame : Frame) (query : pystr)
           (now : Q) : outcome Worker :=
  match Queue.put (task_queue w) (mkTask frame query now) false with
  | Queue.Put q' => Returns (with_task_queue q' w)
  | Queue.Full => Returns (logging [Log WARNING MsgQueueFull] w)
  | Queue.PutBlocks => Blocks
  end.

(** Calls of [submit_task] one after the other, each given by its frame,
    its query and its clock reading. *)
Fixpoint submit_tasks (w : Worker) (calls : list (Frame * pystr * Q))
  : outcome Worker :=
  match calls with
  | [] => Returns w
  | (frame, query, now) :: calls' =>
      match submit_task w frame query now with
      | Returns w' => submit_tasks w' calls'
      | Blocks => Blocks
      end
  end.

(** [get_result()] *)
Definition get_result (w : Worker) : option AnalysisResult * Worker :=
  match Queue.get_nowait (result_queue w) with
  | Some (result, q') => (Some result, with_result_queue q' w)
  | None => (None, w)
  end.

(** [self.result_queue.put(result)], then the callback. *)
Definition publish (result : AnalysisResult) (w : Worker)
  : outcome Worker :=
  match Queue.put (result_queue w) result true with
  | Queue.Put q' => Returns (call_back result (with_result_queue q' w))
  | _ => Blocks
  end.

(** The [while self.running] loop around a body that handles one task with
    one outcome of the remote call: the tasks queued are taken in order,
    each with the next outcome of [world], until the flag is cleared, the
    queue is empty or [world] is used up. *)
Fixpoint worker_loop (R : Type)
         (handle : Worker -> Task -> R -> outcome Worker)
         (world : list R) (w : Worker) : outcome Worker :=
  match world with
  | [] => Returns w
  | r :: world' =>
      if running w then
        match Queue.get_nowait (task_queue w) with
        | None => Returns w
        | Some (task, q') =>
            match handle (with_task_queue q' w) task r with
            | Returns w' => worker_loop handle world' w'
            | Blocks => Blocks
            end
        end
      else Returns w
  end.

End Dispatcher.

End Dispatcher.

Module NetworkWorker.

Import Response Builtins.
Export Dispatcher.

Definition _parse_response := Response._parse_response.

(** How the HTTP exchange of one task ends: a body whose ["response"] is
    [response_text]; a [requests.exceptions.RequestException] (no
    connection, timeout, error status, undecodable body); or another
    exception before a result exists. *)
Inductive http_outcome : Type :=
| HttpReply (response_text : pystr)
| RequestException
| OtherException.

Section NetworkWorker.
Variable Frame : Type.
Variable B : PyBuiltins.

(** The body of the loop once a task is taken, lines 83-128. *)
Definition handle_task (w : Worker Frame) (task : Task Frame)
           (o : http_outcome) : outcome (Worker Frame) :=
  match o with
  | HttpReply response_text =>
      let (parsed_result, warnings) := _parse_response B response_text in
      match publish parsed_result
                    (logging (Log INFO MsgSending :: warnings) w) with
      | Returns w' => Returns (logging [Log INFO MsgDone] w')
      | Blocks => Blocks
      end
  | RequestException =>
      Returns (logging [Log INFO MsgSending; Log ERROR MsgRequestFailed] w)
  | OtherException =>
      Returns (logging [Log ERROR MsgWorkerError] w)
  end.

Definition _worker_loop := worker_loop handle_task.

End NetworkWorker.

End NetworkWorker.

Module GeminiWorker.

Import Response Builtins PyFloat.
Export Dispatcher.

Definition _parse_response := Response._parse_response.

(** How the API call of one task ends: a response whose text is
    [response_text], or an exception whose [str] is [message]. *)
Inductive api_outcome : Type :=
| ApiReply (response_text : pystr)
| ApiException (message : pystr).

(** The prefixes of the two texts of [error_result] (call failed: / call
    went wrong:). *)
Definition api_call_failed : pystr :=
  [65; 80; 73; 32; 35843; 29992; 22833; 36133; 58; 32]%N.
Definition api_call_error : pystr :=
  [65; 80; 73; 32; 35843; 29992; 20986; 38169; 58; 32]%N.

(** [error_result], lines 148-153. *)
Definition error_result (message : pystr) : AnalysisResult :=
  {| raw_response := api_call_failed ++ message;
     is_danger := false;
     alert_type := None;
     alert_message := None;
     reasoning := api_call_error ++ message;
     confidence := zero |}.

Section GeminiWorker.
Variable Frame : Type.
Variable B : PyBuiltins.

(** The body of the loop once a task is taken, lines 117-161. *)
Definition handle_task (w : Worker Frame) (task : Task Frame)
           (o : api_outcome) : outcome (Worker Frame) :=
  match o with
  | ApiReply response_text =>
      let (parsed_result, warnings) := _parse_response B response_text in
      match publish parsed_result
                    (logging (Log INFO MsgSending :: warnings) w) with
      | Returns w' => Returns (logging [Log INFO MsgDone] w')
      | Blocks => Blocks
      end
  | ApiException message =>
      publish (error_result message)
              (logging [Log INFO MsgSending; Log ERROR MsgApiFailed] w)
  end.

Definition _worker_loop := worker_loop handle_task.

End GeminiWorker.

End GeminiWorker.

(* ================================================================== *)
(** * The capture pipeline: [VideoPipeline] *)
(* ================================================================== *)

Module VideoPipeline.

Section VideoPipeline.
Variable Frame : Type.

(** [self.frame_queue = queue.Queue(maxsize=2)] *)
Definition frame_queue_maxsize : Z := 2.

(** Where the capture thread stands in lines 109-117 once a frame is read:
    before the [get_nowait] it starts when [full()] answered yes, or before
    the [put_nowait]. *)
Inductive producer : Type :=
| Reading
| Evicting (frame : Frame)
| Putting (frame : Frame).

Record state : Type := mkState {
  frame_queue : Queue.t Frame;
  capture : producer
}.

Definition init : state :=
  mkState (Queue.new Frame frame_queue_maxsize) Reading.

(** One queue call of one of the two threads.  [Captured frame]: the
    capture thread has read [frame] and calls [full()].  [Producer]: the
    capture thread makes its next call.  [Consumer]: the main loop calls
    [read_frame]. *)
Inductive event : Type :=
| Captured (frame : Frame)
| Producer
| Consumer.

(** [read_frame()] *)
Definition read_frame (q : Queue.t Frame)
  : (bool * option Frame) * Queue.t Frame :=
  match Queue.get_nowait q with
  | Some (frame, q') => ((true, Some frame), q')
  | None => ((false, None), q)
  end.

Definition step (s : state) (e : event) : state :=
  match e, capture s with
  | Captured frame, Reading =>
      mkState (frame_queue s)
              (if Queue.full (frame_queue s) then Evicting frame
               else Putting frame)
  | Producer, Evicting frame =>
      match Queue.get_nowait (frame_queue s) with
      | Some (_, q') => mkState q' (Putting frame)
      | None => mkState (frame_queue s) (Putting frame)
      end
  | Producer, Putting frame =>
      match Queue.put_nowait (frame_queue s) frame with
      | Some q' => mkState q' Reading
      | None => mkState (frame_queue s) Reading
      end
  | Consumer, _ => mkState (snd (read_frame (frame_queue s))) (capture s)
  | _, _ => s
  end.

Definition run (s : state) (events : list event) : state :=
  fold_left step events s.

(** The calls of one pass of the capture loop over a frame, with no call
    of the consumer in between. *)
Definition push (frame : Frame) : list event :=
  [Captured frame; Producer; Producer].

(** Calling [read_frame] until it answers [False]. *)
Fixpoint drain (n : nat) (q : Queue.t Frame) : list Frame :=
  match n with
  | O => []
  | S n' =>
      match read_frame q with
      | ((_, Some frame), q') => frame :: drain n' q'
      | ((_, None), _) => []
      end
  end.

(** The frames the capture thread has put during [events], in the order of
    the puts. *)
Fixpoint put_history (s : state) (events : list event) : list Frame :=
  match events with
  | [] => []
  | e :: events' =>
      match e, capture s with
      | Producer, Putting frame =>
          match Queue.put_nowait (frame_queue s) frame with
          | Some _ => [frame]
          | None => []
          end
      | _, _ => []
      end ++ put_history (step s e) events'
  end.

(** The last two elements of a list (all of it when it is shorter). *)
Definition last_two (l : list Frame) : list Frame :=
  skipn (length l - 2) l.

(** What every interleaving of the two threads keeps true: the bound is 2, at
    most two frames are queued, and there is room for one when the capture
    thread is about to put. *)
Definition capture_inv (s : state) : Prop :=
  Queue.maxsize (frame_queue s) = 2%Z /\
  (length (Queue.items (frame_queue s)) <= 2)%nat /\
  match capture s with
  | Putting _ => (length (Queue.items (frame_queue s)) <= 1)%nat
  | _ => True
  end.

End VideoPipeline.

End VideoPipeline.

(* ================================================================== *)
(** * The main loop and the cooldown coordinator: [SmartMonitor] *)
(* ================================================================== *)

(** Clock readings are seconds as exact rationals; the rounding of the
    subtraction of two readings is not modelled. *)
Definition Qleb (a b : Q) : bool := Qle_bool a b.
Definition Qltb (a b : Q) : bool := negb (Qle_bool b a).

Module SmartMonitor.

Import Response.
Export Dispatcher.

(** The values of [current_status]. *)
Inductive Status : Type :=
| Initializing | Monitoring | Analyzing | AnalysisDone | DangerAlert | Safe.

(** The name [_save_alert_image] gives a file,
    [alert_{timestamp}_{alert_count}{cooldown_tag}_{reasoning_short}.jpg],
    by its four parts. *)
Record AlertImage : Type := mkImage {
  image_timestamp : pystr;
  image_alert_count : Z;
  image_cooldown_tag : bool;
  image_reasoning_short : pystr
}.

(** [alert_data], the record handed to the notifier. *)
Record AlertRecord : Type := mkAlert {
  rule_name : pystr;
  description : pystr;
  severity : pystr;
  location : pystr;
  alert_timestamp : pystr
}.

Definition rule_name_text : pystr :=
  [21361; 38505; 21160; 20316; 26816; 27979]%N.
Definition description_prefix : pystr :=
  [26816; 27979; 21040; 21361; 38505; 24773; 20917; 58; 32]%N.
Definition severity_high : pystr := [39640%N].
Definition location_text : pystr := [30417; 25511; 25668; 20687; 22836]%N.

(** The clock as one pass of the loop reads it, in the order of the
    reads. *)
Record Tick : Type := mkTick {
  current_time : Q;        (* time.time(), step 4 of run *)
  submit_time : Q;         (* time.time() in submit_task *)
  stamp_loop : pystr;      (* time.strftime in the save of step 5 *)
  alert_time : Q;          (* time.time() in _trigger_alert *)
  stamp_alert : pystr;     (* time.strftime for alert_data *)
  stamp_trigger : pystr    (* time.strftime in the save of _trigger_alert *)
}.

Section SmartMonitor.
Variable Frame : Type.

(** [self.detector.draw_detections] and the prompt of lines 332-356. *)
Variable draw_detections : Frame -> Frame.
Variable prompt : pystr.

(** The fields of the object that the loop reads or writes, with what it
    hands to the outside: [alert_notifier] holds the records given to
    [send_alert] ([None]: no notifier) and [images] the calls of
    [cv2.imwrite].  The frame-rate counters and the drawing of overlays
    touch none of these fields and are left out. *)
Record t : Type := mk {
  network_worker : Worker Frame;
  alert_notifier : option (list AlertRecord);
  last_upload_time : Q;
  last_alert_time : Q;
  cooldown_seconds : Q;
  alert_cooldown_seconds : Q;
  current_status : Status;
  alert_count : Z;
  analysis_count : Z;
  person_detection_count : Z;
  save_alert_images : bool;
  alert_display_start_time : option Q;
  alert_display_duration : Q;
  last_alert_result : option AnalysisResult;
  images : list (AlertImage * Frame)
}.

(** The object after [__init__] and [initialize]. *)
Definition initialized (cooldown : Q) (worker : Worker Frame) : t :=
  mk (start worker) (Some []) 0 0 cooldown 2 Monitoring 0 0 0 true
     None 5 None [].

Definition with_worker (w : Worker Frame) (m : t) : t :=
  mk w (alert_notifier m) (last_upload_time m) (last_alert_time m)
     (cooldown_seconds m) (alert_cooldown_seconds m) (current_status m)
     (alert_count m) (analysis_count m) (person_detection_count m)
     (save_alert_images m) (alert_display_start_time m)
     (alert_display_duration m) (last_alert_result m) (images m).

Definition with_notifier (n : option (list AlertRecord)) (m : t) : t :=
  mk (network_worker m) n (last_upload_time m) (last_alert_time m)
     (cooldown_seconds m) (alert_cooldown_seconds m) (current_status m)
     (alert_count m) (analysis_count m) (person_detection_count m)
     (save_alert_images m) (alert_display_start_time m)
     (alert_display_duration m) (last_alert_result m) (images m).

Definition with_last_upload_time (x : Q) (m : t) : t :=
  mk (network_worker m) (alert_notifier m) x (last_alert_time m)
     (cooldown_seconds m) (alert_cooldown_seconds m) (current_status m)
     (alert_count m) (analysis_count m) (person_detection_count m)
     (save_alert_images m) (alert_display_start_time m)
     (alert_display_duration m) (last_alert_result m) (images m).

Definition with_last_alert_time (x : Q) (m : t) : t :=
  mk (network_worker m) (alert_notifier m) (last_upload_time m) x
     (cooldown_seconds m) (alert_cooldown_seconds m) (current_status m)
     (alert_count m) (analysis_count m) (person_detection_count m)
     (save_alert_images m) (alert_display_start_time m)
     (alert_display_duration m) (last_alert_result m) (images m).

Definition with_status (x : Status) (m : t) : t :=
  mk (network_worker m) (alert_notifier m) (last_upload_time m)
     (last_alert_time m) (cooldown_seconds m) (alert_cooldown_seconds m) x
     (alert_count m) (analysis_count m) (person_detection_count m)
     (save_alert_images m) (alert_display_start_time m)
     (alert_display_duration m) (last_alert_result m) (images m).

Definition with_alert_count (x : Z) (m : t) : t :=
  mk (network_worker m) (alert_notifier m) (last_upload_time m)
     (last_alert_time m) (cooldown_seconds m) (alert_cooldown_seconds m)
     (current_status m) x (analysis_count m) (person_detection_count m)
     (save_alert_images m) (alert_display_start_time m)
     (alert_display_duration m) (last_alert_result m) (images m).

Definition with_analysis_count (x : Z) (m : t) : t :=
  mk (network_worker m) (alert_notifier m) (last_upload_time m)
     (last_alert_time m) (cooldown_seconds m) (alert_cooldown_seconds m)
     (current_status m) (alert_count m) x (person_detection_count m)
     (save_alert_images m) (alert_display_start_time m)
     (alert_display_duration m) (last_alert_result m) (images m).

Definition with_person_detection_count (x : Z) (m : t) : t :=
  mk (network_worker m) (alert_notifier m) (last_upload_time m)
     (last_alert_time m) (cooldown_seconds m) (alert_cooldown_seconds m)
     (current_status m) (alert_count m) (analysis_count m) x
     (save_alert_images m) (alert_display_start_time m)
     (alert_display_duration m) (last_alert_result m) (images m).

Definition with_alert_display (start : option Q)
           (result : option AnalysisResult) (m : t) : t :=
  mk (network_worker m) (alert_notifier m) (last_upload_time m)
     (last_alert_time m) (cooldown_seconds m) (alert_cooldown_seconds m)
     (current_status m) (alert_count m) (analysis_count m)
     (person_detection_count m) (save_alert_images m) start
     (alert_display_duration m) result (images m).

Definition with_images (x : list (AlertImage * Frame)) (m : t) : t :=
  mk (network_worker m) (alert_notifier m) (last_upload_time m)
     (last_alert_time m) (cooldown_seconds m) (alert_cooldown_seconds m)
     (current_status m) (alert_count m) (analysis_count m)
     (person_detection_count m) (save_alert_images m)
     (alert_display_start_time m) (alert_display_duration m)
     (last_alert_result m) x.

(** The tasks waiting in the dispatcher. *)
Definition tasks (m : t) : list (Task Frame) :=
  Queue.items (task_queue (network_worker m)).

(** [result.get('reasoning', ...)[:20].replace(' ', '_').replace('/', '_')] *)
Definition reasoning_short (result : AnalysisResult) : pystr :=
  map (fun c => if ((c =? 32) || (c =? 47))%N then 95%N else c)
      (firstn 20 (reasoning result)).

(** [_save_alert_image(frame, result, is_cooldown)], with [timestamp] the
    answer of [time.strftime]: one call of [cv2.imwrite]. *)
Definition _save_alert_image (m : t) (frame : Frame)
           (result : AnalysisResult) (is_cooldown : bool)
           (timestamp : pystr) : t :=
  with_images
    (images m ++ [(mkImage timestamp (alert_count m) is_cooldown
                           (reasoning_short result), frame)]) m.

(** [_trigger_alert(result, frame)] *)
Definition _trigger_alert (m : t) (result : AnalysisResult)
           (frame : option Frame) (tick : Tick) : t :=
  if Qltb (alert_time tick - last_alert_time m) (alert_cooldown_seconds m)
  then
    match save_alert_images m, frame with
    | true, Some f => _save_alert_image m f result true (stamp_trigger tick)
    | _, _ => m
    end
  else
    let m := with_last_alert_time (alert_time tick) m in
    let m := with_alert_count (alert_count m + 1) m in
    let alert_data :=
      mkAlert rule_name_text (description_prefix ++ reasoning result)
              severity_high location_text (stamp_alert tick) in
    let m := match alert_notifier m with
             | Some sent => with_notifier (Some (sent ++ [alert_data])) m
             | None => m
             end in
    match save_alert_images m, frame with
    | true, Some f => _save_alert_image m f result false (stamp_trigger tick)
    | _, _ => m
    end.

(** Step 4 of [run]: the upload gate. *)
Definition upload_gate (has_person : bool) (m : t) (tick : Tick) : bool :=
  let time_since_last_upload := current_time tick - last_upload_time m in
  has_person && Qleb (cooldown_seconds m) time_since_last_upload.

Definition escalate (m : t) (frame : Frame) (has_person : bool)
           (tick : Tick) : outcome t :=
  if upload_gate has_person m tick then
    match submit_task (network_worker m) frame prompt (submit_time tick) with
    | Returns w =>
        Returns (with_last_upload_time (current_time tick)
                   (with_status Analyzing (with_worker w m)))
    | Blocks => Blocks
    end
  else Returns m.

(** Step 5 of [run]: the poll of the dispatcher. *)
Definition poll_result (m : t) (frame : Frame) (tick : Tick) : t :=
  match get_result (network_worker m) with
  | (Some result, w) =>
      let m := with_worker w m in
      let m := with_analysis_count (analysis_count m + 1) m in
      let m := with_status AnalysisDone m in
      if is_danger result then
        let m := with_alert_display (Some (current_time tick))
                                    (Some result) m in
        let m := if save_alert_images m
                 then _save_alert_image m frame result false
                                        (stamp_loop tick)
                 else m in
        let m := _trigger_alert m result (Some frame) tick in
        with_status DangerAlert m
      else with_status Safe m
  | (None, w) => with_worker w m
  end.

(** Step 5.5 of [run]: the alert stays on display for
    [alert_display_duration]. *)
Definition display (m : t) (tick : Tick) : t :=
  match alert_display_start_time m with
  | Some start =>
      if Qltb (current_time tick - start) (alert_display_duration m)
      then m
      else with_alert_display None None m
  | None => m
  end.

(** One pass of the [while] loop of [run] over a frame that
    [read_frame] delivered, with the answer of the detector. *)
Definition iteration (m : t) (frame : Frame) (has_person : bool)
           (tick : Tick) : outcome t :=
  let m := if has_person
           then with_person_detection_count (person_detection_count m + 1) m
           else m in
  let frame := if has_person then draw_detections frame else frame in
  match escalate m frame has_person tick with
  | Returns m => Returns (display (poll_result m frame tick) tick)
  | Blocks => Blocks
  end.

(** The passes of the loop over a stream of frames. *)
Fixpoint run (m : t) (stream : list (Frame * bool * Tick)) : outcome t :=
  match stream with
  | [] => Returns m
  | (frame, has_person, tick) :: stream' =>
      match iteration m frame has_person tick with
      | Returns m' => run m' stream'
      | Blocks => Blocks
      end
  end.

End SmartMonitor.

End SmartMonitor.

(* ================================================================== *)
(** * Notions used to state further properties *)
(* ================================================================== *)

Module ResponseSpec.

Import Response.

(** The part of a text from its first opening brace to its last closing
    brace, both included. *)
Definition between_braces (s : pystr) : pystr :=
  slice (find lbrace s) (rfind rbrace s + 1) s.

(** A character that is no brace. *)
Definition no_brace (c : N) : Prop := c <> lbrace /\ c <> rbrace.

End ResponseSpec.

Module DispatcherSpec.

Import Builtins Response Dispatcher.

(** The result [GeminiWorker]'s loop publishes for one outcome of the API
    call. *)
Definition gemini_result (B : PyBuiltins) (o : GeminiWorker.api_outcome)
  : AnalysisResult :=
  match o with
  | GeminiWorker.ApiReply response_text =>
      fst (GeminiWorker._parse_response B response_text)
  | GeminiWorker.ApiException message => GeminiWorker.error_result message
  end.

(** The results [NetworkWorker]'s loop publishes for a run of outcomes of the
    HTTP exchange: one for each reply. *)
Definition network_results (B : PyBuiltins)
           (world : list NetworkWorker.http_outcome) : list AnalysisResult :=
  flat_map (fun o => match o with
                     | NetworkWorker.HttpReply response_text =>
                         [fst (NetworkWorker._parse_response B response_text)]
                     | _ => []
                     end) world.

Section Poll.
Variable Frame : Type.

(** [n] calls of [get_result] in a row: what each returned, and the worker
    after the last. *)
Fixpoint poll (n : nat) (w : Worker Frame)
  : list (option AnalysisResult) * Worker Frame :=
  match n with
  | O => ([], w)
  | S n' =>
      let (r, w1) := get_result w in
      let (rs, w2) := poll n' w1 in
      (r :: rs, w2)
  end.

End Poll.

End DispatcherSpec.

Module CooldownSpec.

Import Response SmartMonitor.

(** [spaced gap last l]: the first time of [l] is at least [gap] after [last]
    and each time at least [gap] after the one before. *)
Fixpoint spaced (gap last : Q) (l : list Q) : Prop :=
  match l with
  | [] => True
  | t :: l' => (gap <= t - last)%Q /\ spaced gap t l'
  end.

Section Traces.
Variable Frame : Type.
Variable draw_detections : Frame -> Frame.
Variable prompt : pystr.


(** The clock readings of the calls of [_trigger_alert] that raised the alert
    counter. *)
Fixpoint alert_times (m : SmartMonitor.t Frame)
         (calls : list (AnalysisResult * Frame * Tick)) : list Q :=
  match calls with
  | [] => []
  | (result, frame, tick) :: calls' =>
      let m' := _trigger_alert m result (Some frame) tick in
      (if (alert_count m' =? alert_count m)%Z then [] else [alert_time tick])
      ++ alert_times m' calls'
  end.

(** The clock readings of the passes of [run] that queued a task. *)
Fixpoint upload_times (m : SmartMonitor.t Frame)
         (stream : list (Frame * bool * Tick)) : list Q :=
  match stream with
  | [] => []
  | (frame, has_person, tick) :: stream' =>
      match iteration draw_detections prompt m frame has_person tick with
      | Returns m' =>
          (if Nat.eqb (length (tasks m')) (length (tasks m)) then []
           else [current_time tick])
          ++ upload_times m' stream'
      | Blocks => []
      end
  end.

End Traces.

End CooldownSpec.

(* ================================================================== *)
(** * The video source: [CameraConnector] *)
(* ================================================================== *)

Module CameraConnector.

Section CameraConnector.
Variable Frame : Type.

(** A [cv2.VideoCapture]: whether it is open, and what its next reads give
    ([None]: a read that fails).  Once these are used up every read fails,
    as at the end of a file. *)
Record VideoCapture : Type := mkCapture {
  isOpened : bool;
  upcoming : list (option Frame)
}.

(** [cap.read()], with [ret, frame] as one option. *)
Definition cap_read (cap : VideoCapture) : option Frame * VideoCapture :=
  if isOpened cap then
    match upcoming cap with
    | [] => (None, cap)
    | x :: rest => (x, mkCapture true rest)
    end
  else (None, cap).

(** [cap.release()] *)
Definition cap_release (cap : VideoCapture) : VideoCapture :=
  mkCapture false (upcoming cap).

(** The capture object of a file that holds [frames]. *)
Definition file_capture (frames : list Frame) : VideoCapture :=
  mkCapture true (map Some frames).

(** The fields of the object that decide what its methods return.  The
    width, the height and the frame rate are written and never read by the
    methods modelled. *)
Record t : Type := mk {
  cap : option VideoCapture;
  is_opened : bool;
  frame_count : Z
}.

Definition __init__ : t := mk None false 0.

(** [connect()], given what [cv2.VideoCapture(self.source)] gives ([None]:
    it raises).  The calls of [set] and [get] are taken not to raise.  No
    branch clears [is_opened]. *)
Definition connect (c : t) (opened : option VideoCapture) : bool * t :=
  match opened with
  | None => (false, c)
  | Some new_cap =>
      if negb (isOpened new_cap)
      then (false, mk (Some new_cap) (is_opened c) (frame_count c))
      else
        match cap_read new_cap with
        | (Some first_frame, new_cap') =>
            (true, mk (Some new_cap') true (frame_count c))
        | (None, new_cap') =>
            (false, mk (Some (cap_release new_cap')) (is_opened c)
                       (frame_count c))
        end
  end.

(** [read_frame()] *)
Definition read_frame (c : t) : (bool * option Frame) * t :=
  match is_opened c, cap c with
  | true, Some the_cap =>
      match cap_read the_cap with
      | (Some frame, cap') =>
          ((true, Some frame), mk (Some cap') true (frame_count c + 1))
      | (None, cap') => ((false, None), mk (Some cap') true (frame_count c))
      end
  | _, _ => ((false, None), c)
  end.

(** [is_connected()] *)
Definition is_connected (c : t) : bool :=
  is_opened c &&
  match cap c with
  | Some the_cap => isOpened the_cap
  | None => false
  end.

(** [release()] *)
Definition release (c : t) : t :=
  match cap c with
  | Some the_cap => mk (Some (cap_release the_cap)) false (frame_count c)
  | None => c
  end.

(** [n] calls of [read_frame] in a row: the frames delivered up to the first
    failure, and the object after the calls. *)
Fixpoint read_frames (n : nat) (c : t) : list Frame * t :=
  match n with
  | O => ([], c)
  | S n' =>
      match read_frame c with
      | ((true, Some frame), c') =>
          let (frames, c'') := read_frames n' c' in (frame :: frames, c'')
      | (_, c') => ([], c')
      end
  end.

End CameraConnector.

Arguments __init__ {Frame}.

End CameraConnector.

(* ================================================================== *)
(** * The capture thread: [VideoPipeline.start] and [_capture_loop] *)
(* ================================================================== *)

Module CaptureLoop.

Import CameraConnector.

Section CaptureLoop.
Variable Frame : Type.

(** The object, with two lists kept for the statements: the frames the loop
    handed to the queue and the durations it asked [time.sleep] for. *)
Record Pipeline : Type := mkPipeline {
  camera : CameraConnector.t Frame;
  frame_queue : Queue.t Frame;
  running : bool;
  is_video_file : bool;
  loop_video : bool;
  target_fps : Q;
  last_frame_time : Q;
  captured : list Frame;
  slept : list Q
}.

(** [__init__], with [isinstance(source, str)] as a flag. *)
Definition __init__ (source_is_str : bool) (loop_video : bool)
           (target_fps : Q) : Pipeline :=
  mkPipeline CameraConnector.__init__
             (Queue.new Frame VideoPipeline.frame_queue_maxsize)
             false source_is_str (loop_video && source_is_str)
             (if source_is_str then target_fps else 0) 0 [] [].

Definition with_camera (c : CameraConnector.t Frame) (p : Pipeline) :=
  mkPipeline c (frame_queue p) (running p) (is_video_file p) (loop_video p)
             (target_fps p) (last_frame_time p) (captured p) (slept p).

Definition with_running (b : bool) (p : Pipeline) :=
  mkPipeline (camera p) (frame_queue p) b (is_video_file p) (loop_video p)
             (target_fps p) (last_frame_time p) (captured p) (slept p).

Definition with_last_frame_time (x : Q) (p : Pipeline) :=
  mkPipeline (camera p) (frame_queue p) (running p) (is_video_file p)
             (loop_video p) (target_fps p) x (captured p) (slept p).

(** [time.sleep(d)] *)
Definition sleep (d : Q) (p : Pipeline) :=
  mkPipeline (camera p) (frame_queue p) (running p) (is_video_file p)
             (loop_video p) (target_fps p) (last_frame_time p) (captured p)
             (slept p ++ [d]).

(** Lines 109-117 with no call of the consumer in between. *)
Definition enqueue (frame : Frame) (p : Pipeline) :=
  mkPipeline (camera p)
             (VideoPipeline.frame_queue
                (VideoPipeline.run
                   (VideoPipeline.mkState (frame_queue p)
                                          (VideoPipeline.Reading Frame))
                   (VideoPipeline.push frame)))
             (running p) (is_video_file p) (loop_video p) (target_fps p)
             (last_frame_time p) (captured p ++ [frame]) (slept p).

(** [start()], given what [cv2.VideoCapture] gives. *)
Definition start (p : Pipeline) (opened : option (VideoCapture Frame))
  : bool * Pipeline :=
  let (connected, c) := connect (camera p) opened in
  if connected then (true, with_running true (with_camera c p))
  else (false, with_camera c p).

(** [stop()] *)
Definition stop (p : Pipeline) : Pipeline :=
  let p := with_running false p in
  with_camera (release (camera p)) p.

(** [is_running()] *)
Definition is_running (p : Pipeline) : bool :=
  running p && is_connected (camera p).

(** What one pass of the loop meets outside the object: the clock reading of
    line 75, the time that passes up to the reading of line 81 beyond what
    was slept, and what [cv2.VideoCapture] gives if the pass reconnects. *)
Record Pass : Type := mkPass {
  clock : Q;
  lag : Q;
  reopened : option (VideoCapture Frame)
}.

(** How a pass ends: at [continue] or the end of the body, at [break], or
    with an exception that ends the thread. *)
Inductive flow : Type := Continue | Break | Dies.

(** Lines 74-81: the pacing of a video file.  The times are exact
    rationals, as for the monitor; [time.sleep] is taken to return after
    the time asked for and the [lag] of the pass. *)
Definition pace (p : Pipeline) (e : Pass) : Pipeline :=
  if is_video_file p && Qltb 0 (target_fps p) then
    let current_time := clock e in
    let frame_interval := 1 / target_fps p in
    if Qltb 0 (last_frame_time p) then
      let elapsed := current_time - last_frame_time p in
      if Qltb elapsed frame_interval then
        let d := frame_interval - elapsed in
        with_last_frame_time (current_time + d + lag e) (sleep d p)
      else with_last_frame_time (current_time + lag e) p
    else with_last_frame_time (current_time + lag e) p
  else p.

(** The body of the [while] loop, lines 73-117. *)
Definition capture_pass (p : Pipeline) (e : Pass) : flow * Pipeline :=
  let p := pace p e in
  match read_frame (camera p) with
  | ((true, Some frame), c) => (Continue, enqueue frame (with_camera c p))
  | ((true, None), c) => (Dies, with_camera c p)
  | ((false, _), c) =>
      let p := with_camera c p in
      if is_video_file p && loop_video p then
        let p := with_camera (release (camera p)) p in
        let (connected, c) := connect (camera p) (reopened e) in
        let p := with_camera c p in
        if connected then (Continue, with_last_frame_time 0 p)
        else (Break, p)
      else if is_video_file p then (Break, p)
      else
        let (connected, c) := connect (camera p) (reopened e) in
        let p := with_camera c p in
        if connected then (Continue, p) else (Break, p)
  end.

(** The thread after the passes given: out of the loop, or still in it. *)
Inductive thread : Type :=
| Exited (p : Pipeline)
| Looping (p : Pipeline).

(** [_capture_loop()] over the passes given, as long as [running] is set. *)
Fixpoint _capture_loop (p : Pipeline) (passes : list Pass) : thread :=
  match passes with
  | [] => if running p then Looping p else Exited p
  | e :: passes' =>
      if running p then
        match capture_pass p e with
        | (Continue, p') => _capture_loop p' passes'
        | (_, p') => Exited p'
        end
      else Exited p
  end.



(** What the loop keeps true while it plays a looped file whose frames
    after the first are [fs]. *)
Definition looping_file (fs : list Frame) (p : Pipeline) : Prop :=
  running p = true /\ is_video_file p = true /\ loop_video p = true /\
  (exists n, camera p = mk (Some (mkCapture true (map Some fs))) true n) /\
  (exists items, frame_queue p = Queue.mk 2 items /\
                 (length items <= 2)%nat).

End CaptureLoop.

End CaptureLoop.

(* ================================================================== *)
(** * The alert notifier: [AlertNotifier] *)
(* ================================================================== *)

Module AlertNotifier.

Import Json Builtins.

(** The exceptions that leave the methods modelled: those of the built-ins
    ([AttributeError], [TypeError], [ValueError]) and four more. *)
Inductive error : Type :=
| Builtin (e : exn)
| KeyError
| IndexError
| FileNotFoundError
| OSError.

Definition dict : Type := list (pystr * json).

(** [v.get(key, default)], [AttributeError] when [v] is no [dict]. *)
Definition get (v : json) (key : pystr) (default : json) : error + json :=
  match py_get v key default with
  | inl e => inl (Builtin e)
  | inr x => inr x
  end.

(** [d.items()]: each key once, at the place of its first pair and with the
    value of its last. *)
Fixpoint items_from (seen : list pystr) (d0 d : dict) : dict :=
  match d with
  | [] => []
  | (k, v) :: d' =>
      if existsb (PyStr.eqb k) seen then items_from seen d0 d'
      else (k, dict_get d0 k v) :: items_from (k :: seen) d0 d'
  end.

Definition items (d : dict) : dict := items_from [] d d.

(** The three severities: low, medium, high. *)
Definition low : pystr := [20302]%N.
Definition medium : pystr := [20013]%N.
Definition high : pystr := [39640]%N.

(** The default configuration, lines 238-286. *)
Definition default_config : dict :=
  [ (lit "enabled", JBool true);
    (lit "methods", JObject
      [ (lit "console", JObject
          [ (lit "enabled", JBool true);
            (lit "min_severity", JString low) ]);
        (lit "file", JObject
          [ (lit "enabled", JBool true);
            (lit "min_severity", JString low);
            (lit "file_path", JString (lit "alerts/alerts_log.txt")) ]);
        (lit "email", JObject
          [ (lit "enabled", JBool false);
            (lit "min_severity", JString medium);
            (lit "smtp_server", JString (lit "smtp.example.com"));
            (lit "smtp_port", JInt 587);
            (lit "username", JString (lit "alert_system@example.com"));
            (lit "password", JString (lit "your_password_here"));
            (lit "from_address", JString (lit "alert_system@example.com"));
            (lit "to_addresses", JArray [JString (lit "admin@example.com")]);
            (lit "use_tls", JBool true) ]);
        (lit "webhook", JObject
          [ (lit "enabled", JBool false);
            (lit "min_severity", JString medium);
            (lit "url", JString (lit "https://example.com/webhook"));
            (lit "headers", JObject
              [ (lit "Content-Type", JString (lit "application/json"));
                (lit "Authorization",
                 JString (lit "Bearer your_token_here")) ]);
            (lit "method", JString (lit "POST")) ]) ]);
    (lit "alert_templates", JObject
      [ (lit "low", JObject
          [ (lit "subject",
             JString ([20302; 20005; 37325; 24615; 35686; 25253; 58; 32]%N
                      ++ lit "{rule_name}"));
            (lit "body",
             JString ([26816; 27979; 21040; 20302; 20005; 37325; 24615;
                       20107; 20214; 58; 10; 35268; 21017; 58; 32]%N
                      ++ lit "{rule_name}"
                      ++ [10; 25551; 36848; 58; 32]%N ++ lit "{description}"
                      ++ [10; 26102; 38388; 58; 32]%N ++ lit "{timestamp}"
                      ++ [10; 20301; 32622; 58; 32]%N ++ lit "{location}")) ]);
        (lit "medium", JObject
          [ (lit "subject",
             JString ([20013; 20005; 37325; 24615; 35686; 25253; 58; 32]%N
                      ++ lit "{rule_name}"));
            (lit "body",
             JString ([26816; 27979; 21040; 20013; 20005; 37325; 24615;
                       20107; 20214; 58; 10; 35268; 21017; 58; 32]%N
                      ++ lit "{rule_name}"
                      ++ [10; 25551; 36848; 58; 32]%N ++ lit "{description}"
                      ++ [10; 26102; 38388; 58; 32]%N ++ lit "{timestamp}"
                      ++ [10; 20301; 32622; 58; 32]%N ++ lit "{location}"
                      ++ [10; 10; 35831; 21450; 26102; 26597; 30475; 21644;
                          22788; 29702; 12290]%N)) ]);
        (lit "high", JObject
          [ (lit "subject",
             JString ([39640; 20005; 37325; 24615; 35686; 25253; 58; 32]%N
                      ++ lit "{rule_name}"));
            (lit "body",
             JString ([26816; 27979; 21040; 39640; 20005; 37325; 24615;
                       20107; 20214; 58; 10; 35268; 21017; 58; 32]%N
                      ++ lit "{rule_name}"
                      ++ [10; 25551; 36848; 58; 32]%N ++ lit "{description}"
                      ++ [10; 26102; 38388; 58; 32]%N ++ lit "{timestamp}"
                      ++ [10; 20301; 32622; 58; 32]%N ++ lit "{location}"
                      ++ [10; 10; 35831; 31435; 21363; 26597; 30475; 21644;
                          22788; 29702; 65281]%N)) ]) ]) ].

(** The templates [_format_message] falls back on, lines 356-357, and the
    defaults of lines 361-366 (unknown location, unknown rule, no
    description). *)
Definition fallback_subject : pystr :=
  [21578; 35686; 58; 32]%N ++ lit "{rule_name}".
Definition fallback_body : pystr :=
  [26816; 27979; 21040; 21578; 35686; 58; 10; 35268; 21017; 58; 32]%N
  ++ lit "{rule_name}"
  ++ [10; 25551; 36848; 58; 32]%N ++ lit "{description}"
  ++ [10; 26102; 38388; 58; 32]%N ++ lit "{timestamp}".
Definition unknown_location : pystr := [26410; 30693; 20301; 32622]%N.
Definition unknown_rule : pystr := [26410; 30693; 35268; 21017]%N.
Definition no_description : pystr := [26080; 25551; 36848]%N.

(** ** [str.format] with keyword arguments

    The replacement fields [{name}] whose name is an identifier in ASCII,
    and the doubled braces, are worked out here; a template with any other
    field (a conversion, a format specification, an attribute, an index, a
    number, another character in the name) is left to [format_other]. *)

Inductive formatted : Type :=
| Text (s : pystr)
| Raises (e : error)
| Unmodelled.

Definition is_letter (c : N) : bool :=
  ((65 <=? c) && (c <=? 90) || (97 <=? c) && (c <=? 122) || (c =? 95))%N.

Definition is_name_char (c : N) : bool :=
  (is_letter c || (48 <=? c) && (c <=? 57))%N.

(** [s] put before the text formatted, an exception staying as it is. *)
Definition prepend (s : pystr) (f : formatted) : formatted :=
  match f with
  | Text t => Text (s ++ t)
  | _ => f
  end.

Section Format.
Variable B : PyBuiltins.
Variable kwargs : dict.

(** [field]: the characters of the name being read, if the scan is inside a
    replacement field. *)
Fixpoint format_fields (template : pystr) (field : option pystr)
  : formatted :=
  match field with
  | None =>
      match template with
      | [] => Text []
      | 123%N :: 123%N :: rest => prepend [123%N] (format_fields rest None)
      | 123%N :: rest => format_fields rest (Some [])
      | 125%N :: 125%N :: rest => prepend [125%N] (format_fields rest None)
      | 125%N :: _ => Raises (Builtin ValueError)
      | c :: rest => prepend [c] (format_fields rest None)
      end
  | Some name =>
      match template with
      | [] => Unmodelled
      | 125%N :: rest =>
          match name with
          | [] => Unmodelled
          | _ :: _ =>
              match lookup name kwargs with
              | Some v => prepend (py_str B v) (format_fields rest None)
              | None => Raises KeyError
              end
          end
      | c :: rest =>
          if match name with
             | [] => is_letter c
             | _ :: _ => is_name_char c
             end
          then format_fields rest (Some (name ++ [c]))
          else Unmodelled
      end
  end.

End Format.

(** What the methods take from outside the object: the rest of
    [str.format]; the answers of the clock, as [_format_message],
    [_send_file] and [_send_webhook] format them; whether the directory and
    the file of [_send_file] can be made and written; whether the SMTP
    exchange of lines 424-441 goes through; the status the HTTP request
    comes back with, if it does. *)
Record World : Type := mkWorld {
  format_other : pystr -> dict -> error + pystr;
  format_stamp : pystr;
  file_stamp : pystr;
  isoformat_now : pystr;
  file_ok : bool;
  smtp_ok : bool;
  http_status : option Z
}.

(** [template.format(rule_name=..., description=..., timestamp=...,
    location=...)] *)
Definition str_format (B : PyBuiltins) (w : World) (template : json)
           (kwargs : dict) : error + pystr :=
  match template with
  | JString t =>
      match format_fields B kwargs t None with
      | Text s => inr s
      | Raises e => inl e
      | Unmodelled => format_other w t kwargs
      end
  | _ => inl (Builtin AttributeError)
  end.

(** What the senders do to the outside. *)
Inductive effect : Type :=
| Printed (text : pystr)
| Appended (file_path : pystr) (text : pystr)
| Mailed (config : dict) (subject body : pystr)
| Requested (post : bool) (url headers : json) (subject body : pystr)
            (alert : dict) (timestamp : pystr).

(** The object after [__init__]. *)
Record t : Type := mk {
  config : dict;
  enabled : json
}.

(** The level of a severity in [severity_levels.get(..., 0)]: a [list] or a
    [dict] cannot be a key. *)
Definition level_of (v : json) : error + Z :=
  match v with
  | JString s =>
      inr (if PyStr.eqb s low then 1
           else if PyStr.eqb s medium then 2
           else if PyStr.eqb s high then 3 else 0)%Z
  | JArray _ => inl (Builtin TypeError)
  | JObject _ => inl (Builtin TypeError)
  | _ => inr 0%Z
  end.

(** [_check_severity(method_config, alert_data)] *)
Definition _check_severity (method_config alert_data : dict)
  : error + bool :=
  let min_severity :=
    dict_get method_config (lit "min_severity") (JString low) in
  let alert_severity := dict_get alert_data (lit "severity") (JString low) in
  match level_of alert_severity with
  | inl e => inl e
  | inr a =>
      match level_of min_severity with
      | inl e => inl e
      | inr m => inr (m <=? a)%Z
      end
  end.

(** [severity_map.get(severity, "low")] after [.lower()].  Only the
    comparison with the three keys is used, and no character but the key
    itself is lower-cased to it, so that lower-casing ASCII is enough. *)
Definition template_key (severity : pystr) : pystr :=
  let severity := lower severity in
  if PyStr.eqb severity low then lit "low"
  else if PyStr.eqb severity medium then lit "medium"
  else if PyStr.eqb severity high then lit "high"
  else lit "low".

(** [_format_message(alert_data)] *)
Definition _format_message (B : PyBuiltins) (w : World) (self : t)
           (alert_data : dict) : error + (pystr * pystr) :=
  match dict_get alert_data (lit "severity") (JString low) with
  | JString severity =>
      let templates :=
        dict_get (config self) (lit "alert_templates") (JObject []) in
      match get templates (template_key severity) (JObject []) with
      | inl e => inl e
      | inr template =>
          match get template (lit "subject") (JString fallback_subject) with
          | inl e => inl e
          | inr subject_template =>
              match get template (lit "body") (JString fallback_body) with
              | inl e => inl e
              | inr body_template =>
                  let timestamp :=
                    dict_get alert_data (lit "timestamp")
                             (JString (format_stamp w)) in
                  let location :=
                    dict_get alert_data (lit "location")
                             (JString unknown_location) in
                  let kwargs :=
                    [ (lit "rule_name",
                       dict_get alert_data (lit "rule_name")
                                (JString unknown_rule));
                      (lit "description",
                       dict_get alert_data (lit "description")
                                (JString no_description));
                      (lit "timestamp", timestamp);
                      (lit "location", location) ] in
                  match str_format B w subject_template kwargs with
                  | inl e => inl e
                  | inr subject =>
                      match str_format B w body_template kwargs with
                      | inl e => inl e
                      | inr body => inr (subject, body)
                      end
                  end
              end
          end
      end
  | _ => inl (Builtin AttributeError)
  end.

Definition dashes : pystr := repeat 45%N 50.

(** [_send_console]: four calls of [print]. *)
Definition _send_console (w : World) (alert_data : dict)
           (subject body : pystr) (config : dict) : bool * list effect :=
  (true,
   [Printed ([10; 91; 21578; 35686; 93; 32]%N ++ subject ++ [10%N]
             ++ dashes ++ [10%N] ++ body ++ [10%N] ++ dashes ++ [10%N])]).

(** [s.lstrip(c)] and [s.rstrip(c)] for one character. *)
Fixpoint lstrip_char (c : N) (s : pystr) : pystr :=
  match s with
  | [] => []
  | x :: s' => if (x =? c)%N then lstrip_char c s' else s
  end.

Definition rstrip_char (c : N) (s : pystr) : pystr :=
  rev (lstrip_char c (rev s)).

(** [os.path.dirname] of [posixpath]. *)
Definition dirname (p : pystr) : pystr :=
  let i := (rfind 47%N p + 1)%Z in
  let head := slice 0 i p in
  if forallb (N.eqb 47%N) head then head else rstrip_char 47%N head.

(** [_send_file]: the answer is whether the call returned, [false] being an
    exception.  [os.makedirs] of the empty name raises. *)
Definition _send_file (w : World) (alert_data : dict)
           (subject body : pystr) (config : dict) : bool * list effect :=
  match dict_get config (lit "file_path")
                 (JString (lit "alerts/alerts_log.txt")) with
  | JString file_path =>
      match dirname file_path with
      | [] => (false, [])
      | _ :: _ =>
          if file_ok w then
            (true,
             [Appended file_path
                ([10; 91]%N ++ file_stamp w ++ [93; 32]%N ++ subject
                 ++ [10%N] ++ dashes ++ [10%N] ++ body ++ [10%N]
                 ++ dashes ++ [10%N])])
          else (false, [])
      end
  | _ => (false, [])
  end.

(** [_send_email]: an incomplete configuration is logged and the call
    returns. *)
Definition _send_email (w : World) (alert_data : dict)
           (subject body : pystr) (config : dict) : bool * list effect :=
  let smtp_server := dict_get config (lit "smtp_server") JNull in
  let username := dict_get config (lit "username") JNull in
  let password := dict_get config (lit "password") JNull in
  let from_address := dict_get config (lit "from_address") JNull in
  let to_addresses := dict_get config (lit "to_addresses") (JArray []) in
  if negb (forallb truthy
             [smtp_server; username; password; from_address; to_addresses])
  then (true, [])
  else if smtp_ok w then (true, [Mailed config subject body])
  else (false, []).

(** [str.upper], exact on the strings whose upper case is made of the
    letters of ["POST"]; the comparison with ["POST"] is its one use. *)
Definition upper_char (c : N) : pystr :=
  if ((97 <=? c) && (c <=? 122))%N then [(c - 32)%N]
  else if (c =? 223)%N then lit "SS"
  else if (c =? 383)%N then lit "S"
  else if ((c =? 64261) || (c =? 64262))%N then lit "ST"
  else [c].

Definition upper (s : pystr) : pystr := flat_map upper_char s.

(** [_send_webhook]: a status outside 200-299 is logged and the call
    returns. *)
Definition _send_webhook (w : World) (alert_data : dict)
           (subject body : pystr) (config : dict) : bool * list effect :=
  let url := dict_get config (lit "url") JNull in
  let headers := dict_get config (lit "headers") (JObject []) in
  match dict_get config (lit "method") (JString (lit "POST")) with
  | JString method =>
      let method := upper method in
      if negb (truthy url) then (true, [])
      else
        match http_status w with
        | Some status_code =>
            (true,
             [Requested (PyStr.eqb method (lit "POST")) url headers subject
                        body alert_data (isoformat_now w)])
        | None => (false, [])
        end
  | _ => (false, [])
  end.

(** [self.notification_methods] *)
Definition notification_methods (method_name : pystr)
  : option (World -> dict -> pystr -> pystr -> dict -> bool * list effect) :=
  if PyStr.eqb method_name (lit "console") then Some _send_console
  else if PyStr.eqb method_name (lit "file") then Some _send_file
  else if PyStr.eqb method_name (lit "email") then Some _send_email
  else if PyStr.eqb method_name (lit "webhook") then Some _send_webhook
  else None.

(** The [for] loop of [send_alert], lines 321-335. *)
Fixpoint notify (w : World) (alert_data : dict) (subject body : pystr)
         (methods : dict) (success : bool) (done : list effect)
  : (error + bool) * list effect :=
  match methods with
  | [] => (inr success, done)
  | (method_name, JObject method_config) :: rest =>
      if negb (truthy (dict_get method_config (lit "enabled") (JBool false)))
      then notify w alert_data subject body rest success done
      else
        match _check_severity method_config alert_data with
        | inl e => (inl e, done)
        | inr false => notify w alert_data subject body rest success done
        | inr true =>
            match notification_methods method_name with
            | Some send =>
                let (returned, effects) :=
                  send w alert_data subject body method_config in
                notify w alert_data subject body rest
                       (success || returned) (done ++ effects)
            | None => notify w alert_data subject body rest success done
            end
        end
  | (method_name, _) :: rest => (inl (Builtin AttributeError), done)
  end.

(** [send_alert(alert_data)]: what it returns or raises, and what reached
    the outside. *)
Definition send_alert (B : PyBuiltins) (w : World) (self : t)
           (alert_data : dict) : (error + bool) * list effect :=
  if negb (truthy (enabled self)) then (inr false, [])
  else
    match _format_message B w self alert_data with
    | inl e => (inl e, [])
    | inr (subject, body) =>
        match lookup (lit "methods") (config self) with
        | None => (inl KeyError, [])
        | Some (JObject methods) =>
            notify w alert_data subject body (items methods) false []
        | Some _ => (inl (Builtin AttributeError), [])
        end
    end.

(** What [__init__] finds at [config_path]: nothing to load (no path, or no
    file there), or a file, with what [json.load] makes of it ([None]: the
    [open] or the [json.load] raises). *)
Inductive config_file : Type :=
| NoConfigFile
| ConfigFile (loaded : option json).

(** [_load_config()]; [logger] tells whether [self.logger] is assigned. *)
Definition _load_config (logger : bool) (f : config_file) : error + json :=
  match f with
  | ConfigFile (Some v) => inr v
  | ConfigFile None =>
      if logger then inr (JObject default_config)
      else inl (Builtin AttributeError)
  | NoConfigFile => inr (JObject default_config)
  end.

(** [__init__(config_path)]; [makedirs_ok] tells whether the directory of
    the log file can be made.  [_load_config] runs before [self.logger] is
    assigned. *)
Definition __init__ (f : config_file) (makedirs_ok : bool) : error + t :=
  match _load_config false f with
  | inl e => inl e
  | inr (JObject config) =>
      let self := mk config (dict_get config (lit "enabled") (JBool true)) in
      match lookup (lit "methods") config with
      | None => inl KeyError
      | Some methods =>
          match get methods (lit "file") (JObject []) with
          | inl e => inl e
          | inr file_config =>
              match get file_config (lit "enabled") (JBool false) with
              | inl e => inl e
              | inr file_enabled =>
                  if truthy file_enabled then
                    match get file_config (lit "file_path")
                              (JString (lit "alerts/alerts_log.txt")) with
                    | inl e => inl e
                    | inr (JString log_file) =>
                        match dirname log_file with
                        | [] => inl FileNotFoundError
                        | _ :: _ =>
                            if makedirs_ok then inr self else inl OSError
                        end
                    | inr _ => inl (Builtin TypeError)
                    end
                  else inr self
              end
          end
      end
  | inr _ => inl (Builtin AttributeError)
  end.

(** The object [AlertNotifier()] makes, as [SmartMonitor.initialize] calls
    it: no configuration file, the directory of the log file made. *)
Definition default_notifier : t := mk default_config (JBool true).






(** A world for the examples: every exchange goes through, and templates
    outside the fragment worked out above raise [ValueError]. *)
Definition sample_world : World :=
  {| format_other := fun _ _ => inl (Builtin ValueError);
     format_stamp := lit "2024-05-01 12:00:00";
     file_stamp := lit "2024-05-01 12:00:00";
     isoformat_now := lit "2024-05-01T12:00:00.000000";
     file_ok := true;
     smtp_ok := true;
     http_status := Some 200%Z |}.


End AlertNotifier.

(* ================================================================== *)
(** * Facts about the string methods *)
(* ================================================================== *)

Unset Implicit Arguments.

Section StringFacts.

Lemma startswith_app (p s : pystr) :
  startswith p s = true <-> exists post, s = p ++ post.
Proof.
  revert s; induction p as [|a p IH]; intros s; simpl.
  - split; [intros _; now exists s | reflexivity].
  - destruct s as [|b s].
    + split; [discriminate | intros [post H]; discriminate].
    + rewrite andb_true_iff, N.eqb_eq, IH. split.
      * intros [-> [post ->]]. now exists post.
      * intros [post H]. injection H as -> ->. split; [reflexivity | now exists post].
Qed.

(** [needle in hay] holds exactly when [hay] has [needle] as a run of
    consecutive characters. *)
Lemma contains_app (needle hay : pystr) :
  contains needle hay = true <->
  exists pre post, hay = pre ++ needle ++ post.
Proof.
  induction hay as [|c hay IH]; simpl.
  - rewrite orb_false_r, startswith_app. split.
    + intros [post H]. now exists [], post.
    + intros [pre [post H]]. destruct pre; simpl in H.
      * now exists post.
      * discriminate.
  - rewrite orb_true_iff, startswith_app, IH. split.
    + intros [[post H] | [pre [post H]]].
      * now exists [], post.
      * exists (c :: pre), post. simpl. now rewrite H.
    + intros [pre [post H]]. destruct pre as [|x pre]; simpl in H.
      * left. now exists post.
      * right. injection H as _ H. now exists pre, post.
Qed.

Lemma find_spec (c : N) (s : pystr) :
  (-1 <= find c s)%Z /\ (find c s = -1 <-> ~ In c s)%Z.
Proof.
  induction s as [|x s [IHr IH]]; simpl.
  - split; [lia | tauto].
  - destruct (N.eqb_spec x c) as [-> | Hne].
    + split; [lia |]. split; [discriminate | intros H; exfalso; apply H; now left].
    + destruct (find c s) as [|p|p] eqn:E.
      * split; [lia |]. split; [discriminate |].
        intros H. exfalso. apply H. right.
        destruct (in_dec N.eq_dec c s) as [Hin | Hn]; [exact Hin |].
        apply IH in Hn. discriminate.
      * split; [lia |]. split; [lia |].
        intros H. exfalso. apply H. right.
        destruct (in_dec N.eq_dec c s) as [Hin | Hn]; [exact Hin |].
        apply IH in Hn. discriminate.
      * assert (p = 1%positive) by lia. subst p.
        split; [lia |]. split; [| reflexivity].
        intros _ [Hx | Hin]; [now apply Hne |].
        now apply (proj1 IH).
Qed.

Lemma rfind_spec (c : N) (s : pystr) :
  (-1 <= rfind c s)%Z /\ (rfind c s = -1 <-> ~ In c s)%Z.
Proof.
  induction s as [|x s [IHr IH]]; simpl.
  - split; [lia | tauto].
  - destruct (rfind c s) as [|p|p] eqn:E.
    + split; [lia |]. split; [discriminate |].
      intros H. exfalso. apply H. right.
      destruct (in_dec N.eq_dec c s) as [Hin | Hn]; [exact Hin |].
      apply IH in Hn. discriminate.
    + split; [lia |]. split; [lia |].
      intros H. exfalso. apply H. right.
      destruct (in_dec N.eq_dec c s) as [Hin | Hn]; [exact Hin |].
      apply IH in Hn. discriminate.
    + assert (p = 1%positive) by lia. subst p.
      destruct (N.eqb_spec x c) as [-> | Hne].
      * split; [lia |]. split; [discriminate | intros H; exfalso; apply H; now left].
      * split; [lia |]. split; [| reflexivity].
        intros _ [Hx | Hin]; [now apply Hne |].
        now apply (proj1 IH).
Qed.

Lemma In_lstrip (c : N) (s : pystr) :
  isspace c = false -> (In c (lstrip s) <-> In c s).
Proof.
  intros Hc. induction s as [|x s IH]; simpl; [tauto |].
  destruct (isspace x) eqn:Hx; [| simpl; tauto].
  rewrite IH. split; [now right |].
  intros [-> | H]; [congruence | exact H].
Qed.

Lemma In_strip (c : N) (s : pystr) :
  isspace c = false -> (In c (strip s) <-> In c s).
Proof.
  intros Hc. unfold strip, rstrip.
  rewrite <- in_rev, In_lstrip, <- in_rev, In_lstrip by assumption.
  tauto.
Qed.

Lemma endswith_app (p s : pystr) :
  endswith p s = true <-> exists pre, s = pre ++ p.
Proof.
  unfold endswith. rewrite startswith_app. split.
  - intros [post H]. exists (rev post).
    rewrite <- (rev_involutive s), H, rev_app_distr, rev_involutive.
    reflexivity.
  - intros [pre ->]. exists (rev pre). now rewrite rev_app_distr.
Qed.

Lemma drop_last_app (pre p : pystr) :
  drop_last (length p) (pre ++ p) = pre.
Proof.
  unfold drop_last. rewrite length_app.
  replace (length pre + length p - length p)%nat with (length pre + 0)%nat by lia.
  rewrite firstn_app_2. simpl. now rewrite app_nil_r.
Qed.

End StringFacts.

(* ================================================================== *)
(** * Facts about [json.loads]: the fuel is never used up *)
(* ================================================================== *)

Section JsonFacts.

Import Json.

Lemma skip_ws_length (s : pystr) : (length (skip_ws s) <= length s)%nat.
Proof.
  induction s as [| c s IH]; simpl; [lia |].
  destruct (iswhite c); simpl; lia.
Qed.

Lemma span_digits_length (s : pystr) :
  (length (snd (span_digits s)) <= length s)%nat.
Proof.
  induction s as [| c s IH]; simpl; [lia |].
  destruct (isdigit c); simpl; [| lia].
  destruct (span_digits s); simpl in *; lia.
Qed.

Lemma scanstring_length (n : nat) :
  forall s acc v rest,
    (length s <= n)%nat ->
    scanstring s acc = Scan v rest -> (length rest < length s)%nat.
Proof.
  induction n as [| n IH]; intros s acc v rest Hn.
  - destruct s; [discriminate | simpl in Hn; lia].
  - destruct s as [| c s1]; [discriminate |]. simpl in Hn. simpl.
    destruct (c =? 34)%N.
    { intros [= <- <-]. lia. }
    destruct (c =? 92)%N.
    + destruct s1 as [| e s2]; [discriminate |]. simpl in Hn.
      destruct (e =? 117)%N.
      * destruct s2 as [| h1 [| h2 [| h3 [| h4 s3]]]]; try discriminate.
        simpl in Hn.
        destruct (hex4 h1 h2 h3 h4) as [u |]; [| discriminate].
        assert (Hs3 : forall a, scanstring s3 a = Scan v rest ->
                                (length rest < S (S (S (S (S (S (length s3)))))))%nat).
        { intros a H. apply IH in H; lia. }
        destruct (is_high_surrogate u); [| apply Hs3].
        destruct s3 as [| b [| w [| g1 [| g2 [| g3 [| g4 s4]]]]]];
          try apply Hs3.
        destruct ((b =? 92)%N && (w =? 117)%N); [| apply Hs3].
        destruct (hex4 g1 g2 g3 g4) as [u2 |]; [| discriminate].
        destruct (is_low_surrogate u2); [| apply Hs3].
        intros H. apply IH in H; simpl in *; lia.
      * destruct (unescape e); [| discriminate].
        intros H. apply IH in H; simpl in *; lia.
    + destruct (c <=? 31)%N; [discriminate |].
      intros H. apply IH in H; lia.
Qed.

Lemma match_number_length (s : pystr) v rest :
  match_number s = Some (Scan v rest) -> (length rest < length s)%nat.
Proof.
  unfold match_number.
  set (p := match s with
            | c :: r => if (c =? 45)%N then (true, r) else (false, s)
            | [] => (false, s)
            end).
  assert (Hp : (length (snd p) <= length s)%nat).
  { subst p. destruct s as [| c r]; simpl; [lia |].
    destruct (c =? 45)%N; simpl; lia. }
  destruct p as [neg s1]. simpl in Hp.
  unfold int_part.
  destruct s1 as [| c r]; [discriminate |]. simpl in Hp.
  assert (Hint : forall ip s2,
             (length s2 <= length r)%nat ->
             (let '(fp, s3) := frac_part s2 in
              let '(ep, s4) := exp_part s3 in
              match fp, ep with
              | [], None =>
                  if Nat.ltb int_max_str_digits (length ip)
                  then Some (Raise ValueError)
                  else Some (Scan (JInt (if neg then - digits_value ip
                                         else digits_value ip)%Z) s4)
              | _, _ =>
                  let e := match ep with Some e => e | None => 0%Z end in
                  Some (Scan (JFloat (PyFloat.of_decimal neg (digits_value (ip ++ fp))
                                                 (e - Z.of_nat (length fp))))
                             s4)
              end) = Some (Scan v rest) ->
             (length rest < length s)%nat).
  { intros ip s2 H2.
    assert (H3 : (length (snd (frac_part s2)) <= length s2)%nat).
    { unfold frac_part. destruct s2 as [| dot [| d t]]; simpl; try lia.
      destruct ((dot =? 46)%N && isdigit d); simpl; [| lia].
      pose proof (span_digits_length (d :: t)). simpl in *. lia. }
    destruct (frac_part s2) as [fp s3]. simpl in H3.
    assert (H4 : (length (snd (exp_part s3)) <= length s3)%nat).
    { unfold exp_part. destruct s3 as [| e r3]; simpl; [lia |].
      destruct ((e =? 101)%N || (e =? 69)%N); simpl; [| lia].
      set (q := match r3 with
                | sg :: r' =>
                    if (sg =? 45)%N then (true, r')
                    else if (sg =? 43)%N then (false, r') else (false, r3)
                | [] => (false, r3)
                end).
      assert (Hq : (length (snd q) <= length r3)%nat).
      { subst q. destruct r3 as [| sg r']; simpl; [lia |].
        destruct (sg =? 45)%N; simpl; [lia |].
        destruct (sg =? 43)%N; simpl; lia. }
      destruct q as [ng r1]. simpl in Hq.
      pose proof (span_digits_length r1) as Hd.
      destruct (span_digits r1) as [[| d ds] r2]; simpl in *; lia. }
    destruct (exp_part s3) as [ep s4]. simpl in H4.
    destruct fp; destruct ep; try (intros [= <- <-]; lia).
    destruct (Nat.ltb _ _); [discriminate |].
    intros [= <- <-]. lia. }
  destruct ((49 <=? c)%N && (c <=? 57)%N).
  - pose proof (span_digits_length r) as Hd.
    destruct (span_digits r) as [ds r']. simpl in Hd.
    apply Hint. exact Hd.
  - destruct (c =? 48)%N; [| discriminate].
    apply Hint. lia.
Qed.

(** What [_match_number] gives when it gives something: a number and the
    rest, or the [ValueError] of [int] on too many digits. *)
Lemma match_number_cases (s : pystr) (r : scanned json) :
  match_number s = Some r ->
  (exists v rest, r = Scan v rest) \/ r = Raise ValueError.
Proof.
  unfold match_number.
  destruct (match s with
            | c :: r => if (c =? 45)%N then (true, r) else (false, s)
            | [] => (false, s)
            end) as [neg s1].
  destruct (int_part s1) as [[ip s2] |]; [| discriminate].
  destruct (frac_part s2) as [fp s3].
  destruct (exp_part s3) as [ep s4].
  destruct fp; destruct ep; try (intros [= <-]; left; eauto).
  destruct (Nat.ltb _ _); intros [= <-]; [now right | left; eauto].
Qed.

Lemma match_number_raises (s : pystr) (e : exn) :
  match_number s = Some (Raise e) -> e = ValueError.
Proof.
  intros H. apply match_number_cases in H.
  destruct H as [[v [rest H]] | H]; [discriminate | now injection H].
Qed.

(** The bound on the items of an array is enough: each item and its comma
    take two characters at least. *)
Lemma array_items_fuel scan err (Hscan : scans_well scan) :
  forall n s acc,
    (1 <= n)%nat -> (length s <= n)%nat ->
    array_items scan err n s acc <> OutOfFuel /\
    forall v rest, array_items scan err n s acc = Scan v rest ->
                   (length rest < length s)%nat.
Proof.
  induction n as [| n IH]; intros s acc H1 Hs; [lia |].
  simpl. destruct (Hscan s) as [Hne Hlen].
  destruct (scan s) as [v s1 | e | |] eqn:E.
  - specialize (Hlen v s1 eq_refl).
    pose proof (skip_ws_length s1) as Hw.
    destruct (skip_ws s1) as [| c s2] eqn:E1.
    + split; [discriminate | intros; discriminate].
    + simpl in Hw. destruct (c =? 93)%N.
      * split; [discriminate |]. intros v' rest [= <- <-]. lia.
      * destruct (c =? 44)%N.
        -- pose proof (skip_ws_length s2) as Hw2.
           destruct (IH (skip_ws s2) (v :: acc)) as [I1 I2]; try lia.
           split; [exact I1 |]. intros v' rest H. apply I2 in H. lia.
        -- split; [discriminate | intros; discriminate].
  - split; [discriminate | intros; discriminate].
  - split; [discriminate | intros; discriminate].
  - now contradiction Hne.
Qed.

Lemma object_pairs_fuel scan err (Hscan : scans_well scan) :
  forall n s acc,
    (1 <= n)%nat -> (length s <= n)%nat ->
    object_pairs scan err n s acc <> OutOfFuel /\
    forall v rest, object_pairs scan err n s acc = Scan v rest ->
                   (length rest < length s)%nat.
Proof.
  induction n as [| n IH]; intros s acc H1 Hs; [lia |].
  simpl. destruct s as [| q s1].
  { split; [discriminate | intros; discriminate]. }
  simpl in Hs. destruct (q =? 34)%N.
  2: { split; [discriminate | intros; discriminate]. }
  destruct (scanstring s1 []) as [key s2 | e | |] eqn:Ek;
    try (split; [discriminate | intros; discriminate]).
  apply (scanstring_length (length s1)) in Ek; [| lia].
  pose proof (skip_ws_length s2) as Hw2.
  destruct (skip_ws s2) as [| colon s3] eqn:E2.
  { split; [discriminate | intros; discriminate]. }
  simpl in Hw2. destruct (colon =? 58)%N.
  2: { split; [discriminate | intros; discriminate]. }
  pose proof (skip_ws_length s3) as Hw3.
  destruct (Hscan (skip_ws s3)) as [Hne Hlen].
  destruct (scan (skip_ws s3)) as [v s4 | e | |] eqn:E;
    try (split; [discriminate | intros; discriminate]).
  2: now contradiction Hne.
  specialize (Hlen v s4 eq_refl).
  pose proof (skip_ws_length s4) as Hw4.
  destruct (skip_ws s4) as [| c s5] eqn:E4.
  { split; [discriminate | intros; discriminate]. }
  simpl in Hw4. destruct (c =? 125)%N.
  { split; [discriminate |]. intros v' rest [= <- <-]. simpl. lia. }
  destruct (c =? 44)%N.
  2: { split; [discriminate | intros; discriminate]. }
  pose proof (skip_ws_length s5) as Hw5.
  destruct (IH (skip_ws s5) ((key, v) :: acc)) as [I1 I2]; try lia.
  split; [exact I1 |]. intros v' rest H. apply I2 in H. simpl. lia.
Qed.

(** The scanner never runs out of the fuel it gives itself, whatever the
    depth and the text, and it consumes something of every text it scans a
    value from. *)
Lemma scan_once_fuel (depth : nat) : scans_well (scan_once depth).
Proof.
  induction depth as [| d IH]; intros s; destruct s as [| c r];
    try (simpl; split; [discriminate | intros; discriminate]).
  all: cbn [scan_once].
  all: destruct (c =? 34)%N;
    [ destruct (scanstring r []) as [str r' | e | |] eqn:E;
      try (split; [discriminate | intros; discriminate]);
      apply (scanstring_length (length r)) in E; [| lia];
      split; [discriminate |]; intros v rest [= <- <-]; simpl; lia |].
  all: destruct (c =? 123)%N;
    [ try (split; [discriminate | intros; discriminate]) |].
  all: try match goal with
    | |- context [(?x =? 91)%N] =>
        destruct (x =? 91)%N;
        [ try (split; [discriminate | intros; discriminate]) |]
    end.
  all: try match goal with
    | |- context [startswith] =>
        assert (Hk : forall k (v0 v : json) rest,
                   Scan v0 (skipn (S k) (c :: r)) = Scan v rest ->
                   (length rest < length (c :: r))%nat)
          by (intros k v0 v rest [= <- <-]; rewrite length_skipn; simpl; lia);
        repeat match goal with
               | |- context [if startswith ?p ?t then _ else _] =>
                   destruct (startswith p t);
                   [split; [discriminate | apply Hk] |]
               end;
        destruct (match_number (c :: r)) as [res |] eqn:E;
        [ destruct (match_number_cases _ _ E) as [[v0 [r0 ->]] | ->];
          [ apply match_number_length in E;
            split; [discriminate |]; now intros v rest [= <- <-]
          | split; [discriminate | intros; discriminate] ]
        | split; [discriminate | intros; discriminate] ]
    end.
  - pose proof (skip_ws_length r) as Hw.
    destruct (skip_ws r) as [| c' r'] eqn:E.
    + split; [discriminate | intros; discriminate].
    + destruct (c' =? 125)%N.
      * split; [discriminate |]. intros v rest [= <- <-]. simpl in *. lia.
      * destruct r as [| x r0]; [discriminate |].
        destruct (object_pairs_fuel (scan_once d) (errmsg d) IH
                    (length (x :: r0)) (c' :: r') [])
          as [I1 I2]; try (simpl in *; lia).
        split; [exact I1 |]. intros v rest H. apply I2 in H. simpl in *. lia.
  - pose proof (skip_ws_length r) as Hw.
    destruct (skip_ws r) as [| c' r'] eqn:E.
    + split; [discriminate | intros; discriminate].
    + destruct (c' =? 93)%N.
      * split; [discriminate |]. intros v rest [= <- <-]. simpl in *. lia.
      * destruct r as [| x r0]; [discriminate |].
        destruct (array_items_fuel (scan_once d) (errmsg d) IH
                    (length (x :: r0)) (c' :: r') [])
          as [I1 I2]; try (simpl in *; lia).
        split; [exact I1 |]. intros v rest H. apply I2 in H. simpl in *. lia.
Qed.

(** What follows an opening brace is scanned to an object or not at all. *)
Lemma object_pairs_object scan err :
  forall n s acc v rest,
    object_pairs scan err n s acc = Scan v rest -> exists d, v = JObject d.
Proof.
  induction n as [| n IH]; intros s acc v rest; [discriminate |].
  simpl. destruct s as [| q s1]; [discriminate |].
  destruct (q =? 34)%N; [| discriminate].
  destruct (scanstring s1 []) as [key s2 | e | |]; try discriminate.
  destruct (skip_ws s2) as [| colon s3]; [discriminate |].
  destruct (colon =? 58)%N; [| discriminate].
  destruct (scan (skip_ws s3)) as [v0 s4 | e | |]; try discriminate.
  destruct (skip_ws s4) as [| c s5]; [discriminate |].
  destruct (c =? 125)%N; [intros [= <- <-]; eauto |].
  destruct (c =? 44)%N; [apply IH | discriminate].
Qed.

Lemma loads_brace (depth : nat) (r : pystr) (v : json) :
  loads depth (123%N :: r) = inr v -> exists d, v = JObject d.
Proof.
  unfold loads. cbn [startswith N.eqb Pos.eqb skip_ws iswhite orb].
  destruct depth as [| depth']; cbn [scan_once N.eqb Pos.eqb];
    [discriminate |].
  destruct (skip_ws r) as [| c' r'] eqn:E; [discriminate |].
  destruct (c' =? 125)%N.
  - destruct (skip_ws r'); [intros [= <-]; eauto | discriminate].
  - destruct (object_pairs _ _ _ _ _) as [v0 rest | e | |] eqn:O;
      try discriminate.
    apply object_pairs_object in O.
    destruct (skip_ws rest); [intros [= <-]; exact O | discriminate].
Qed.

(** One bracket more than the interpreter allows, and the scanner raises
    [RecursionError] whatever follows. *)
Lemma scan_once_too_deep (depth : nat) (rest : pystr) :
  scan_once depth (repeat 91%N (S depth) ++ rest) = Raise RecursionError.
Proof.
  induction depth as [| d IH]; [reflexivity |].
  change (repeat 91%N (S (S d)) ++ rest)
    with (91%N :: (repeat 91%N (S d) ++ rest)).
  cbn [scan_once N.eqb Pos.eqb].
  change (repeat 91%N (S d) ++ rest)
    with (91%N :: (repeat 91%N d ++ rest)) at 1 2 3.
  cbn [skip_ws iswhite N.eqb Pos.eqb orb length array_items].
  change (91%N :: (repeat 91%N d ++ rest))
    with (repeat 91%N (S d) ++ rest).
  now rewrite IH.
Qed.

Lemma loads_too_deep (depth : nat) (rest : pystr) :
  loads depth (repeat 91%N (S depth) ++ rest) = inl RecursionError.
Proof.
  unfold loads.
  change (repeat 91%N (S depth) ++ rest)
    with (91%N :: (repeat 91%N depth ++ rest)).
  cbn [startswith N.eqb Pos.eqb skip_ws iswhite orb].
  change (91%N :: (repeat 91%N depth ++ rest))
    with (repeat 91%N (S depth) ++ rest).
  now rewrite scan_once_too_deep.
Qed.

(** No text is decoded when the scanner is left no depth at all for an
    array or an object. *)
Lemma loads_empty (depth : nat) : exists e, loads depth [] = inl e.
Proof. unfold loads. destruct depth; simpl; eauto. Qed.

End JsonFacts.

(* ================================================================== *)
(** * Facts about response normalization *)
(* ================================================================== *)

Section ResponseFacts.

Import PyFloat Json Builtins Response.

(** A character that is neither white space nor part of a code fence
    survives the cleaning of lines 152-161. *)
Lemma In_clean (c : N) (s : pystr) :
  isspace c = false -> ~ In c fence_json ->
  (In c (clean s) <-> In c s).
Proof.
  intros Hc Hf.
  assert (Hf3 : ~ In c fence).
  { intros H. apply Hf. unfold fence, fence_json, lit in *. simpl in *. tauto. }
  unfold clean.
  rewrite In_strip by assumption.
  set (s1 := strip s).
  assert (H1 : In c s1 <-> In c s) by (apply In_strip; assumption).
  set (s2 := if startswith fence_json s1 then drop 7 s1
             else if startswith fence s1 then drop 3 s1 else s1).
  assert (H2 : In c s2 <-> In c s1).
  { subst s2. destruct (startswith fence_json s1) eqn:E1.
    - apply startswith_app in E1. destruct E1 as [post E1]. rewrite E1.
      change (drop 7 (fence_json ++ post)) with post.
      rewrite in_app_iff. tauto.
    - destruct (startswith fence s1) eqn:E2; [| tauto].
      apply startswith_app in E2. destruct E2 as [post E2]. rewrite E2.
      change (drop 3 (fence ++ post)) with post.
      rewrite in_app_iff. tauto. }
  destruct (endswith fence s2) eqn:E3.
  - apply endswith_app in E3. destruct E3 as [pre E3].
    rewrite E3 in *. change 3%nat with (length fence).
    rewrite drop_last_app. rewrite in_app_iff in H2. tauto.
  - tauto.
Qed.

(** The guard [json_start != -1 and json_end > 0] asks for an opening and a
    closing brace somewhere in the text, in any order. *)
Lemma json_found_iff (text : pystr) :
  json_found text = true <-> In lbrace text /\ In rbrace text.
Proof.
  unfold json_found, json_start, json_end.
  rewrite andb_true_iff, negb_true_iff, Z.eqb_neq, Z.gtb_gt.
  rewrite <- (In_clean lbrace text), <- (In_clean rbrace text);
    try reflexivity;
    try (unfold fence_json, lit; simpl; intuition discriminate).
  destruct (find_spec lbrace (clean text)) as [_ Hf].
  destruct (rfind_spec rbrace (clean text)) as [Hr Hf'].
  split.
  - intros [H1 H2]. split.
    + destruct (in_dec N.eq_dec lbrace (clean text)); [assumption |].
      exfalso. apply H1. now apply Hf.
    + destruct (in_dec N.eq_dec rbrace (clean text)); [assumption |].
      exfalso. apply Hf' in n. lia.
  - intros [H1 H2]. split.
    + intros E. apply Hf in E. contradiction.
    + assert (rfind rbrace (clean text) <> -1)%Z
        by (intros E; apply Hf' in E; contradiction).
      lia.
Qed.

Lemma json_found_false_iff (text : pystr) :
  json_found text = false <-> ~ In lbrace text \/ ~ In rbrace text.
Proof.
  split.
  - intros H.
    destruct (in_dec N.eq_dec lbrace text); [| now left].
    destruct (in_dec N.eq_dec rbrace text); [| now right].
    assert (json_found text = true) by (apply json_found_iff; tauto).
    congruence.
  - intros H. destruct (json_found text) eqn:E; [| reflexivity].
    apply json_found_iff in E. tauto.
Qed.

(** The keyword scan answers yes exactly when the text in lower case has
    one of the four keywords as a substring. *)
Lemma any_keyword_iff (text : pystr) :
  any_keyword text = true <->
  exists keyword pre post,
    In keyword keywords /\ lower text = pre ++ keyword ++ post.
Proof.
  unfold any_keyword. rewrite existsb_exists. split.
  - intros [k [Hin H]]. apply contains_app in H.
    destruct H as [pre [post H]]. now exists k, pre, post.
  - intros [k [pre [post [Hin H]]]]. exists k. split; [assumption |].
    apply contains_app. now exists pre, post.
Qed.

(** The clamp lands between 0.0 and 1.0 whatever its argument, the
    not-a-number included. *)
Lemma clamp_range (x : float) :
  leb zero (clamp x) = true /\ leb (clamp x) one = true.
Proof.
  unfold clamp, py_max, py_min.
  destruct (ltb x one) eqn:E1.
  - destruct (ltb zero x) eqn:E2.
    + unfold ltb, leb, SFltb, SFleb in *.
      destruct (SFcompare zero x) as [[]|]; try discriminate.
      destruct (SFcompare x one) as [[]|]; try discriminate.
      split; reflexivity.
    + split; reflexivity.
  - split; reflexivity.
Qed.

(** The result when no brace pair is found. *)
Lemma parse_no_json (B : PyBuiltins) (text : pystr) :
  json_found text = false ->
  _parse_response B text =
  ({| raw_response := text; is_danger := any_keyword text;
      alert_type := Some []; alert_message := Some [];
      reasoning := text; confidence := half |}, []).
Proof.
  intros H. unfold _parse_response, try_block. rewrite H.
  unfold bind, assign, ret, initial_result, set_reasoning, set_is_danger.
  simpl. destruct (any_keyword text); reflexivity.
Qed.

(** The text handed to [json.loads] is empty or starts at the first opening
    brace. *)
Lemma skipn_find (c : N) (s : pystr) :
  (0 <= find c s)%Z -> exists r, skipn (Z.to_nat (find c s)) s = c :: r.
Proof.
  induction s as [| x s IH]; cbn [find]; [lia |].
  destruct (N.eqb_spec x c) as [-> | Hx].
  - intros _. simpl. eauto.
  - destruct (find c s) as [| p | p] eqn:E; try lia.
    + intros _. destruct IH as [r IH]; [lia |]. simpl in IH.
      exists r. simpl. exact IH.
    + intros _. destruct IH as [r IH]; [lia |].
      exists r.
      replace (Z.to_nat (Z.pos p + 1)) with (S (Z.to_nat (Z.pos p))) by lia.
      exact IH.
Qed.

Lemma json_str_shape (text : pystr) :
  json_found text = true ->
  json_str text = [] \/ exists r, json_str text = lbrace :: r.
Proof.
  unfold json_found, json_str, json_start, slice.
  rewrite andb_true_iff, negb_true_iff, Z.eqb_neq. intros [H _].
  destruct (find_spec lbrace (clean text)) as [Hf _].
  destruct (skipn_find lbrace (clean text)) as [r ->]; [lia |].
  destruct (Z.to_nat _); simpl; eauto.
Qed.

(** So what [json.loads] decodes there is an object: the later
    [json_data.get] cannot fail for want of the method. *)
Lemma loads_json_str (depth : nat) (text : pystr) (v : json) :
  json_found text = true ->
  loads depth (json_str text) = inr v -> exists d, v = JObject d.
Proof.
  intros H. destruct (json_str_shape text H) as [-> | [r ->]].
  - destruct (loads_empty depth) as [e ->]. discriminate.
  - apply loads_brace.
Qed.

(** The result when [json.loads] raises. *)
Lemma parse_loads_raises (B : PyBuiltins) (text : pystr) (e : exn) :
  json_found text = true ->
  loads (recursion_depth B) (json_str text) = inl e ->
  _parse_response B text =
  ({| raw_response := text; is_danger := false;
      alert_type := Some []; alert_message := Some [];
      reasoning := text; confidence := half |},
   [Log WARNING (if is_JSONDecodeError e then MsgJsonFailed
                 else MsgParseFailed)]).
Proof.
  intros H1 H2. unfold _parse_response, try_block. rewrite H1.
  unfold bind, eval. rewrite H2. reflexivity.
Qed.

(** The result when the text between the braces is an object and its
    confidence converts to the float [x]. *)
Lemma parse_object_ok (B : PyBuiltins) (text : pystr)
      (d : list (pystr * json)) (x : float) :
  json_found text = true ->
  loads (recursion_depth B) (json_str text) = inr (JObject d) ->
  py_float B (dict_get d (lit "confidence") (JFloat half)) = inr x ->
  _parse_response B text =
  ({| raw_response := text;
      is_danger := truthy (dict_get d (lit "is_danger") (JBool false));
      alert_type := Some (py_str B (dict_get d (lit "alert_type") (JString [])));
      alert_message :=
        Some (py_str B (dict_get d (lit "alert_message") (JString [])));
      reasoning := py_str B (dict_get d (lit "reasoning") (JString []));
      confidence := clamp x |}, []).
Proof.
  intros H1 H2 H3. unfold _parse_response, try_block. rewrite H1.
  unfold bind, eval. rewrite H2. unfold py_get. rewrite H3. reflexivity.
Qed.

(** The result when the text between the braces is an object and the
    conversion of its confidence raises [e]. *)
Lemma parse_object_bad_confidence (B : PyBuiltins) (text : pystr)
      (d : list (pystr * json)) (e : exn) :
  json_found text = true ->
  loads (recursion_depth B) (json_str text) = inr (JObject d) ->
  py_float B (dict_get d (lit "confidence") (JFloat half)) = inl e ->
  _parse_response B text =
  ({| raw_response := text;
      is_danger := truthy (dict_get d (lit "is_danger") (JBool false));
      alert_type := Some (py_str B (dict_get d (lit "alert_type") (JString [])));
      alert_message :=
        Some (py_str B (dict_get d (lit "alert_message") (JString [])));
      reasoning := text;
      confidence := half |},
   [Log WARNING (if is_JSONDecodeError e then MsgJsonFailed
                 else MsgParseFailed)]).
Proof.
  intros H1 H2 H3. unfold _parse_response, try_block. rewrite H1.
  unfold bind, eval. rewrite H2. unfold py_get. rewrite H3. reflexivity.
Qed.

End ResponseFacts.

(* ================================================================== *)
(** * Response normalization: the claims *)
(* ================================================================== *)

Section ResponseClaims.

Import PyFloat Json Builtins Response.

(** Every exception of the [try] block leaves the confidence at its
    default and is answered by a dictionary whose reasoning is the raw
    text. *)
Lemma parse_raises (B : PyBuiltins) (text : pystr) (e : exn) :
  fst (try_block B text (initial_result text)) = inl e ->
  exists r,
    _parse_response B text =
      (r, [Log WARNING (if is_JSONDecodeError e then MsgJsonFailed
                        else MsgParseFailed)]) /\
    raw_response r = text /\ reasoning r = text /\ confidence r = half.
Proof.
  unfold _parse_response, try_block.
  destruct (json_found text).
  - unfold bind, eval.
    destruct (loads (recursion_depth B) (json_str text)) as [e0 | v]; simpl.
    + intros [= ->]. eexists; repeat split.
    + destruct v; simpl; try (intros [= <-]; eexists; repeat split).
      destruct (py_float B _) as [e1 | x]; simpl.
      * intros [= ->]. eexists; repeat split.
      * discriminate.
  - unfold bind, assign, ret. simpl.
    destruct (any_keyword text); discriminate.
Qed.

(** The confidence of every returned dictionary lies between 0.0 and
    1.0. *)
Lemma parse_confidence_range (B : PyBuiltins) (text : pystr) :
  let r := fst (_parse_response B text) in
  leb zero (confidence r) = true /\ leb (confidence r) one = true.
Proof.
  unfold _parse_response, try_block.
  destruct (json_found text).
  - unfold bind, eval.
    destruct (loads (recursion_depth B) (json_str text)) as [e0 | v]; simpl.
    + split; reflexivity.
    + destruct v; simpl; try (split; reflexivity).
      destruct (py_float B _) as [e1 | x]; simpl.
      * split; reflexivity.
      * apply clamp_range.
  - unfold bind, assign, ret. simpl.
    destruct (any_keyword text); split; reflexivity.
Qed.

(** C3, the claim as written fails: on the text [{danger}] both braces are
    there, [json.loads] raises, the keyword occurs, and [is_danger] stays
    false. *)
Lemma C3_parse_failure_skips_keyword_scan :
  let text := lit "{danger}" in
  json_found text = true /\
  loads (recursion_depth sample_builtins) (json_str text)
  = inl JSONDecodeError /\
  any_keyword text = true /\
  is_danger (fst (_parse_response sample_builtins text)) = false.
Proof. vm_compute. repeat split. Qed.

(** C3, amended: when a brace is missing the keyword scan of the raw text
    sets [is_danger] (true exactly when the text in lower case contains one
    of the keywords), when both braces are there and [json.loads] raises
    [is_danger] stays false without a scan, and in both cases the reasoning
    is the raw text. *)
Theorem C3_fallback_on_raw_text (B : PyBuiltins) (text : pystr) :
  json_found text = false \/
  (json_found text = true /\
   exists e, loads (recursion_depth B) (json_str text) = inl e) ->
  let r := fst (_parse_response B text) in
  reasoning r = text /\
  is_danger r = negb (json_found text) && any_keyword text /\
  (json_found text = false <-> ~ In lbrace text \/ ~ In rbrace text) /\
  (any_keyword text = true <->
   exists keyword pre post,
     In keyword keywords /\ lower text = pre ++ keyword ++ post).
Proof.
  intros H r. subst r.
  split; [| split; [| split; [apply json_found_false_iff
                              | apply any_keyword_iff]]].
  - destruct H as [H | [H [e He]]].
    + now rewrite parse_no_json.
    + now rewrite (parse_loads_raises B text e H He).
  - destruct H as [H | [H [e He]]].
    + rewrite parse_no_json by assumption. now rewrite H.
    + rewrite (parse_loads_raises B text e H He). now rewrite H.
Qed.

Lemma C3_fallback_on_raw_text_witness :
  let text := lit "no json here but DANGER detected" in
  reasoning (fst (_parse_response sample_builtins text)) = text /\
  is_danger (fst (_parse_response sample_builtins text)) = true.
Proof.
  intros text.
  destruct (C3_fallback_on_raw_text sample_builtins text
              (or_introl eq_refl)) as [H1 [H2 _]].
  exact (conj H1 H2).
Defined.

(** C7: on a text whose braces hold a JSON object with a confidence that
    converts to a float, the confidence is clamped into [0,1], a key that is
    absent takes its default (false, 0.5, the empty string); the confidence
    of every result lies in [0,1]; and the text
    [{"is_danger":true,"confidence":1.5,"reasoning":"x"}] gives confidence
    1.0 and is_danger true, the interpreter leaving [json.loads] the one
    level of nesting that the object takes. *)
Theorem C7_well_formed_json (B : PyBuiltins) :
  (forall text d x,
      json_found text = true ->
      loads (recursion_depth B) (json_str text) = inr (JObject d) ->
      py_float B (dict_get d (lit "confidence") (JFloat half)) = inr x ->
      let r := fst (_parse_response B text) in
      confidence r = clamp x /\
      leb zero (confidence r) = true /\ leb (confidence r) one = true /\
      is_danger r = match lookup (lit "is_danger") d with
                    | Some v => truthy v
                    | None => false
                    end /\
      alert_type r = Some match lookup (lit "alert_type") d with
                          | Some v => py_str B v
                          | None => []
                          end /\
      alert_message r = Some match lookup (lit "alert_message") d with
                             | Some v => py_str B v
                             | None => []
                             end /\
      reasoning r = match lookup (lit "reasoning") d with
                    | Some v => py_str B v
                    | None => []
                    end /\
      (lookup (lit "confidence") d = None -> confidence r = half)) /\
  (forall text,
      let r := fst (_parse_response B text) in
      leb zero (confidence r) = true /\ leb (confidence r) one = true) /\
  ((1 <= recursion_depth B)%nat ->
   let r := fst (_parse_response B example_text) in
   confidence r = one /\ is_danger r = true).
Proof.
  split; [| split; [exact (parse_confidence_range B) |]].
  - intros text d x H1 H2 H3 r. subst r.
    rewrite (parse_object_ok B text d x H1 H2 H3). cbn [fst confidence
      is_danger alert_type alert_message reasoning].
    unfold dict_get in *.
    repeat split; try apply clamp_range;
      try (match goal with
           | |- context [lookup ?k d] => destruct (lookup k d); reflexivity
           end).
    intros Hn. rewrite Hn in H3. injection H3 as <-. reflexivity.
  - intros Hd.
    rewrite (parse_object_ok B example_text
               [(lit "is_danger", JBool true);
                (lit "confidence", JFloat (of_decimal false 15 (-1)));
                (lit "reasoning", JString (lit "x"))]
               (of_decimal false 15 (-1))).
    + split; reflexivity.
    + vm_compute; reflexivity.
    + destruct (recursion_depth B) as [| depth]; [lia |].
      destruct depth; vm_compute; reflexivity.
    + reflexivity.
Qed.

Lemma C7_well_formed_json_witness :
  let r := fst (_parse_response sample_builtins example_text) in
  confidence r = one /\ leb zero (confidence r) = true /\
  leb (confidence r) one = true /\ alert_type r = Some [] /\
  is_danger r = true.
Proof.
  intros r.
  destruct (proj1 (C7_well_formed_json sample_builtins) example_text
              [(lit "is_danger", JBool true);
               (lit "confidence", JFloat (of_decimal false 15 (-1)));
               (lit "reasoning", JString (lit "x"))]
              (of_decimal false 15 (-1))
              eq_refl eq_refl eq_refl)
    as [H1 [H2 [H3 [_ [H5 _]]]]].
  destruct (proj2 (proj2 (C7_well_formed_json sample_builtins)))
    as [_ H6]; [vm_compute; lia |].
  exact (conj H1 (conj H2 (conj H3 (conj H5 H6)))).
Defined.

(** C8, the claim as written fails: on this text the conversion of the
    confidence raises [TypeError] after [is_danger] was set to true, so the
    dictionary returned is not the safe default, and its reasoning is the
    raw text, not the error. *)
Lemma C8_error_keeps_extracted_fields :
  let text := jq "{'is_danger': true, 'confidence': null}" in
  fst (try_block sample_builtins text (initial_result text)) = inl TypeError /\
  is_danger (fst (_parse_response sample_builtins text)) = true /\
  reasoning (fst (_parse_response sample_builtins text)) = text.
Proof. vm_compute. repeat split. Qed.

(** C8, amended: whatever the text, [_parse_response] returns a dictionary,
    in one of four ways, and every exception of its [try] block is caught.
    With a brace missing, no exception: the raw text is the reasoning and the
    keyword scan gives [is_danger].  With both braces, [json.loads] raises:
    the warning is logged, the reasoning is the raw text, and all the other
    fields are at their defaults.  Or [json.loads] gives an object and
    [float] raises on its confidence: the warning is logged, the reasoning
    is the raw text, the confidence stays 0.5, and [is_danger], [alert_type]
    and [alert_message] are kept as assigned from the object.  Or nothing
    raises and the five fields are those of the object.  The [try] block
    raises nothing else: what [json.loads] decodes between the braces is an
    object. *)
Theorem C8_parse_response_never_raises (B : PyBuiltins) (text : pystr) :
  let out := _parse_response B text in
  let tried := fst (try_block B text (initial_result text)) in
  let warning e :=
    Log WARNING (if is_JSONDecodeError e then MsgJsonFailed
                 else MsgParseFailed) in
  (json_found text = false /\ tried = inr tt /\
   out = ({| raw_response := text;
             is_danger := any_keyword text;
             alert_type := Some [];
             alert_message := Some [];
             reasoning := text;
             confidence := half |}, []))
  \/
  (json_found text = true /\
   ((exists e,
        loads (recursion_depth B) (json_str text) = inl e /\
        tried = inl e /\
        out = ({| raw_response := text;
                  is_danger := false;
                  alert_type := Some [];
                  alert_message := Some [];
                  reasoning := text;
                  confidence := half |}, [warning e]))
    \/
    (exists d e,
        loads (recursion_depth B) (json_str text) = inr (JObject d) /\
        py_float B (dict_get d (lit "confidence") (JFloat half)) = inl e /\
        tried = inl e /\
        out = ({| raw_response := text;
                  is_danger :=
                    truthy (dict_get d (lit "is_danger") (JBool false));
                  alert_type :=
                    Some (py_str B (dict_get d (lit "alert_type")
                                             (JString [])));
                  alert_message :=
                    Some (py_str B (dict_get d (lit "alert_message")
                                             (JString [])));
                  reasoning := text;
                  confidence := half |}, [warning e]))
    \/
    (exists d x,
        loads (recursion_depth B) (json_str text) = inr (JObject d) /\
        py_float B (dict_get d (lit "confidence") (JFloat half)) = inr x /\
        tried = inr tt /\
        out = ({| raw_response := text;
                  is_danger :=
                    truthy (dict_get d (lit "is_danger") (JBool false));
                  alert_type :=
                    Some (py_str B (dict_get d (lit "alert_type")
                                             (JString [])));
                  alert_message :=
                    Some (py_str B (dict_get d (lit "alert_message")
                                             (JString [])));
                  reasoning :=
                    py_str B (dict_get d (lit "reasoning") (JString []));
                  confidence := clamp x |}, [])))).
Proof.
  intros out tried warning. subst out tried warning.
  destruct (json_found text) eqn:Hf.
  - right. split; [reflexivity |].
    destruct (loads (recursion_depth B) (json_str text)) as [e | v] eqn:L.
    + left. exists e. split; [reflexivity |]. split.
      * unfold try_block. rewrite Hf. unfold bind, eval. now rewrite L.
      * now apply parse_loads_raises.
    + right. destruct (loads_json_str _ _ _ Hf L) as [d ->].
      destruct (py_float B (dict_get d (lit "confidence") (JFloat half)))
        as [e | x] eqn:F.
      * left. exists d, e. split; [reflexivity |]. split; [exact F |]. split.
        -- unfold try_block. rewrite Hf. unfold bind, eval. rewrite L.
           unfold py_get. rewrite F. reflexivity.
        -- now apply parse_object_bad_confidence.
      * right. exists d, x. split; [reflexivity |]. split; [exact F |]. split.
        -- unfold try_block. rewrite Hf. unfold bind, eval. rewrite L.
           unfold py_get. rewrite F. reflexivity.
        -- now apply parse_object_ok.
  - left. split; [reflexivity |]. split.
    + unfold try_block. rewrite Hf. unfold bind, assign, ret. simpl.
      now destruct (any_keyword text).
    + now apply parse_no_json.
Qed.

Lemma C8_parse_response_never_raises_witness :
  let text := jq "{'is_danger': true, 'confidence': null}" in
  let r := fst (_parse_response sample_builtins text) in
  is_danger r = true /\ alert_type r = Some [] /\
  alert_message r = Some [] /\ reasoning r = text /\ confidence r = half.
Proof.
  intros text r.
  destruct (C8_parse_response_never_raises sample_builtins text)
    as [[F _] | [_ [[e [L _]] | [[d [e [L [_ [_ E]]]]] | [d [x [L [F _]]]]]]]].
  - discriminate F.
  - discriminate L.
  - injection L as <-. subst r. rewrite E. repeat split.
  - injection L as <-. discriminate F.
Defined.

(** The same on a nesting deeper than the interpreter allows: 1200 arrays
    inside one another in an object that is well formed otherwise.
    [json.loads] raises [RecursionError], caught by [except Exception]; the
    dictionary is the initial one with the raw text as reasoning. *)
Lemma parse_nested_too_deep :
  let text := jq "{'is_danger': true, 'confidence': 0.9, 'x': "
              ++ repeat 91%N 1200 ++ repeat 93%N 1200 ++ lit "}" in
  json_found text = true /\
  loads (recursion_depth sample_builtins) (json_str text)
  = inl RecursionError /\
  _parse_response sample_builtins text =
  ({| raw_response := text;
      is_danger := false;
      alert_type := Some [];
      alert_message := Some [];
      reasoning := text;
      confidence := half |}, [Log WARNING MsgParseFailed]).
Proof. vm_compute. repeat split. Qed.

(** C10: when the text between the braces parses to an object and the
    conversion of its confidence to a float raises, the dictionary returned
    keeps the [is_danger], [alert_type] and [alert_message] taken from the
    object, has the confidence 0.5 and the whole raw text as reasoning; no
    exception leaves the method. *)
Theorem C10_confidence_not_convertible
        (B : PyBuiltins) (text : pystr) (d : list (pystr * json)) (e : exn) :
  json_found text = true ->
  loads (recursion_depth B) (json_str text) = inr (JObject d) ->
  py_float B (dict_get d (lit "confidence") (JFloat half)) = inl e ->
  exists r warnings,
    _parse_response B text = (r, warnings) /\
    is_danger r = truthy (dict_get d (lit "is_danger") (JBool false)) /\
    alert_type r =
      Some (py_str B (dict_get d (lit "alert_type") (JString []))) /\
    alert_message r =
      Some (py_str B (dict_get d (lit "alert_message") (JString []))) /\
    confidence r = half /\
    reasoning r = text /\
    raw_response r = text.
Proof.
  intros H1 H2 H3.
  rewrite (parse_object_bad_confidence B text d e H1 H2 H3).
  eexists. eexists. repeat split.
Qed.

Lemma C10_confidence_not_convertible_witness :
  let text :=
    jq "{'is_danger': true, 'alert_type': 'fall', 'reasoning': 'r', 'confidence': null}" in
  let r := fst (_parse_response sample_builtins text) in
  is_danger r = true /\ alert_type r = Some (lit "fall") /\
  confidence r = half /\ reasoning r = text.
Proof.
  intros text r.
  destruct (C10_confidence_not_convertible sample_builtins text
              [(lit "is_danger", JBool true);
               (lit "alert_type", JString (lit "fall"));
               (lit "reasoning", JString (lit "r"));
               (lit "confidence", JNull)]
              TypeError eq_refl eq_refl eq_refl)
    as [r' [w [E [H1 [H2 [_ [H4 [H5 _]]]]]]]].
  subst r. rewrite E. cbn [fst].
  exact (conj H1 (conj H2 (conj H4 H5))).
Defined.

End ResponseClaims.

(* ================================================================== *)
(** * The capture queue *)
(* ================================================================== *)

Section CaptureQueue.

Import VideoPipeline.

Variable Frame : Type.

Lemma capture_inv_init : capture_inv (init Frame).
Proof. unfold capture_inv, init; simpl. repeat split; lia. Qed.

Lemma full_iff (q : Queue.t Frame) :
  Queue.maxsize q = 2%Z ->
  Queue.full q = true <-> (2 <= length (Queue.items q))%nat.
Proof.
  intros Hm. unfold Queue.full, Queue.qsize. rewrite Hm.
  rewrite andb_true_iff, Z.ltb_lt, Z.leb_le. lia.
Qed.

Lemma capture_inv_step (s : state Frame) (e : event Frame) :
  capture_inv s -> capture_inv (step s e).
Proof.
  destruct s as [[m items] c]. unfold capture_inv. simpl.
  intros [Hm [Hlen Hc]]. subst m.
  destruct e as [frame | | ]; destruct c as [| f | f]; simpl;
    try (repeat split; assumption || lia).
  - destruct (Queue.full (Queue.mk 2 items)) eqn:E; simpl;
      repeat split; try assumption.
    assert (H : ~ (2 <= length items)%nat).
    { intros H. apply (full_iff (Queue.mk 2 items) eq_refl) in H. congruence. }
    lia.
  - unfold Queue.get_nowait; simpl. destruct items as [| x rest]; simpl in *;
      repeat split; lia.
  - unfold Queue.put_nowait, Queue.put.
    destruct (Queue.full (Queue.mk 2 items)); simpl;
      repeat split; try lia.
    rewrite length_app; simpl; lia.
  - unfold read_frame, Queue.get_nowait; simpl.
    destruct items as [| x rest]; simpl in *; repeat split; lia.
  - unfold read_frame, Queue.get_nowait; simpl.
    destruct items as [| x rest]; simpl in *; repeat split; lia.
  - unfold read_frame, Queue.get_nowait; simpl.
    destruct items as [| x rest]; simpl in *; repeat split; lia.
Qed.

Lemma capture_inv_run (events : list (event Frame)) (s : state Frame) :
  capture_inv s -> capture_inv (run s events).
Proof.
  revert s. induction events as [| e events IH]; intros s H; simpl.
  - exact H.
  - apply IH, capture_inv_step, H.
Qed.

(** The [put_nowait] of the capture thread finds room: no frame is skipped. *)
Lemma put_finds_room (s : state Frame) (f : Frame) :
  capture_inv s -> capture s = Putting f ->
  Queue.put_nowait (frame_queue s) f =
  Some (Queue.mk 2 (Queue.items (frame_queue s) ++ [f])).
Proof.
  destruct s as [[m items] c]. unfold capture_inv. simpl.
  intros [-> [_ Hc]] ->. unfold Queue.put_nowait, Queue.put.
  destruct (Queue.full (Queue.mk 2 items)) eqn:E; [| reflexivity].
  apply (full_iff (Queue.mk 2 items) eq_refl) in E. simpl in E. lia.
Qed.

(** One pass of the capture loop with no read in between leaves the last
    two of the frames queued and the new one. *)
Lemma run_push (items : list Frame) (f : Frame) :
  (length items <= 2)%nat ->
  run (mkState (Queue.mk 2 items) (Reading Frame)) (push f) =
  mkState (Queue.mk 2 (last_two (items ++ [f]))) (Reading Frame).
Proof.
  intros H.
  destruct items as [| a [| b [| c rest]]]; simpl in H; try lia; reflexivity.
Qed.

Lemma last_two_length (l : list Frame) : (length (last_two l) <= 2)%nat.
Proof. unfold last_two. rewrite length_skipn. lia. Qed.

Lemma last_two_app (l m : list Frame) :
  last_two (last_two l ++ m) = last_two (l ++ m).
Proof.
  unfold last_two.
  destruct (Nat.le_gt_cases (length l) 2) as [Hs | Hl].
  - replace (length l - 2)%nat with 0%nat by lia. reflexivity.
  - set (k := (length l - 2)%nat).
    assert (Hr : length (skipn k l) = 2%nat)
      by (rewrite length_skipn; subst k; lia).
    assert (E : skipn k l ++ m = skipn k (l ++ m)).
    { rewrite skipn_app. replace (k - length l)%nat with 0%nat by (subst k; lia).
      reflexivity. }
    rewrite !length_app, Hr, E, skipn_skipn. f_equal. subst k. lia.
Qed.

Lemma run_app (s : state Frame) (e1 e2 : list (event Frame)) :
  run s (e1 ++ e2) = run (run s e1) e2.
Proof. unfold run. apply fold_left_app. Qed.

(** A stream of frames pushed with no read in between leaves the last two of
    all that was queued or pushed. *)
Lemma run_stream (fs : list Frame) (items : list Frame) :
  (length items <= 2)%nat ->
  run (mkState (Queue.mk 2 items) (Reading Frame)) (flat_map (@push Frame) fs) =
  mkState (Queue.mk 2 (last_two (items ++ fs))) (Reading Frame).
Proof.
  revert items. induction fs as [| f fs IH]; intros items H.
  - simpl. rewrite app_nil_r. unfold last_two.
    replace (length items - 2)%nat with 0%nat by lia. reflexivity.
  - change (flat_map (@push Frame) (f :: fs))
      with (push f ++ flat_map (@push Frame) fs).
    rewrite run_app, run_push by assumption.
    rewrite IH by apply last_two_length.
    rewrite last_two_app, <- app_assoc. reflexivity.
Qed.

(** Draining hands out the queued frames, oldest first. *)
Lemma drain_items (q : Queue.t Frame) :
  drain (length (Queue.items q)) q = Queue.items q.
Proof.
  destruct q as [m items]. simpl.
  induction items as [| x rest IH]; simpl; [reflexivity |].
  unfold read_frame, Queue.get_nowait. simpl. now rewrite IH.
Qed.

(** A call of either thread takes frames from the front of the queue and adds
    at its back only. *)
Lemma step_suffix (s : state Frame) (e : event Frame) :
  exists older,
    older ++ Queue.items (frame_queue (step s e)) =
    Queue.items (frame_queue s) ++ put_history s [e].
Proof.
  destruct s as [[m items] c].
  destruct e as [frame | | ]; destruct c as [| f | f]; simpl;
    try (exists []; simpl; now rewrite ?app_nil_r).
  - unfold Queue.get_nowait; simpl. destruct items as [| x rest]; simpl.
    + now exists [].
    + exists [x]. simpl. now rewrite app_nil_r.
  - unfold Queue.put_nowait, Queue.put.
    destruct (Queue.full (Queue.mk m items)); simpl;
      exists []; simpl; now rewrite ?app_nil_r.
  - unfold read_frame, Queue.get_nowait; simpl.
    destruct items as [| x rest]; simpl.
    + now exists [].
    + exists [x]. simpl. now rewrite app_nil_r.
  - unfold read_frame, Queue.get_nowait; simpl.
    destruct items as [| x rest]; simpl.
    + now exists [].
    + exists [x]. simpl. now rewrite app_nil_r.
  - unfold read_frame, Queue.get_nowait; simpl.
    destruct items as [| x rest]; simpl.
    + now exists [].
    + exists [x]. simpl. now rewrite app_nil_r.
Qed.

(** Under every interleaving the queue holds the newest of the frames that
    were queued or put, in the order of the puts. *)
Lemma run_suffix (events : list (event Frame)) (s : state Frame) :
  exists older,
    older ++ Queue.items (frame_queue (run s events)) =
    Queue.items (frame_queue s) ++ put_history s events.
Proof.
  revert s. induction events as [| e events IH]; intros s.
  - exists []. simpl. now rewrite app_nil_r.
  - destruct (IH (step s e)) as [o1 H1].
    destruct (step_suffix s e) as [o2 H2].
    exists (o2 ++ o1). simpl run. simpl put_history in *.
    rewrite app_nil_r in H2.
    rewrite <- app_assoc, H1, app_assoc, H2, <- app_assoc. reflexivity.
Qed.

(** C6: under every interleaving of the calls of the capture thread and of
    the consumer the queue holds at most 2 frames, the capture thread's put
    finds room, and what is queued is the newest end of what was put, in the
    order of the puts; a push on a full queue evicts the oldest frame and
    queues the new one behind the other; and after a stream pushed from the
    start, the queue drains to the last two frames pushed, the older first. *)
Theorem C6_capture_queue :
  (forall events,
      let s := run (init Frame) events in
      (Queue.qsize (frame_queue s) <= 2)%Z /\
      (forall f, capture s = Putting f ->
                 Queue.put_nowait (frame_queue s) f =
                 Some (Queue.mk 2 (Queue.items (frame_queue s) ++ [f]))) /\
      (exists older,
          older ++ Queue.items (frame_queue s) =
          put_history (init Frame) events)) /\
  (forall a b f,
      Queue.full (Queue.mk 2 [a; b]) = true /\
      run (mkState (Queue.mk 2 [a; b]) (Reading Frame)) (push f) =
      mkState (Queue.mk 2 [b; f]) (Reading Frame)) /\
  (forall fs,
      let q := frame_queue (run (init Frame) (flat_map (@push Frame) fs)) in
      drain (length (Queue.items q)) q = last_two fs).
Proof.
  split; [| split].
  - intros events s.
    assert (H : capture_inv s)
      by (apply capture_inv_run, capture_inv_init).
    split; [| split].
    + destruct H as [_ [H _]]. unfold Queue.qsize. lia.
    + intros f Hf. now apply put_finds_room.
    + exact (run_suffix events (init Frame)).
  - intros a b f. split; reflexivity.
  - intros fs q. subst q. rewrite drain_items.
    unfold init, Queue.new. rewrite run_stream by (simpl; lia).
    reflexivity.
Qed.

End CaptureQueue.

(** The frames 1, 2, 3, 4 pushed in a row leave 3 and 4 to drain. *)
Lemma C6_capture_queue_witness :
  let q := VideoPipeline.frame_queue
             (VideoPipeline.run (VideoPipeline.init nat)
                (flat_map (@VideoPipeline.push nat) [1; 2; 3; 4]%nat)) in
  VideoPipeline.drain (length (Queue.items q)) q = [3; 4]%nat.
Proof. exact (proj2 (proj2 (C6_capture_queue nat)) [1; 2; 3; 4]%nat). Defined.

(* ================================================================== *)
(** * The dispatcher: [submit_task] and the worker loops *)
(* ================================================================== *)

Section DispatcherClaims.

Import Builtins Response Dispatcher.

Variable Frame : Type.

Lemma submit_task_full (w : Worker Frame) frame query now :
  Queue.full (task_queue w) = true ->
  submit_task w frame query now =
  Returns (logging [Log WARNING MsgQueueFull] w).
Proof. intros H. unfold submit_task, Queue.put. now rewrite H. Qed.

Lemma submit_task_room (w : Worker Frame) frame query now :
  Queue.full (task_queue w) = false ->
  submit_task w frame query now =
  Returns (with_task_queue
             (Queue.mk (Queue.maxsize (task_queue w))
                       (Queue.items (task_queue w) ++ [mkTask frame query now]))
             w).
Proof. intros H. unfold submit_task, Queue.put. now rewrite H. Qed.

(** A queue made without bound is never full. *)
Lemma unbounded_never_full (A : Type) (q : Queue.t A) :
  (Queue.maxsize q <= 0)%Z -> Queue.full q = false.
Proof.
  intros H. unfold Queue.full.
  destruct (Z.ltb_spec 0 (Queue.maxsize q)); [lia | reflexivity].
Qed.

(** The worker that [__init__] makes keeps every task submitted, in order:
    its task queue has no bound, and the handler of [queue.Full] never
    runs. *)
Lemma submit_tasks_unbounded (calls : list (Frame * pystr * Q))
      (w : Worker Frame) :
  (Queue.maxsize (task_queue w) <= 0)%Z ->
  exists w',
    submit_tasks w calls = Returns w' /\
    Queue.maxsize (task_queue w') = Queue.maxsize (task_queue w) /\
    Queue.items (task_queue w') =
      Queue.items (task_queue w) ++
      map (fun c => mkTask (fst (fst c)) (snd (fst c)) (snd c)) calls /\
    log w' = log w.
Proof.
  revert w. induction calls as [| [[frame query] now] calls IH]; intros w H.
  - exists w. simpl. now rewrite app_nil_r.
  - simpl. rewrite submit_task_room by now apply unbounded_never_full.
    destruct (IH (with_task_queue
                    (Queue.mk (Queue.maxsize (task_queue w))
                       (Queue.items (task_queue w) ++ [mkTask frame query now]))
                    w) H)
      as [w' [E [Hm [Hi Hl]]]].
    exists w'. simpl in *. rewrite E, Hm, Hi, Hl, <- app_assoc.
    repeat split.
Qed.

(** On a bounded queue that is not over its bound, any run of submissions
    returns and leaves at most [maxsize] tasks; a full queue is left as it
    was. *)
Lemma submit_tasks_bounded (calls : list (Frame * pystr * Q))
      (w : Worker Frame) :
  (0 < Queue.maxsize (task_queue w))%Z ->
  (Queue.qsize (task_queue w) <= Queue.maxsize (task_queue w))%Z ->
  exists w',
    submit_tasks w calls = Returns w' /\
    Queue.maxsize (task_queue w') = Queue.maxsize (task_queue w) /\
    (Queue.qsize (task_queue w') <= Queue.maxsize (task_queue w))%Z /\
    (Queue.full (task_queue w) = true -> task_queue w' = task_queue w).
Proof.
  revert w. induction calls as [| [[frame query] now] calls IH];
    intros w Hpos Hle.
  - exists w. simpl. repeat split; lia || reflexivity.
  - simpl. destruct (Queue.full (task_queue w)) eqn:Hf.
    + rewrite submit_task_full by assumption.
      destruct (IH (logging [Log WARNING MsgQueueFull] w) Hpos Hle)
        as [w' [E [Hm [Hq Hk]]]].
      exists w'. simpl in *. repeat split; try assumption.
      intros _. now apply Hk.
    + rewrite submit_task_room by assumption.
      set (w1 := with_task_queue _ w).
      assert (Hq1 : (Queue.qsize (task_queue w1) <=
                     Queue.maxsize (task_queue w1))%Z).
      { subst w1. simpl. unfold Queue.full, Queue.qsize in *. simpl.
        rewrite length_app. simpl.
        destruct (Z.ltb_spec 0 (Queue.maxsize (task_queue w))); [| lia].
        simpl in Hf. apply Z.leb_gt in Hf. lia. }
      destruct (IH w1 Hpos Hq1) as [w' [E [Hm [Hq Hk]]]].
      exists w'. simpl in *. repeat split; try assumption. discriminate.
Qed.

(** C2: [submit_task] returns whatever the state of the queue; on a full
    queue the task is dropped and the one trace is the warning in the log;
    submissions in a row to a queue with a bound leave at most that many
    tasks, and leave a full queue as it was; the queue that [__init__] makes
    has no bound, is never full and keeps every task. *)
Theorem C2_submit_task_never_blocks :
  (forall (w : Worker Frame) frame query now,
      exists w', submit_task w frame query now = Returns w') /\
  (forall (w : Worker Frame) frame query now,
      Queue.full (task_queue w) = true ->
      submit_task w frame query now =
      Returns (mkWorker (task_queue w) (result_queue w) (running w)
                        (callback w) (delivered w)
                        (log w ++ [Log WARNING MsgQueueFull]))) /\
  (forall (w : Worker Frame) calls,
      (0 < Queue.maxsize (task_queue w))%Z ->
      (Queue.qsize (task_queue w) <= Queue.maxsize (task_queue w))%Z ->
      exists w',
        submit_tasks w calls = Returns w' /\
        (Queue.qsize (task_queue w') <= Queue.maxsize (task_queue w))%Z /\
        (Queue.full (task_queue w) = true -> task_queue w' = task_queue w)) /\
  (forall calls,
      exists w',
        submit_tasks (start (__init__ Frame)) calls = Returns w' /\
        Queue.items (task_queue w') =
          map (fun c => mkTask (fst (fst c)) (snd (fst c)) (snd c)) calls /\
        log w' = []).
Proof.
  split; [| split; [| split]].
  - intros w frame query now. unfold submit_task, Queue.put.
    destruct (Queue.full (task_queue w)); eexists; reflexivity.
  - intros w frame query now H. now rewrite submit_task_full.
  - intros w calls Hpos Hle.
    destruct (submit_tasks_bounded calls w Hpos Hle) as [w' [E [_ [Hq Hk]]]].
    exists w'. repeat split; assumption.
  - intros calls.
    destruct (submit_tasks_unbounded calls (start (__init__ Frame))
                (Z.le_refl 0)) as [w' [E [_ [Hi Hl]]]].
    exists w'. repeat split; assumption.
Qed.

Section Workers.

Variable B : PyBuiltins.

(** What [NetworkWorker]'s loop does with a failed HTTP exchange: two log
    records. *)
Lemma network_handle_failure (w : Worker Frame) (task : Task Frame) :
  NetworkWorker.handle_task B w task NetworkWorker.RequestException =
  Returns (logging [Log INFO MsgSending; Log ERROR MsgRequestFailed] w).
Proof. reflexivity. Qed.

(** What [GeminiWorker]'s loop does with a failed API call: one result, not
    dangerous, of confidence 0.0 and of non-empty reasoning, on the result
    queue and to the callback. *)
Lemma gemini_handle_failure (w : Worker Frame) (task : Task Frame)
      (message : pystr) :
  Queue.full (result_queue w) = false ->
  exists w',
    GeminiWorker.handle_task B w task (GeminiWorker.ApiException message) =
      Returns w' /\
    Queue.items (result_queue w') =
      Queue.items (result_queue w) ++ [GeminiWorker.error_result message] /\
    delivered w' =
      (if callback w then delivered w ++ [GeminiWorker.error_result message]
       else delivered w) /\
    task_queue w' = task_queue w /\ running w' = running w /\
    is_danger (GeminiWorker.error_result message) = false /\
    confidence (GeminiWorker.error_result message) = PyFloat.zero /\
    reasoning (GeminiWorker.error_result message) <> [].
Proof.
  intros H. unfold GeminiWorker.handle_task, publish, Queue.put. simpl.
  rewrite H. eexists. repeat split. discriminate.
Qed.

(** Each task [GeminiWorker]'s loop takes gives one result, whether the call
    failed or not, and the loop goes on to the next task. *)
Lemma gemini_loop_one_result_per_task
      (world : list GeminiWorker.api_outcome) (w : Worker Frame) :
  running w = true ->
  (Queue.maxsize (result_queue w) <= 0)%Z ->
  exists w',
    GeminiWorker._worker_loop B world w = Returns w' /\
    length (Queue.items (result_queue w')) =
      (length (Queue.items (result_queue w)) +
       Nat.min (length world) (length (Queue.items (task_queue w))))%nat.
Proof.
  revert w. induction world as [| o world IH]; intros w Hr Hm.
  - exists w. simpl. split; [reflexivity | lia].
  - unfold GeminiWorker._worker_loop. simpl. rewrite Hr.
    unfold Queue.get_nowait.
    destruct (Queue.items (task_queue w)) as [| task rest] eqn:Ht.
    + exists w. simpl. split; [reflexivity | lia].
    + set (w0 := with_task_queue (Queue.mk (Queue.maxsize (task_queue w)) rest) w).
      assert (Hf : forall l, Queue.full (result_queue (logging l w0)) = false)
        by (intros l; apply unbounded_never_full; exact Hm).
      destruct o as [text | message].
      * unfold GeminiWorker.handle_task.
        destruct (GeminiWorker._parse_response B text) as [parsed warnings].
        unfold publish, Queue.put. rewrite Hf.
        match goal with
        | |- context [worker_loop _ world ?w1] =>
            destruct (IH w1 Hr Hm) as [w' [E Hl]]
        end.
        exists w'. split; [exact E |].
        rewrite Hl. simpl. rewrite length_app. simpl. lia.
      * unfold GeminiWorker.handle_task, publish, Queue.put. rewrite Hf.
        match goal with
        | |- context [worker_loop _ world ?w1] =>
            destruct (IH w1 Hr Hm) as [w' [E Hl]]
        end.
        exists w'. split; [exact E |].
        rewrite Hl. simpl. rewrite length_app. simpl. lia.
Qed.

End Workers.

End DispatcherClaims.

(** A queue bounded at two tasks and holding two: three more submissions
    return and leave it as it was. *)
Lemma C2_submit_task_never_blocks_witness :
  let t1 := Dispatcher.mkTask 1%nat (lit "a") 0 in
  let t2 := Dispatcher.mkTask 2%nat (lit "b") 1 in
  let w := Dispatcher.mkWorker (Queue.mk 2 [t1; t2])
                               (Queue.new Response.AnalysisResult 0)
                               true true [] [] in
  exists w',
    Dispatcher.submit_tasks w
      [(3%nat, lit "c", 2); (4%nat, lit "d", 3); (5%nat, lit "e", 4)]
    = Returns w' /\
    (Queue.qsize (Dispatcher.task_queue w') <= 2)%Z /\
    Dispatcher.task_queue w' = Queue.mk 2 [t1; t2].
Proof.
  intros t1 t2 w.
  destruct (proj1 (proj2 (proj2 (C2_submit_task_never_blocks nat))) w
              [(3%nat, lit "c", 2); (4%nat, lit "d", 3); (5%nat, lit "e", 4)]
              eq_refl (fun H => Z.le_refl 2 H))
    as [w' [E [Hq Hk]]].
  exists w'. exact (conj E (conj Hq (Hk eq_refl))).
Defined.

(** [NetworkWorker]'s loop goes on after a failed exchange: of two tasks, the
    first failing and the second answered, only the second gives a result. *)
Lemma network_loop_goes_on (Frame : Type) (B : Builtins.PyBuiltins)
      (w : Dispatcher.Worker Frame) (t1 t2 : Dispatcher.Task Frame)
      (text : pystr) :
  Dispatcher.running w = true ->
  Queue.items (Dispatcher.task_queue w) = [t1; t2] ->
  Queue.full (Dispatcher.result_queue w) = false ->
  exists w',
    NetworkWorker._worker_loop B
      [NetworkWorker.RequestException; NetworkWorker.HttpReply text] w =
      Returns w' /\
    Queue.items (Dispatcher.task_queue w') = [] /\
    Queue.items (Dispatcher.result_queue w') =
      Queue.items (Dispatcher.result_queue w) ++
      [fst (NetworkWorker._parse_response B text)].
Proof.
  destruct w as [[m items] rq run cb dl lg]. simpl.
  intros -> -> Hf.
  unfold NetworkWorker._worker_loop, NetworkWorker.handle_task. simpl.
  destruct (NetworkWorker._parse_response B text) as [parsed warnings].
  unfold Dispatcher.publish, Queue.put. simpl. rewrite Hf.
  eexists. repeat split.
Qed.

(** C1, where the code parts from the claim: a failed HTTP exchange makes
    [NetworkWorker]'s loop write two log records and nothing else, so no
    result reaches the result queue or the callback; the loop itself goes on.
    ([GeminiWorker] does publish a result there, see
    [gemini_handle_failure].) *)
Theorem C1_network_worker_drops_transport_failure
        (Frame : Type) (B : Builtins.PyBuiltins) :
  (forall (w : Dispatcher.Worker Frame) (task : Dispatcher.Task Frame),
      exists w',
        NetworkWorker.handle_task B w task NetworkWorker.RequestException =
          Returns w' /\
        Dispatcher.result_queue w' = Dispatcher.result_queue w /\
        Dispatcher.delivered w' = Dispatcher.delivered w /\
        Dispatcher.running w' = Dispatcher.running w) /\
  (forall (frame : Frame) (query : pystr) (now : Q),
      exists w1 w2,
        Dispatcher.submit_task (Dispatcher.start (Dispatcher.__init__ Frame))
                               frame query now = Returns w1 /\
        NetworkWorker._worker_loop B [NetworkWorker.RequestException] w1 =
          Returns w2 /\
        Queue.items (Dispatcher.task_queue w2) = [] /\
        Queue.items (Dispatcher.result_queue w2) = [] /\
        Dispatcher.delivered w2 = []).
Proof.
  split.
  - intros w task. eexists. repeat split.
  - intros frame query now. eexists. eexists. repeat split.
Qed.

(* ================================================================== *)
(** * The cooldown coordinator *)
(* ================================================================== *)

Lemma Qleb_iff (a b : Q) : Qleb a b = true <-> (a <= b)%Q.
Proof. apply Qle_bool_iff. Qed.

Lemma Qltb_iff (a b : Q) : Qltb a b = true <-> (a < b)%Q.
Proof.
  unfold Qltb. rewrite negb_true_iff. split.
  - intros H. apply Qnot_le_lt. intros Hle.
    apply Qle_bool_iff in Hle. congruence.
  - intros H. destruct (Qle_bool b a) eqn:E; [| reflexivity].
    apply Qle_bool_iff in E. exfalso. now apply (Qlt_not_le a b).
Qed.

Lemma Qltb_false_iff (a b : Q) : Qltb a b = false <-> (b <= a)%Q.
Proof.
  unfold Qltb. rewrite negb_false_iff. apply Qle_bool_iff.
Qed.

Section MonitorClaims.

Import Response SmartMonitor.

Variable Frame : Type.
Variable draw_detections : Frame -> Frame.
Variable prompt : pystr.

(** Saving an image and raising an alert leave the dispatcher and the upload
    cooldown alone. *)
Lemma trigger_alert_frame (m : SmartMonitor.t Frame) result frame tick :
  network_worker (_trigger_alert m result frame tick) = network_worker m /\
  last_upload_time (_trigger_alert m result frame tick) = last_upload_time m /\
  cooldown_seconds (_trigger_alert m result frame tick) = cooldown_seconds m.
Proof.
  destruct m. unfold _trigger_alert, _save_alert_image. simpl.
  repeat match goal with
         | |- context [match ?x with _ => _ end] => destruct x; simpl
         end;
    repeat split.
Qed.

Lemma poll_result_frame (m : SmartMonitor.t Frame) frame tick :
  task_queue (network_worker (poll_result m frame tick)) =
    task_queue (network_worker m) /\
  last_upload_time (poll_result m frame tick) = last_upload_time m /\
  cooldown_seconds (poll_result m frame tick) = cooldown_seconds m.
Proof.
  unfold poll_result, get_result.
  destruct (Queue.get_nowait (result_queue (network_worker m)))
    as [[result q'] |]; [| repeat split].
  destruct (is_danger result); [| repeat split].
  cbn [network_worker last_upload_time cooldown_seconds with_status].
  match goal with
  | |- context [_trigger_alert ?m0 ?r ?f ?t] =>
      destruct (trigger_alert_frame m0 r f t) as [H1 [H2 H3]];
      rewrite H1, H2, H3
  end.
  destruct (save_alert_images _); repeat split.
Qed.

Lemma display_frame (m : SmartMonitor.t Frame) tick :
  network_worker (display m tick) = network_worker m /\
  last_upload_time (display m tick) = last_upload_time m /\
  cooldown_seconds (display m tick) = cooldown_seconds m /\
  images (display m tick) = images m.
Proof.
  unfold display. destruct (alert_display_start_time m); [| repeat split].
  destruct (Qltb _ _); repeat split.
Qed.

(** One pass of the loop over a dispatcher without bound: it returns, and the
    upload gate alone decides whether a task is queued and the upload time
    moved. *)
Lemma iteration_gate (m : SmartMonitor.t Frame) frame has_person tick :
  (Queue.maxsize (task_queue (network_worker m)) <= 0)%Z ->
  exists m',
    iteration draw_detections prompt m frame has_person tick = Returns m' /\
    Queue.maxsize (task_queue (network_worker m')) =
      Queue.maxsize (task_queue (network_worker m)) /\
    cooldown_seconds m' = cooldown_seconds m /\
    tasks m' =
      tasks m ++
      (if upload_gate has_person m tick
       then [mkTask (draw_detections frame) prompt (submit_time tick)]
       else []) /\
    last_upload_time m' =
      (if upload_gate has_person m tick then current_time tick
       else last_upload_time m).
Proof.
  intros Hm. unfold iteration, escalate, tasks.
  destruct has_person.
  - change (upload_gate true (with_person_detection_count _ m) tick)
      with (upload_gate true m tick).
    destruct (upload_gate true m tick) eqn:G.
    + rewrite submit_task_room
        by (apply unbounded_never_full; exact Hm).
      eexists. split; [reflexivity |].
      match goal with
      | |- context [poll_result ?m0 ?f ?t] =>
          destruct (display_frame (poll_result m0 f t) t) as [D1 [D2 [D3 _]]];
          destruct (poll_result_frame m0 f t) as [P1 [P2 P3]]
      end.
      rewrite D1, D2, D3, P1, P2, P3. repeat split.
    + eexists. split; [reflexivity |].
      match goal with
      | |- context [poll_result ?m0 ?f ?t] =>
          destruct (display_frame (poll_result m0 f t) t) as [D1 [D2 [D3 _]]];
          destruct (poll_result_frame m0 f t) as [P1 [P2 P3]]
      end.
      rewrite D1, D2, D3, P1, P2, P3. simpl. rewrite app_nil_r. repeat split.
  - eexists. split; [reflexivity |].
    match goal with
    | |- context [poll_result ?m0 ?f ?t] =>
        destruct (display_frame (poll_result m0 f t) t) as [D1 [D2 [D3 _]]];
        destruct (poll_result_frame m0 f t) as [P1 [P2 P3]]
    end.
    rewrite D1, D2, D3, P1, P2, P3. simpl. rewrite app_nil_r. repeat split.
Qed.

Lemma upload_gate_iff (m : SmartMonitor.t Frame) has_person tick :
  upload_gate has_person m tick = true <->
  has_person = true /\
  (cooldown_seconds m <= current_time tick - last_upload_time m)%Q.
Proof.
  unfold upload_gate. rewrite andb_true_iff, Qleb_iff. tauto.
Qed.

(** Two passes over frames with a person, the first of them through the
    gate: the second goes through exactly when it comes at least a cooldown
    later. *)
Lemma two_frames (m : SmartMonitor.t Frame) f1 f2 k1 k2 :
  (Queue.maxsize (task_queue (network_worker m)) <= 0)%Z ->
  (cooldown_seconds m <= current_time k1 - last_upload_time m)%Q ->
  exists m',
    run draw_detections prompt m [(f1, true, k1); (f2, true, k2)] =
      Returns m' /\
    tasks m' =
      tasks m ++
      mkTask (draw_detections f1) prompt (submit_time k1) ::
      (if Qleb (cooldown_seconds m) (current_time k2 - current_time k1)
       then [mkTask (draw_detections f2) prompt (submit_time k2)]
       else []).
Proof.
  intros Hm Hc.
  destruct (iteration_gate m f1 true k1 Hm) as [m1 [E1 [M1 [C1 [T1 L1]]]]].
  assert (G1 : upload_gate true m k1 = true)
    by (apply upload_gate_iff; split; [reflexivity | exact Hc]).
  rewrite G1 in T1, L1.
  assert (Hm1 : (Queue.maxsize (task_queue (network_worker m1)) <= 0)%Z)
    by (rewrite M1; exact Hm).
  destruct (iteration_gate m1 f2 true k2 Hm1) as [m2 [E2 [_ [_ [T2 _]]]]].
  exists m2. simpl run. rewrite E1, E2. split; [reflexivity |].
  rewrite T2, T1, <- app_assoc. simpl. do 2 f_equal.
  unfold upload_gate. rewrite C1, L1. reflexivity.
Qed.

(** C4: a pass of the loop at time [t] submits the frame exactly when a
    person was detected and [t - last_upload_time >= cooldown_seconds], and
    then sets [last_upload_time] to [t] in the same pass; with a cooldown of
    5, two frames with a person, the first through the gate, give one task
    when they are 3 seconds apart and two when they are 6 apart. *)
Theorem C4_upload_gating :
  (forall (m : SmartMonitor.t Frame) frame has_person tick,
      (Queue.maxsize (task_queue (network_worker m)) <= 0)%Z ->
      exists m',
        iteration draw_detections prompt m frame has_person tick =
          Returns m' /\
        (has_person = true /\
         (cooldown_seconds m <= current_time tick - last_upload_time m)%Q ->
         tasks m' =
           tasks m ++ [mkTask (draw_detections frame) prompt (submit_time tick)]
         /\ last_upload_time m' = current_time tick) /\
        (~ (has_person = true /\
            (cooldown_seconds m <= current_time tick - last_upload_time m)%Q) ->
         tasks m' = tasks m /\ last_upload_time m' = last_upload_time m)) /\
  (forall (m : SmartMonitor.t Frame) f1 f2 k1 k2,
      (Queue.maxsize (task_queue (network_worker m)) <= 0)%Z ->
      (cooldown_seconds m == 5)%Q ->
      (cooldown_seconds m <= current_time k1 - last_upload_time m)%Q ->
      (current_time k2 - current_time k1 == 3)%Q ->
      exists m',
        run draw_detections prompt m [(f1, true, k1); (f2, true, k2)] =
          Returns m' /\
        tasks m' =
          tasks m ++ [mkTask (draw_detections f1) prompt (submit_time k1)]) /\
  (forall (m : SmartMonitor.t Frame) f1 f2 k1 k2,
      (Queue.maxsize (task_queue (network_worker m)) <= 0)%Z ->
      (cooldown_seconds m == 5)%Q ->
      (cooldown_seconds m <= current_time k1 - last_upload_time m)%Q ->
      (current_time k2 - current_time k1 == 6)%Q ->
      exists m',
        run draw_detections prompt m [(f1, true, k1); (f2, true, k2)] =
          Returns m' /\
        tasks m' =
          tasks m ++ [mkTask (draw_detections f1) prompt (submit_time k1);
                      mkTask (draw_detections f2) prompt (submit_time k2)]).
Proof.
  split; [| split].
  - intros m frame has_person tick Hm.
    destruct (iteration_gate m frame has_person tick Hm)
      as [m' [E [_ [_ [T L]]]]].
    exists m'. split; [exact E |]. split.
    + intros H. apply upload_gate_iff in H. rewrite H in T, L. now split.
    + intros H. destruct (upload_gate has_person m tick) eqn:G.
      * exfalso. apply H. now apply upload_gate_iff.
      * rewrite app_nil_r in T. now split.
  - intros m f1 f2 k1 k2 Hm H5 Hc Hd.
    destruct (two_frames m f1 f2 k1 k2 Hm Hc) as [m' [E T]].
    exists m'. split; [exact E |]. rewrite T.
    assert (G : Qleb (cooldown_seconds m) (current_time k2 - current_time k1)
                = false).
    { destruct (Qleb _ _) eqn:G; [| reflexivity].
      apply Qleb_iff in G. lra. }
    now rewrite G.
  - intros m f1 f2 k1 k2 Hm H5 Hc Hd.
    destruct (two_frames m f1 f2 k1 k2 Hm Hc) as [m' [E T]].
    exists m'. split; [exact E |]. rewrite T.
    assert (G : Qleb (cooldown_seconds m) (current_time k2 - current_time k1)
                = true)
      by (apply Qleb_iff; lra).
    now rewrite G.
Qed.

End MonitorClaims.

(** The object that [__init__] and [initialize] make, with a cooldown of 5:
    frames with a person at the clock readings 1000 and 1003 queue one
    task. *)
Lemma C4_upload_gating_witness :
  let m := SmartMonitor.initialized 5 (Dispatcher.__init__ nat) in
  let k1 := SmartMonitor.mkTick 1000 1000 (lit "s1") 1000 (lit "s1") (lit "s1") in
  let k2 := SmartMonitor.mkTick 1003 1003 (lit "s2") 1003 (lit "s2") (lit "s2") in
  exists m',
    SmartMonitor.run S (lit "prompt") m [(1%nat, true, k1); (2%nat, true, k2)] =
      Returns m' /\
    SmartMonitor.tasks m' = [Dispatcher.mkTask 2%nat (lit "prompt") 1000].
Proof.
  intros m k1 k2.
  exact (proj1 (proj2 (C4_upload_gating nat S (lit "prompt"))) m 1%nat 2%nat k1 k2
           (Z.le_refl 0)
           (Qeq_refl 5)
           ltac:(vm_compute; discriminate)
           ltac:(vm_compute; reflexivity)).
Defined.

Section AlertClaims.

Import Response SmartMonitor.

Variable Frame : Type.

(** Inside the alert cooldown: one image with the cooldown tag, nothing
    else. *)
Lemma trigger_suppressed (m : SmartMonitor.t Frame) result frame tick :
  save_alert_images m = true ->
  Qltb (alert_time tick - last_alert_time m) (alert_cooldown_seconds m) = true ->
  _trigger_alert m result (Some frame) tick =
  with_images
    (images m ++ [(mkImage (stamp_trigger tick) (alert_count m) true
                           (reasoning_short result), frame)]) m.
Proof.
  intros Hs Hc. unfold _trigger_alert. rewrite Hc, Hs. reflexivity.
Qed.

(** Outside the alert cooldown: the alert time and the counter move, the
    record goes to the notifier, and one image without tag is saved under the
    new count. *)
Lemma trigger_delivered (m : SmartMonitor.t Frame) result frame tick sent :
  save_alert_images m = true ->
  alert_notifier m = Some sent ->
  Qltb (alert_time tick - last_alert_time m) (alert_cooldown_seconds m) = false ->
  _trigger_alert m result (Some frame) tick =
  with_images
    (images m ++ [(mkImage (stamp_trigger tick) (alert_count m + 1) false
                           (reasoning_short result), frame)])
    (with_notifier
       (Some (sent ++ [mkAlert rule_name_text
                               (description_prefix ++ reasoning result)
                               severity_high location_text (stamp_alert tick)]))
       (with_alert_count (alert_count m + 1)
          (with_last_alert_time (alert_time tick) m))).
Proof.
  destruct m. simpl. intros -> -> Hc.
  unfold _trigger_alert. simpl. rewrite Hc. reflexivity.
Qed.

(** C5: a danger result handled at time [t] with [t - last_alert_time] below
    the alert cooldown sends nothing and saves one image with the cooldown
    tag; otherwise [last_alert_time] becomes [t], the counter grows by one, an
    image is saved and a record goes to the notifier.  With a cooldown of 2,
    results at [t0], [t0 + 1] and [t0 + 3], the first outside the cooldown,
    are delivered, suppressed with a tagged image, and delivered. *)
Theorem C5_alert_cooldown :
  (forall (m : SmartMonitor.t Frame) result frame tick sent,
      save_alert_images m = true ->
      alert_notifier m = Some sent ->
      ((alert_time tick - last_alert_time m < alert_cooldown_seconds m)%Q ->
       let m' := _trigger_alert m result (Some frame) tick in
       alert_notifier m' = Some sent /\
       last_alert_time m' = last_alert_time m /\
       alert_count m' = alert_count m /\
       images m' =
         images m ++ [(mkImage (stamp_trigger tick) (alert_count m) true
                               (reasoning_short result), frame)]) /\
      ((alert_cooldown_seconds m <= alert_time tick - last_alert_time m)%Q ->
       let m' := _trigger_alert m result (Some frame) tick in
       alert_notifier m' =
         Some (sent ++ [mkAlert rule_name_text
                                (description_prefix ++ reasoning result)
                                severity_high location_text
                                (stamp_alert tick)]) /\
       last_alert_time m' = alert_time tick /\
       alert_count m' = (alert_count m + 1)%Z /\
       images m' =
         images m ++ [(mkImage (stamp_trigger tick) (alert_count m + 1) false
                               (reasoning_short result), frame)])) /\
  (forall (m : SmartMonitor.t Frame) r1 r2 r3 f1 f2 f3 k1 k2 k3 sent,
      save_alert_images m = true ->
      alert_notifier m = Some sent ->
      (alert_cooldown_seconds m == 2)%Q ->
      (alert_cooldown_seconds m <= alert_time k1 - last_alert_time m)%Q ->
      (alert_time k2 - alert_time k1 == 1)%Q ->
      (alert_time k3 - alert_time k1 == 3)%Q ->
      let m3 :=
        _trigger_alert
          (_trigger_alert (_trigger_alert m r1 (Some f1) k1) r2 (Some f2) k2)
          r3 (Some f3) k3 in
      alert_notifier m3 =
        Some (sent ++
              [mkAlert rule_name_text (description_prefix ++ reasoning r1)
                       severity_high location_text (stamp_alert k1);
               mkAlert rule_name_text (description_prefix ++ reasoning r3)
                       severity_high location_text (stamp_alert k3)]) /\
      images m3 =
        images m ++
        [(mkImage (stamp_trigger k1) (alert_count m + 1) false
                  (reasoning_short r1), f1);
         (mkImage (stamp_trigger k2) (alert_count m + 1) true
                  (reasoning_short r2), f2);
         (mkImage (stamp_trigger k3) (alert_count m + 1 + 1) false
                  (reasoning_short r3), f3)] /\
      alert_count m3 = (alert_count m + 1 + 1)%Z).
Proof.
  split.
  - intros m result frame tick sent Hs Hn. split.
    + intros Hc m'. subst m'.
      rewrite trigger_suppressed by (assumption || now apply Qltb_iff).
      cbn. repeat split. exact Hn.
    + intros Hc m'. subst m'.
      rewrite (trigger_delivered m result frame tick sent)
        by (assumption || now apply Qltb_false_iff).
      cbn. repeat split.
  - intros m r1 r2 r3 f1 f2 f3 k1 k2 k3 sent Hs Hn H2 Hc H12 H13 m3.
    subst m3.
    pose proof (trigger_delivered m r1 f1 k1 sent Hs Hn
                  (proj2 (Qltb_false_iff _ _) Hc)) as E1.
    set (m1 := _trigger_alert m r1 (Some f1) k1) in *.
    assert (E2 : _trigger_alert m1 r2 (Some f2) k2 =
                 with_images
                   (images m1 ++
                    [(mkImage (stamp_trigger k2) (alert_count m1) true
                              (reasoning_short r2), f2)]) m1).
    { apply trigger_suppressed; rewrite E1; cbn; [exact Hs |].
      apply Qltb_iff. lra. }
    set (m2 := _trigger_alert m1 r2 (Some f2) k2) in *.
    rewrite (trigger_delivered m2 r3 f3 k3
               (sent ++ [mkAlert rule_name_text
                                 (description_prefix ++ reasoning r1)
                                 severity_high location_text (stamp_alert k1)])).
    + rewrite E2, E1. cbn. rewrite <- !app_assoc. repeat split.
    + rewrite E2, E1. cbn. exact Hs.
    + rewrite E2, E1. reflexivity.
    + rewrite E2, E1. cbn. apply Qltb_false_iff. lra.
Qed.

End AlertClaims.

(** The object made by [__init__] and [initialize] (alert cooldown 2, no alert
    yet) with danger results handled at the clock readings 1000, 1001 and
    1003: two records reach the notifier. *)
Lemma C5_alert_cooldown_witness :
  let m := SmartMonitor.initialized 5 (Dispatcher.__init__ nat) in
  let r := GeminiWorker.error_result (lit "x") in
  let k t := SmartMonitor.mkTick t t (lit "s") t (lit "s") (lit "s") in
  let m3 :=
    SmartMonitor._trigger_alert
      (SmartMonitor._trigger_alert
         (SmartMonitor._trigger_alert m r (Some 1%nat) (k 1000))
         r (Some 2%nat) (k 1001))
      r (Some 3%nat) (k 1003) in
  SmartMonitor.alert_count m3 = 2%Z /\
  map (fun i => SmartMonitor.image_cooldown_tag (fst i))
      (SmartMonitor.images m3) = [false; true; false].
Proof.
  intros m r k m3.
  destruct (proj2 (C5_alert_cooldown nat) m r r r 1%nat 2%nat 3%nat
              (k 1000) (k 1001) (k 1003) [] eq_refl eq_refl
              (Qeq_refl 2)
              ltac:(vm_compute; discriminate)
              ltac:(vm_compute; reflexivity)
              ltac:(vm_compute; reflexivity))
    as [_ [Hi Hc]].
  split.
  - exact Hc.
  - subst m3. rewrite Hi. reflexivity.
Defined.

Section EvidenceClaims.

Import Response SmartMonitor.

Variable Frame : Type.
Variable draw_detections : Frame -> Frame.
Variable prompt : pystr.

(** The poll of step 5 on a danger result at the head of the result queue:
    the save of the loop, then the save inside [_trigger_alert]. *)
Lemma poll_result_danger (m : SmartMonitor.t Frame) frame tick result rest :
  save_alert_images m = true ->
  Queue.items (result_queue (network_worker m)) = result :: rest ->
  is_danger result = true ->
  images (poll_result m frame tick) =
  images m ++
  [(mkImage (stamp_loop tick) (alert_count m) false (reasoning_short result),
    frame);
   (if Qltb (alert_time tick - last_alert_time m) (alert_cooldown_seconds m)
    then mkImage (stamp_trigger tick) (alert_count m) true
                 (reasoning_short result)
    else mkImage (stamp_trigger tick) (alert_count m + 1) false
                 (reasoning_short result),
    frame)].
Proof.
  destruct m as [w n lu la cs acs st ac anc pc sv ds dd lr im]. simpl.
  intros -> Hq Hd.
  unfold poll_result, get_result, Queue.get_nowait. simpl.
  rewrite Hq, Hd. simpl.
  unfold _trigger_alert, _save_alert_image. simpl.
  destruct (Qltb (alert_time tick - la) acs); simpl.
  - rewrite <- app_assoc. reflexivity.
  - destruct n; simpl; rewrite <- app_assoc; reflexivity.
Qed.

(** Step 4 leaves the result queue, the images and the alert fields as they
    were. *)
Lemma escalate_frame (m : SmartMonitor.t Frame) frame has_person tick :
  exists m1,
    escalate prompt m frame has_person tick = Returns m1 /\
    result_queue (network_worker m1) = result_queue (network_worker m) /\
    images m1 = images m /\
    save_alert_images m1 = save_alert_images m /\
    alert_count m1 = alert_count m /\
    last_alert_time m1 = last_alert_time m /\
    alert_cooldown_seconds m1 = alert_cooldown_seconds m.
Proof.
  unfold escalate.
  destruct (upload_gate has_person m tick).
  - destruct (Queue.full (task_queue (network_worker m))) eqn:Hf.
    + rewrite submit_task_full by exact Hf. eexists. repeat split.
    + rewrite submit_task_room by exact Hf. eexists. repeat split.
  - exists m. repeat split.
Qed.

(** C9: a pass of the loop that polls a danger result while image saving is
    on writes exactly two images of the frame: first the one of the loop,
    without tag and under the current count, then the one of
    [_trigger_alert], with the cooldown tag under the same count when the
    alert is suppressed and without tag under the next count when it is
    delivered; the two names differ. *)
Theorem C9_two_evidence_images
        (m : SmartMonitor.t Frame) frame has_person tick result rest :
  save_alert_images m = true ->
  Queue.items (result_queue (network_worker m)) = result :: rest ->
  is_danger result = true ->
  exists m' first second,
    iteration draw_detections prompt m frame has_person tick = Returns m' /\
    images m' =
      images m ++
      [(first, if has_person then draw_detections frame else frame);
       (second, if has_person then draw_detections frame else frame)] /\
    first = mkImage (stamp_loop tick) (alert_count m) false
                    (reasoning_short result) /\
    second =
      (if Qltb (alert_time tick - last_alert_time m) (alert_cooldown_seconds m)
       then mkImage (stamp_trigger tick) (alert_count m) true
                    (reasoning_short result)
       else mkImage (stamp_trigger tick) (alert_count m + 1) false
                    (reasoning_short result)) /\
    first <> second.
Proof.
  intros Hs Hq Hd. unfold iteration.
  set (m0 := if has_person
             then with_person_detection_count (person_detection_count m + 1) m
             else m).
  set (fr := if has_person then draw_detections frame else frame).
  assert (H0 : result_queue (network_worker m0) = result_queue (network_worker m) /\
               images m0 = images m /\
               save_alert_images m0 = save_alert_images m /\
               alert_count m0 = alert_count m /\
               last_alert_time m0 = last_alert_time m /\
               alert_cooldown_seconds m0 = alert_cooldown_seconds m)
    by (subst m0; destruct has_person; repeat split).
  destruct H0 as [A2 [A3 [A4 [A5 [A6 A7]]]]].
  destruct (escalate_frame m0 fr has_person tick)
    as [m1 [E [B2 [B3 [B4 [B5 [B6 B7]]]]]]].
  rewrite E.
  exists (display (poll_result m1 fr tick) tick).
  eexists. eexists. split; [reflexivity |].
  destruct (display_frame Frame (poll_result m1 fr tick) tick)
    as [_ [_ [_ D]]].
  rewrite D.
  rewrite (poll_result_danger m1 fr tick result rest)
    by (congruence || assumption).
  rewrite B3, B5, B6, B7, A3, A5, A6, A7.
  split; [reflexivity |]. split; [reflexivity |]. split; [reflexivity |].
  destruct (Qltb _ _); intros H; injection H; intros; try discriminate; lia.
Qed.

End EvidenceClaims.

(** The monitor made by [__init__] and [initialize] with one danger result
    waiting: the pass at the clock reading 1000 writes two images, the second
    under the next count since the alert is delivered. *)
Lemma C9_two_evidence_images_witness :
  let r := Response.mkResult (lit "raw") true (Some []) (Some [])
                             (lit "a fall") PyFloat.one in
  let w := Dispatcher.mkWorker (Queue.new (Dispatcher.Task nat) 0)
                               (Queue.mk 0 [r]) true true [r] [] in
  let m := SmartMonitor.mk w (Some []) 0 0 5 2 SmartMonitor.Monitoring
                           0 0 0 true None 5 None [] in
  let k := SmartMonitor.mkTick 1000 1000 (lit "s1") 1000 (lit "s2") (lit "s3") in
  exists m',
    SmartMonitor.iteration S (lit "prompt") m 7%nat false k = Returns m' /\
    map (fun i => (SmartMonitor.image_alert_count (fst i),
                   SmartMonitor.image_cooldown_tag (fst i)))
        (SmartMonitor.images m') = [(0%Z, false); (1%Z, false)].
Proof.
  intros r w m k.
  destruct (C9_two_evidence_images nat S (lit "prompt") m 7%nat false k r []
              eq_refl eq_refl eq_refl)
    as [m' [first [second [E [Hi [H1 [H2 _]]]]]]].
  exists m'. split; [exact E |].
  rewrite Hi, H1, H2. reflexivity.
Defined.

(* ================================================================== *)
(** * Response normalization: what surrounds the braces *)
(* ================================================================== *)

Section AroundTheBraces.

Import PyFloat Json Builtins Response ResponseSpec.

Lemma lstrip_decomp (s : pystr) :
  exists pre, s = pre ++ lstrip s /\ Forall (fun c => isspace c = true) pre.
Proof.
  induction s as [| c s [pre [E F]]]; simpl.
  - exists []. split; [reflexivity | constructor].
  - destruct (isspace c) eqn:Hc.
    + exists (c :: pre). split; [simpl; now rewrite <- E | now constructor].
    + exists []. split; [reflexivity | constructor].
Qed.

Lemma rstrip_decomp (s : pystr) :
  exists post, s = rstrip s ++ post /\ Forall (fun c => isspace c = true) post.
Proof.
  unfold rstrip. destruct (lstrip_decomp (rev s)) as [pre [E F]].
  exists (rev pre). split.
  - rewrite <- (rev_involutive s) at 1. rewrite E at 1.
    now rewrite rev_app_distr.
  - apply Forall_rev. exact F.
Qed.

Lemma space_no_brace (l : pystr) :
  Forall (fun c => isspace c = true) l -> Forall no_brace l.
Proof.
  apply Forall_impl. intros c Hc.
  split; intros ->; discriminate Hc.
Qed.

(** The cleaning of lines 152-161 only takes characters off the two ends, and
    none of them is a brace. *)
Lemma clean_decomp (text : pystr) :
  exists pre post,
    text = pre ++ clean text ++ post /\ Forall no_brace pre /\ Forall no_brace post.
Proof.
  unfold clean.
  destruct (lstrip_decomp text) as [p1 [E1 F1]].
  destruct (rstrip_decomp (lstrip text)) as [q1 [E2 G1]].
  fold (strip text) in E2.
  remember (strip text) as s1 eqn:D1. clear D1.
  remember (if startswith fence_json s1 then drop 7 s1
            else if startswith fence s1 then drop 3 s1 else s1) as s2 eqn:D2.
  assert (H2 : exists p2, s1 = p2 ++ s2 /\ Forall no_brace p2).
  { subst s2. destruct (startswith fence_json s1) eqn:A.
    - apply startswith_app in A. destruct A as [rest A].
      exists fence_json. split; [rewrite A; reflexivity |].
      repeat constructor; discriminate.
    - destruct (startswith fence s1) eqn:A'.
      + apply startswith_app in A'. destruct A' as [rest A'].
        exists fence. split; [rewrite A'; reflexivity |].
        repeat constructor; discriminate.
      + exists []. split; [reflexivity | constructor]. }
  clear D2. destruct H2 as [p2 [E3 F2]].
  remember (if endswith fence s2 then drop_last 3 s2 else s2) as s3 eqn:D3.
  assert (H3 : exists q2, s2 = s3 ++ q2 /\ Forall no_brace q2).
  { subst s3. destruct (endswith fence s2) eqn:A.
    - apply endswith_app in A. destruct A as [rest A].
      exists fence. split.
      { rewrite A. change 3%nat with (length fence).
        now rewrite drop_last_app. }
      repeat constructor; discriminate.
    - exists []. split; [now rewrite app_nil_r | constructor]. }
  clear D3. destruct H3 as [q2 [E4 G2]].
  destruct (lstrip_decomp s3) as [p3 [E5 F3]].
  destruct (rstrip_decomp (lstrip s3)) as [q3 [E6 G3]].
  fold (strip s3) in E6.
  exists (p1 ++ p2 ++ p3), (q3 ++ q2 ++ q1).
  split.
  - transitivity (p1 ++ (p2 ++ ((p3 ++ (strip s3 ++ q3)) ++ q2)) ++ q1).
    + rewrite <- E6, <- E5, <- E4, <- E3, <- E2. exact E1.
    + now rewrite <- !app_assoc.
  - split.
    + apply Forall_app. split; [now apply space_no_brace |].
      apply Forall_app. split; [assumption | now apply space_no_brace].
    + apply Forall_app. split; [now apply space_no_brace |].
      apply Forall_app. split; [assumption | now apply space_no_brace].
Qed.

Lemma find_nonneg (c : N) (s : pystr) : In c s -> (0 <= find c s)%Z.
Proof.
  intros H. destruct (find_spec c s) as [H1 H2].
  assert (find c s <> -1)%Z by (intros E; apply H2 in E; contradiction).
  lia.
Qed.

Lemma rfind_nonneg (c : N) (s : pystr) : In c s -> (0 <= rfind c s)%Z.
Proof.
  intros H. destruct (rfind_spec c s) as [H1 H2].
  assert (rfind c s <> -1)%Z by (intros E; apply H2 in E; contradiction).
  lia.
Qed.

Lemma rfind_lt_length (c : N) (s : pystr) :
  (rfind c s < Z.of_nat (length s))%Z.
Proof.
  induction s as [| x s IH]; simpl length; [simpl; lia |].
  cbn [rfind]. destruct (rfind c s) as [| p | p] eqn:E; try lia.
  destruct (N.eqb x c); lia.
Qed.

Lemma find_prefix (c : N) (pre s : pystr) :
  Forall (fun x => x <> c) pre -> In c s ->
  find c (pre ++ s) = (Z.of_nat (length pre) + find c s)%Z.
Proof.
  intros Hp Hs. induction Hp as [| x pre Hx Hp IH]; [reflexivity |].
  cbn [app find length]. apply N.eqb_neq in Hx. rewrite Hx, IH.
  pose proof (find_nonneg c s Hs).
  destruct (Z.of_nat (length pre) + find c s)%Z eqn:E; lia.
Qed.

Lemma find_suffix (c : N) (s post : pystr) :
  In c s -> find c (s ++ post) = find c s.
Proof.
  induction s as [| x s IH]; intros H; [destruct H |].
  cbn [app find]. destruct (N.eqb_spec x c) as [-> | Hne]; [reflexivity |].
  destruct H as [H | H]; [contradiction |]. now rewrite IH.
Qed.

Lemma rfind_prefix (c : N) (pre s : pystr) :
  In c s -> rfind c (pre ++ s) = (Z.of_nat (length pre) + rfind c s)%Z.
Proof.
  intros Hs. induction pre as [| x pre IH]; [reflexivity |].
  cbn [app rfind length]. rewrite IH.
  pose proof (rfind_nonneg c s Hs).
  destruct (Z.of_nat (length pre) + rfind c s)%Z eqn:E; lia.
Qed.

Lemma rfind_suffix (c : N) (s post : pystr) :
  Forall (fun x => x <> c) post -> rfind c (s ++ post) = rfind c s.
Proof.
  intros Hp. induction s as [| x s IH].
  - simpl. apply (proj2 (rfind_spec c post)).
    intros H. rewrite Forall_forall in Hp. now apply (Hp c H).
  - cbn [app rfind]. now rewrite IH.
Qed.

Lemma slice_prefix (pre s : pystr) (a b : Z) :
  (0 <= a)%Z ->
  slice (Z.of_nat (length pre) + a) (Z.of_nat (length pre) + b) (pre ++ s) =
  slice a b s.
Proof.
  intros Ha. unfold slice.
  replace (Z.of_nat (length pre) + b - (Z.of_nat (length pre) + a))%Z
    with (b - a)%Z by lia.
  replace (Z.to_nat (Z.of_nat (length pre) + a))
    with (length pre + Z.to_nat a)%nat by lia.
  rewrite skipn_app.
  replace (length pre + Z.to_nat a - length pre)%nat with (Z.to_nat a) by lia.
  rewrite skipn_all2 by lia. reflexivity.
Qed.

Lemma slice_suffix (s post : pystr) (a b : Z) :
  (0 <= a)%Z -> (b <= Z.of_nat (length s))%Z ->
  slice a b (s ++ post) = slice a b s.
Proof.
  intros Ha Hb. unfold slice.
  destruct (Z.le_gt_cases b a) as [Hba | Hab].
  - replace (Z.to_nat (b - a)) with 0%nat by lia. reflexivity.
  - rewrite skipn_app.
    replace (Z.to_nat a - length s)%nat with 0%nat by lia.
    cbn [skipn]. rewrite firstn_app, length_skipn.
    replace (Z.to_nat (b - a) - (length s - Z.to_nat a))%nat with 0%nat by lia.
    cbn [firstn]. now rewrite app_nil_r.
Qed.

(** Characters that are no braces, put before and after a text that has both
    braces, do not change what lies between its braces. *)
Lemma between_braces_trim (pre mid post : pystr) :
  Forall no_brace pre -> Forall no_brace post ->
  In lbrace mid -> In rbrace mid ->
  between_braces (pre ++ mid ++ post) = between_braces mid.
Proof.
  intros Hp Hq Hl Hr. unfold between_braces.
  assert (Hp' : Forall (fun x => x <> lbrace) pre)
    by (revert Hp; apply Forall_impl; intros x [H _]; exact H).
  assert (Hq' : Forall (fun x => x <> rbrace) post)
    by (revert Hq; apply Forall_impl; intros x [_ H]; exact H).
  rewrite find_prefix by (try assumption; apply in_or_app; now left).
  rewrite rfind_prefix by (apply in_or_app; now left).
  rewrite find_suffix, rfind_suffix by assumption.
  rewrite <- Z.add_assoc.
  rewrite slice_prefix by now apply find_nonneg.
  apply slice_suffix; [now apply find_nonneg |].
  pose proof (rfind_lt_length rbrace mid). lia.
Qed.

(** The text handed to [json.loads] is the raw text from its first opening
    brace to its last closing brace: the stripping of white space and of code
    fences makes no difference to it. *)
Lemma json_str_between_braces (text : pystr) :
  json_found text = true -> json_str text = between_braces text.
Proof.
  intros H. apply json_found_iff in H. destruct H as [Hl Hr].
  destruct (clean_decomp text) as [pre [post [E [Hp Hq]]]].
  change (json_str text) with (between_braces (clean text)).
  rewrite E at 2. symmetry. apply between_braces_trim; try assumption.
  - apply In_clean; [reflexivity | | assumption].
    unfold fence_json, lit; simpl; intuition discriminate.
  - apply In_clean; [reflexivity | | assumption].
    unfold fence_json, lit; simpl; intuition discriminate.
Qed.

End AroundTheBraces.

Section AroundTheBracesResults.

Import PyFloat Json Builtins Response ResponseSpec.

(** What [_parse_response] returns on a text with both braces, as a function
    of the text between them. *)
Lemma parse_found (B : PyBuiltins) (text : pystr) :
  json_found text = true ->
  _parse_response B text =
  match loads (recursion_depth B) (json_str text) with
  | inl e =>
      (mkResult text false (Some []) (Some []) text half,
       [Log WARNING (if is_JSONDecodeError e then MsgJsonFailed
                     else MsgParseFailed)])
  | inr (JObject d) =>
      match py_float B (dict_get d (lit "confidence") (JFloat half)) with
      | inr x =>
          (mkResult text
             (truthy (dict_get d (lit "is_danger") (JBool false)))
             (Some (py_str B (dict_get d (lit "alert_type") (JString []))))
             (Some (py_str B (dict_get d (lit "alert_message") (JString []))))
             (py_str B (dict_get d (lit "reasoning") (JString [])))
             (clamp x), [])
      | inl e =>
          (mkResult text
             (truthy (dict_get d (lit "is_danger") (JBool false)))
             (Some (py_str B (dict_get d (lit "alert_type") (JString []))))
             (Some (py_str B (dict_get d (lit "alert_message") (JString []))))
             text half,
           [Log WARNING (if is_JSONDecodeError e then MsgJsonFailed
                         else MsgParseFailed)])
      end
  | inr _ =>
      (mkResult text false (Some []) (Some []) text half,
       [Log WARNING MsgParseFailed])
  end.
Proof.
  intros H. unfold _parse_response, try_block. rewrite H.
  unfold bind, eval.
  destruct (loads (recursion_depth B) (json_str text)) as [e | v]; [reflexivity |].
  destruct v; try reflexivity.
  unfold py_get. destruct (py_float B _); reflexivity.
Qed.

(** Prose, white space or code fences before and after a response that has
    both braces change nothing but the raw text kept in the result: the same
    text goes to [json.loads], the same handler runs, and the fields taken
    from the JSON are the same. *)
Theorem parse_ignores_text_around_braces
        (B : PyBuiltins) (pre text post : pystr) :
  Forall no_brace pre -> Forall no_brace post ->
  json_found text = true ->
  let r := _parse_response B text in
  let r' := _parse_response B (pre ++ text ++ post) in
  json_str (pre ++ text ++ post) = between_braces text /\
  snd r' = snd r /\
  is_danger (fst r') = is_danger (fst r) /\
  alert_type (fst r') = alert_type (fst r) /\
  alert_message (fst r') = alert_message (fst r) /\
  confidence (fst r') = confidence (fst r) /\
  (snd r = [] -> reasoning (fst r') = reasoning (fst r)).
Proof.
  intros Hp Hq Hf r r'. subst r r'.
  assert (Hf' : json_found (pre ++ text ++ post) = true).
  { apply json_found_iff in Hf. destruct Hf as [Hl Hr].
    apply json_found_iff. split; apply in_or_app; right; apply in_or_app;
      now left. }
  assert (Hj : json_str (pre ++ text ++ post) = json_str text).
  { rewrite !json_str_between_braces by assumption.
    apply json_found_iff in Hf. destruct Hf as [Hl Hr].
    now apply between_braces_trim. }
  split; [rewrite Hj; now apply json_str_between_braces |].
  rewrite (parse_found B text Hf), (parse_found B _ Hf'), Hj.
  destruct (loads (recursion_depth B) (json_str text)) as [e | v].
  - cbn. repeat split. discriminate.
  - destruct v; cbn; try (repeat split; discriminate).
    destruct (py_float B _); cbn; repeat split. discriminate.
Qed.

Lemma parse_ignores_text_around_braces_witness :
  let inner := jq "{'is_danger': true, 'confidence': 0.5}" in
  let text := lit "Sure, here it is: ```json " ++ inner ++ lit " ``` Done." in
  is_danger (fst (_parse_response sample_builtins text)) = true /\
  json_str text = inner.
Proof.
  intros inner text.
  destruct (parse_ignores_text_around_braces sample_builtins
              (lit "Sure, here it is: ```json ") inner (lit " ``` Done."))
    as [H1 [_ [H3 _]]].
  - repeat constructor; discriminate.
  - repeat constructor; discriminate.
  - reflexivity.
  - exact (conj H3 H1).
Defined.

(** A JSON string given for ["is_danger"] counts as true whenever it is not
    empty, the strings ["false"] and ["no"] included: [bool] of a [str] looks
    at its length only. *)
Theorem string_is_danger_is_truthy
        (B : PyBuiltins) (text : pystr) (d : list (pystr * json))
        (c : N) (s : pystr) :
  json_found text = true ->
  loads (recursion_depth B) (json_str text) = inr (JObject d) ->
  lookup (lit "is_danger") d = Some (JString (c :: s)) ->
  is_danger (fst (_parse_response B text)) = true.
Proof.
  intros Hf Hl Hk. rewrite (parse_found B text Hf), Hl.
  assert (Ht : truthy (dict_get d (lit "is_danger") (JBool false)) = true)
    by (unfold dict_get; rewrite Hk; reflexivity).
  destruct (py_float B _); cbn [fst is_danger]; exact Ht.
Qed.

Lemma string_is_danger_is_truthy_witness :
  is_danger (fst (_parse_response sample_builtins
                    (jq "{'is_danger': 'false', 'confidence': 0.9}"))) = true.
Proof.
  exact (string_is_danger_is_truthy sample_builtins
           (jq "{'is_danger': 'false', 'confidence': 0.9}")
           [(lit "is_danger", JString (lit "false"));
            (lit "confidence", JFloat (of_decimal false 9 (-1)))]
           102%N (lit "alse") eq_refl eq_refl eq_refl).
Defined.

End AroundTheBracesResults.

(* ================================================================== *)
(** * The dispatcher: results in the order of the tasks *)
(* ================================================================== *)

Section DispatcherOrder.

Import Builtins Response Dispatcher DispatcherSpec.

Variable Frame : Type.
Variable B : PyBuiltins.

Lemma firstn_min_cons (A : Type) (x : A) (l : list A) (t : nat) :
  firstn (Nat.min (S (length l)) (S t)) (x :: l) =
  x :: firstn (Nat.min (length l) t) l.
Proof. reflexivity. Qed.

(** The state [GeminiWorker]'s loop ends in: the first [n] tasks are taken
    and the results of the first [n] outcomes are added, [n] being the
    smaller of the numbers of tasks and of outcomes. *)
Lemma gemini_loop_state (world : list GeminiWorker.api_outcome)
      (w : Worker Frame) :
  running w = true ->
  (Queue.maxsize (result_queue w) <= 0)%Z ->
  let n := Nat.min (length world) (length (Queue.items (task_queue w))) in
  exists w',
    GeminiWorker._worker_loop B world w = Returns w' /\
    Queue.items (task_queue w') = skipn n (Queue.items (task_queue w)) /\
    Queue.items (result_queue w') =
      Queue.items (result_queue w) ++ map (gemini_result B) (firstn n world) /\
    delivered w' =
      delivered w ++
      (if callback w then map (gemini_result B) (firstn n world) else []).
Proof.
  revert w. induction world as [| o world IH]; intros w Hr Hm n; subst n.
  - exists w. simpl. destruct (callback w); now rewrite ?app_nil_r.
  - unfold GeminiWorker._worker_loop. simpl worker_loop. rewrite Hr.
    unfold Queue.get_nowait.
    destruct (Queue.items (task_queue w)) as [| task rest] eqn:Ht.
    + exists w. rewrite Ht. simpl.
      destruct (callback w); now rewrite ?app_nil_r.
    + set (w0 := with_task_queue (Queue.mk (Queue.maxsize (task_queue w)) rest) w).
      assert (Hf : forall l, Queue.full (result_queue (logging l w0)) = false)
        by (intros l; apply unbounded_never_full; exact Hm).
      simpl length. rewrite firstn_min_cons.
      replace (Nat.min (S (length world)) (S (length rest)))
        with (S (Nat.min (length world) (length rest))) by reflexivity.
      cbn [skipn map].
      destruct o as [text | message].
      * unfold GeminiWorker.handle_task. cbn [gemini_result].
        destruct (GeminiWorker._parse_response B text) as [parsed warnings].
        unfold publish, Queue.put. rewrite Hf.
        match goal with
        | |- context [worker_loop _ world ?w1] =>
            destruct (IH w1 Hr Hm) as [w' [E [H1 [H2 H3]]]]
        end.
        exists w'. split; [exact E |]. simpl in H1, H2, H3.
        rewrite H1, H2, H3. cbn [fst].
        destruct (callback w); rewrite <- ?app_assoc; repeat split.
      * unfold GeminiWorker.handle_task, publish, Queue.put. rewrite Hf.
        match goal with
        | |- context [worker_loop _ world ?w1] =>
            destruct (IH w1 Hr Hm) as [w' [E [H1 [H2 H3]]]]
        end.
        exists w'. split; [exact E |]. simpl in H1, H2, H3.
        rewrite H1, H2, H3. cbn [gemini_result].
        destruct (callback w); rewrite <- ?app_assoc; repeat split.
Qed.

(** The state [NetworkWorker]'s loop ends in: the first [n] tasks are taken,
    and only the replies among the first [n] outcomes gave a result. *)
Lemma network_loop_state (world : list NetworkWorker.http_outcome)
      (w : Worker Frame) :
  running w = true ->
  (Queue.maxsize (result_queue w) <= 0)%Z ->
  let n := Nat.min (length world) (length (Queue.items (task_queue w))) in
  exists w',
    NetworkWorker._worker_loop B world w = Returns w' /\
    Queue.items (task_queue w') = skipn n (Queue.items (task_queue w)) /\
    Queue.items (result_queue w') =
      Queue.items (result_queue w) ++ network_results B (firstn n world) /\
    delivered w' =
      delivered w ++
      (if callback w then network_results B (firstn n world) else []).
Proof.
  revert w. induction world as [| o world IH]; intros w Hr Hm n; subst n.
  - exists w. simpl. destruct (callback w); now rewrite ?app_nil_r.
  - unfold NetworkWorker._worker_loop. simpl worker_loop. rewrite Hr.
    unfold Queue.get_nowait.
    destruct (Queue.items (task_queue w)) as [| task rest] eqn:Ht.
    + exists w. rewrite Ht. simpl.
      destruct (callback w); now rewrite ?app_nil_r.
    + set (w0 := with_task_queue (Queue.mk (Queue.maxsize (task_queue w)) rest) w).
      assert (Hf : forall l, Queue.full (result_queue (logging l w0)) = false)
        by (intros l; apply unbounded_never_full; exact Hm).
      simpl length. rewrite firstn_min_cons.
      replace (Nat.min (S (length world)) (S (length rest)))
        with (S (Nat.min (length world) (length rest))) by reflexivity.
      cbn [skipn]. unfold network_results. cbn [flat_map].
      fold (network_results B (firstn (Nat.min (length world) (length rest)) world)).
      destruct o as [text | |].
      * unfold NetworkWorker.handle_task.
        destruct (NetworkWorker._parse_response B text) as [parsed warnings].
        unfold publish, Queue.put. rewrite Hf.
        match goal with
        | |- context [worker_loop _ world ?w1] =>
            destruct (IH w1 Hr Hm) as [w' [E [H1 [H2 H3]]]]
        end.
        exists w'. split; [exact E |]. simpl in H1, H2, H3.
        rewrite H1, H2, H3. cbn [fst app].
        destruct (callback w); rewrite <- ?app_assoc; repeat split.
      * unfold NetworkWorker.handle_task.
        match goal with
        | |- context [worker_loop _ world ?w1] =>
            destruct (IH w1 Hr Hm) as [w' [E [H1 [H2 H3]]]]
        end.
        exists w'. split; [exact E |]. simpl in H1, H2, H3.
        rewrite H1, H2, H3. repeat split.
      * unfold NetworkWorker.handle_task.
        match goal with
        | |- context [worker_loop _ world ?w1] =>
            destruct (IH w1 Hr Hm) as [w' [E [H1 [H2 H3]]]]
        end.
        exists w'. split; [exact E |]. simpl in H1, H2, H3.
        rewrite H1, H2, H3. repeat split.
Qed.

(** [n] calls of [get_result] hand out the queued results from the oldest
    on, then [None]. *)
Lemma poll_items (n : nat) (w : Worker Frame) :
  fst (poll n w) =
    map Some (firstn n (Queue.items (result_queue w))) ++
    repeat None (n - length (Queue.items (result_queue w))) /\
  Queue.items (result_queue (snd (poll n w))) =
    skipn n (Queue.items (result_queue w)) /\
  task_queue (snd (poll n w)) = task_queue w.
Proof.
  revert w. induction n as [| n IH]; intros w; [now simpl |].
  cbn [poll]. unfold get_result, Queue.get_nowait.
  destruct (Queue.items (result_queue w)) as [| r rest] eqn:Hi.
  - destruct (poll n w) as [rs w2] eqn:Hp.
    destruct (IH w) as [H1 [H2 H3]]. rewrite Hp in H1, H2, H3.
    rewrite Hi in H1, H2. cbn [fst snd] in *. rewrite H1, H2, H3.
    rewrite firstn_nil, skipn_nil, Nat.sub_0_r. simpl. repeat split.
  - match goal with
    | |- context [poll n ?w1] =>
        destruct (poll n w1) as [rs w2] eqn:Hp;
        destruct (IH w1) as [H1 [H2 H3]]
    end.
    rewrite Hp in H1, H2, H3. cbn [fst snd] in *. simpl in H1, H2, H3.
    rewrite H1, H2, H3. simpl. repeat split.
Qed.

(** In [GeminiWorker], the results come in the order of the tasks, one for
    each task taken, a failed call included; the callback is given the same
    results in the same order. *)
Theorem gemini_results_follow_tasks
        (world : list GeminiWorker.api_outcome) (w : Worker Frame) :
  running w = true ->
  (Queue.maxsize (result_queue w) <= 0)%Z ->
  (length world <= length (Queue.items (task_queue w)))%nat ->
  exists w',
    GeminiWorker._worker_loop B world w = Returns w' /\
    Queue.items (task_queue w') =
      skipn (length world) (Queue.items (task_queue w)) /\
    Queue.items (result_queue w') =
      Queue.items (result_queue w) ++ map (gemini_result B) world /\
    (callback w = true ->
     delivered w' = delivered w ++ map (gemini_result B) world).
Proof.
  intros Hr Hm Hl.
  destruct (gemini_loop_state world w Hr Hm) as [w' [E [H1 [H2 H3]]]].
  rewrite Nat.min_l in H1, H2, H3 by exact Hl.
  rewrite firstn_all in H2, H3.
  exists w'. repeat split; try assumption.
  intros Hc. now rewrite Hc in H3.
Qed.

(** In [NetworkWorker], a task whose exchange fails is taken off the queue
    and leaves no result: after the loop there are as many results fewer
    than tasks taken as there were failures, and nothing in a result says
    which task it answers. *)
Theorem network_results_skip_failures
        (world : list NetworkWorker.http_outcome) (w : Worker Frame) :
  running w = true ->
  (Queue.maxsize (result_queue w) <= 0)%Z ->
  (length world <= length (Queue.items (task_queue w)))%nat ->
  exists w',
    NetworkWorker._worker_loop B world w = Returns w' /\
    Queue.items (task_queue w') =
      skipn (length world) (Queue.items (task_queue w)) /\
    Queue.items (result_queue w') =
      Queue.items (result_queue w) ++ network_results B world /\
    (length (network_results B world) +
     length (filter (fun o => match o with
                              | NetworkWorker.HttpReply _ => false
                              | _ => true
                              end) world) = length world)%nat.
Proof.
  intros Hr Hm Hl.
  destruct (network_loop_state world w Hr Hm) as [w' [E [H1 [H2 H3]]]].
  rewrite Nat.min_l in H1, H2 by exact Hl.
  rewrite firstn_all in H2.
  exists w'. repeat split; try assumption.
  clear. induction world as [| [text | |] world IH]; simpl; lia.
Qed.

(** [submit_task] touches the task queue and the log only. *)
Lemma submit_tasks_frame (calls : list (Frame * pystr * Q))
      (w w' : Worker Frame) :
  submit_tasks w calls = Returns w' ->
  running w' = running w /\ callback w' = callback w /\
  result_queue w' = result_queue w /\ delivered w' = delivered w.
Proof.
  revert w. induction calls as [| [[f q] now] calls IH]; intros w E;
    simpl in E.
  - injection E as <-. now repeat split.
  - unfold submit_task, Queue.put in E.
    destruct (Queue.full (task_queue w)); apply IH in E; exact E.
Qed.

(** Submitting tasks to a fresh worker, letting [GeminiWorker]'s loop handle
    them and then polling: [get_result] returns one result a task, in the
    order of submission, and [None] from then on. *)
Theorem gemini_round_trip
        (calls : list (Frame * pystr * Q))
        (world : list GeminiWorker.api_outcome) (more : nat) :
  length world = length calls ->
  exists w1 w2,
    submit_tasks (start (__init__ Frame)) calls = Returns w1 /\
    GeminiWorker._worker_loop B world w1 = Returns w2 /\
    Queue.items (task_queue w2) = [] /\
    delivered w2 = map (gemini_result B) world /\
    fst (poll (length calls + more) w2) =
      map Some (map (gemini_result B) world) ++ repeat None more.
Proof.
  intros Hlen.
  destruct (submit_tasks_unbounded Frame calls (start (__init__ Frame))
              (Z.le_refl 0)) as [w1 [E1 [Hm [Hi Hl]]]].
  destruct (submit_tasks_frame calls _ _ E1) as [Hr [Hc [Hq Hd]]].
  simpl in Hi, Hr, Hc, Hq, Hd.
  assert (Hmax : (Queue.maxsize (result_queue w1) <= 0)%Z)
    by (rewrite Hq; simpl; lia).
  destruct (gemini_loop_state world w1 Hr Hmax) as [w2 [E2 [H1 [H2 H3]]]].
  rewrite Hi, length_map, Hlen, Nat.min_id in H1, H2, H3.
  rewrite <- Hlen, firstn_all in H2, H3.
  rewrite Hq in H2. rewrite Hc, Hd in H3. simpl in H2, H3.
  exists w1, w2. split; [exact E1 |]. split; [exact E2 |].
  split.
  { rewrite H1, skipn_all2; [reflexivity |]. rewrite length_map. lia. }
  split; [exact H3 |].
  destruct (poll_items (length calls + more) w2) as [P _].
  rewrite P, H2, <- Hlen.
  rewrite firstn_all2, length_map by (rewrite length_map; lia).
  now replace (length world + more - length world)%nat with more by lia.
Qed.

End DispatcherOrder.

Lemma gemini_results_follow_tasks_witness :
  let w := Dispatcher.mkWorker
             (Queue.mk 0 [Dispatcher.mkTask 1%nat (lit "a") 0;
                          Dispatcher.mkTask 2%nat (lit "b") 1])
             (Queue.new Response.AnalysisResult 0) true true [] [] in
  exists w',
    GeminiWorker._worker_loop Builtins.sample_builtins
      [GeminiWorker.ApiException (lit "quota")] w = Returns w' /\
    Queue.items (Dispatcher.result_queue w') =
      [GeminiWorker.error_result (lit "quota")] /\
    Dispatcher.delivered w' = [GeminiWorker.error_result (lit "quota")].
Proof.
  intros w.
  destruct (gemini_results_follow_tasks nat Builtins.sample_builtins
              [GeminiWorker.ApiException (lit "quota")] w
              eq_refl (Z.le_refl 0) (le_S 1 1 (le_n 1)))
    as [w' [E [_ [H2 H3]]]].
  exists w'. exact (conj E (conj H2 (H3 eq_refl))).
Defined.

Lemma network_results_skip_failures_witness :
  let w := Dispatcher.mkWorker
             (Queue.mk 0 [Dispatcher.mkTask 1%nat (lit "a") 0;
                          Dispatcher.mkTask 2%nat (lit "b") 1])
             (Queue.new Response.AnalysisResult 0) true true [] [] in
  exists w',
    NetworkWorker._worker_loop Builtins.sample_builtins
      [NetworkWorker.RequestException; NetworkWorker.HttpReply (lit "ok")] w
      = Returns w' /\
    Queue.items (Dispatcher.task_queue w') = [] /\
    Queue.items (Dispatcher.result_queue w') =
      [fst (Response._parse_response Builtins.sample_builtins (lit "ok"))].
Proof.
  intros w.
  destruct (network_results_skip_failures nat Builtins.sample_builtins
              [NetworkWorker.RequestException;
               NetworkWorker.HttpReply (lit "ok")] w
              eq_refl (Z.le_refl 0) (le_n 2))
    as [w' [E [H1 [H2 _]]]].
  exists w'. exact (conj E (conj H1 H2)).
Defined.

Lemma gemini_round_trip_witness :
  exists w1 w2,
    Dispatcher.submit_tasks (Dispatcher.start (Dispatcher.__init__ nat))
                 [(1%nat, lit "a", 0); (2%nat, lit "b", 1)] = Returns w1 /\
    GeminiWorker._worker_loop Builtins.sample_builtins
      [GeminiWorker.ApiException (lit "quota");
       GeminiWorker.ApiReply (lit "no danger")] w1 = Returns w2 /\
    fst (DispatcherSpec.poll 3 w2) =
      [Some (GeminiWorker.error_result (lit "quota"));
       Some (fst (Response._parse_response Builtins.sample_builtins (lit "no danger")));
       None].
Proof.
  destruct (gemini_round_trip nat Builtins.sample_builtins
              [(1%nat, lit "a", 0); (2%nat, lit "b", 1)]
              [GeminiWorker.ApiException (lit "quota");
               GeminiWorker.ApiReply (lit "no danger")] 1 eq_refl)
    as [w1 [w2 [E1 [E2 [_ [_ P]]]]]].
  exists w1, w2. exact (conj E1 (conj E2 P)).
Defined.

(* ================================================================== *)
(** * The coordinator over any run of calls *)
(* ================================================================== *)

Section CoordinatorRuns.

Import Response SmartMonitor CooldownSpec.

Variable Frame : Type.
Variable draw_detections : Frame -> Frame.
Variable prompt : pystr.

(** What one call of [_trigger_alert] with a frame does to the fields of the
    alert cooldown, by the branch taken. *)
Lemma trigger_alert_step (m : SmartMonitor.t Frame) result frame tick :
  let m' := _trigger_alert m result (Some frame) tick in
  alert_cooldown_seconds m' = alert_cooldown_seconds m /\
  save_alert_images m' = save_alert_images m /\
  length (images m') =
    (length (images m) + (if save_alert_images m then 1 else 0))%nat /\
  (if Qltb (alert_time tick - last_alert_time m) (alert_cooldown_seconds m)
   then alert_count m' = alert_count m /\
        last_alert_time m' = last_alert_time m /\
        alert_notifier m' = alert_notifier m
   else alert_count m' = (alert_count m + 1)%Z /\
        last_alert_time m' = alert_time tick /\
        alert_notifier m' =
          option_map
            (fun sent =>
               sent ++ [mkAlert rule_name_text
                                (description_prefix ++ reasoning result)
                                severity_high location_text
                                (stamp_alert tick)])
            (alert_notifier m)).
Proof.
  destruct m as [w n lu la cs acs st ac anc pdc sv ds dd lr im].
  unfold _trigger_alert, _save_alert_image. simpl.
  destruct (Qltb (alert_time tick - la) acs); destruct sv; destruct n; simpl;
    rewrite ?length_app; simpl; repeat split; lia.
Qed.

(** Whatever the danger results and the clock readings they come with, two
    alerts that are counted are at least [alert_cooldown_seconds] apart, and
    the first at least that long after the last one before. *)
Theorem alerts_are_spaced
        (calls : list (AnalysisResult * Frame * Tick))
        (m : SmartMonitor.t Frame) :
  spaced (alert_cooldown_seconds m) (last_alert_time m) (alert_times m calls).
Proof.
  revert m. induction calls as [| [[result frame] tick] calls IH]; intros m;
    [exact I |].
  cbn [alert_times].
  pose proof (trigger_alert_step m result frame tick) as [Hc [_ [_ Hb]]].
  specialize (IH (_trigger_alert m result (Some frame) tick)).
  destruct (Qltb (alert_time tick - last_alert_time m)
                 (alert_cooldown_seconds m)) eqn:G.
  - destruct Hb as [H1 [H2 _]]. rewrite H1, Z.eqb_refl.
    rewrite Hc, H2 in IH. exact IH.
  - destruct Hb as [H1 [H2 _]]. rewrite H1.
    replace (alert_count m + 1 =? alert_count m)%Z with false
      by (symmetry; apply Z.eqb_neq; lia).
    cbn [app spaced]. rewrite Hc, H2 in IH.
    split; [now apply Qltb_false_iff | exact IH].
Qed.


(** Over any stream of frames, two uploads are at least [cooldown_seconds]
    apart by the clock of the loop, and the first at least that long after
    the last one before; the loop never waits for the dispatcher. *)
Theorem uploads_are_spaced
        (stream : list (Frame * bool * Tick)) (m : SmartMonitor.t Frame) :
  (Queue.maxsize (task_queue (network_worker m)) <= 0)%Z ->
  (exists m', run draw_detections prompt m stream = Returns m' /\
              length (tasks m') =
                (length (tasks m) +
                 length (upload_times draw_detections prompt m stream))%nat) /\
  spaced (cooldown_seconds m) (last_upload_time m)
         (upload_times draw_detections prompt m stream).
Proof.
  revert m. induction stream as [| [[frame has_person] tick] stream IH];
    intros m Hm.
  - split; [| exact I]. exists m. simpl. split; [reflexivity | lia].
  - destruct (iteration_gate Frame draw_detections prompt m frame has_person
                tick Hm) as [m1 [E [M1 [C1 [T1 L1]]]]].
    assert (Hm1 : (Queue.maxsize (task_queue (network_worker m1)) <= 0)%Z)
      by (rewrite M1; exact Hm).
    destruct (IH m1 Hm1) as [[m' [R Hlen]] Hsp].
    assert (Hu : upload_times draw_detections prompt m
                   ((frame, has_person, tick) :: stream) =
                 (if upload_gate has_person m tick then [current_time tick]
                  else []) ++
                 upload_times draw_detections prompt m1 stream).
    { cbn [upload_times]. rewrite E. cbv beta iota. rewrite T1.
      destruct (upload_gate has_person m tick).
      - rewrite length_app. cbn [length].
        replace (length (tasks m) + 1 =? length (tasks m))%nat with false
          by (symmetry; apply Nat.eqb_neq; lia).
        reflexivity.
      - now rewrite app_nil_r, Nat.eqb_refl. }
    rewrite Hu. cbn [run]. rewrite E.
    rewrite C1, L1 in Hsp.
    split.
    + exists m'. split; [exact R |].
      rewrite Hlen, T1, !length_app.
      destruct (upload_gate has_person m tick); cbn [length]; lia.
    + destruct (upload_gate has_person m tick) eqn:G; [| exact Hsp].
      cbn [app spaced]. split; [| exact Hsp].
      now apply upload_gate_iff in G.
Qed.

(** One pass of the loop when no queued result reports a danger. *)
Lemma iteration_safe (m : SmartMonitor.t Frame) frame has_person tick :
  Forall (fun r => is_danger r = false)
         (Queue.items (result_queue (network_worker m))) ->
  exists m',
    iteration draw_detections prompt m frame has_person tick = Returns m' /\
    Queue.items (result_queue (network_worker m')) =
      tl (Queue.items (result_queue (network_worker m))) /\
    analysis_count m' =
      (analysis_count m +
       match Queue.items (result_queue (network_worker m)) with
       | [] => 0
       | _ :: _ => 1
       end)%Z /\
    alert_count m' = alert_count m /\
    images m' = images m /\
    alert_notifier m' = alert_notifier m /\
    last_alert_time m' = last_alert_time m /\
    alert_display_duration m' = alert_display_duration m /\
    alert_display_start_time m' =
      match alert_display_start_time m with
      | Some start =>
          if Qltb (current_time tick - start) (alert_display_duration m)
          then Some start else None
      | None => None
      end /\
    (alert_display_start_time m' = None ->
     alert_display_start_time m <> None -> last_alert_result m' = None).
Proof.
  destruct m as [[tq [rm ri] rn cb dl lg] n lu la cs acs st ac anc pdc sv ds dd
                 lr im].
  cbn [network_worker result_queue Queue.items]. intros Hsafe.
  assert (P : forall (w : Worker Frame) lu' st' pdc',
             result_queue w = Queue.mk rm ri ->
             let m0 := SmartMonitor.mk w n lu' la cs acs st' ac anc pdc' sv ds
                                       dd lr im in
             forall f,
             let m' := display (poll_result m0 f tick) tick in
             Queue.items (result_queue (network_worker m')) = tl ri /\
             analysis_count m' =
               (anc + match ri with [] => 0 | _ :: _ => 1 end)%Z /\
             alert_count m' = ac /\ images m' = im /\
             alert_notifier m' = n /\ last_alert_time m' = la /\
             alert_display_duration m' = dd /\
             alert_display_start_time m' =
               match ds with
               | Some start =>
                   if Qltb (current_time tick - start) dd
                   then Some start else None
               | None => None
               end /\
             (alert_display_start_time m' = None ->
              ds <> None -> last_alert_result m' = None)).
  { intros [tq' rq' rn' cb' dl' lg'] lu' st' pdc' Hw m0 f. subst m0.
    cbn [result_queue] in Hw. subst rq'.
    unfold poll_result, get_result, Queue.get_nowait.
    cbn [network_worker result_queue Queue.items Queue.maxsize].
    destruct ri as [| r ri'].
    - unfold display. cbn.
      destruct ds as [s |]; [| cbn; repeat split; try lia; congruence].
      destruct (Qltb (current_time tick - s) dd); cbn;
        repeat split; try lia; congruence.
    - inversion Hsafe as [| ? ? Hr _]. subst. rewrite Hr.
      unfold display. cbn.
      destruct ds as [s |]; [| cbn; repeat split; try lia; congruence].
      destruct (Qltb (current_time tick - s) dd); cbn;
        repeat split; try lia; congruence. }
  destruct has_person; unfold iteration, escalate, submit_task, Queue.put;
    cbn [network_worker task_queue with_person_detection_count];
    match goal with
    | |- context [upload_gate ?a ?b ?c] => destruct (upload_gate a b c)
    end;
    try destruct (Queue.full tq);
    (eexists; split; [reflexivity | apply P; reflexivity]).
Qed.

(** A run of the loop in which no result reports a danger raises no alert:
    the counter, the notifier, the alert time and the images stay as they
    were, whatever the frames, the detector and the clock; each pass takes at
    most one result. *)
Theorem safe_results_raise_no_alert
        (stream : list (Frame * bool * Tick)) (m : SmartMonitor.t Frame) :
  Forall (fun r => is_danger r = false)
         (Queue.items (result_queue (network_worker m))) ->
  exists m',
    run draw_detections prompt m stream = Returns m' /\
    alert_count m' = alert_count m /\
    alert_notifier m' = alert_notifier m /\
    last_alert_time m' = last_alert_time m /\
    images m' = images m /\
    Queue.items (result_queue (network_worker m')) =
      skipn (length stream) (Queue.items (result_queue (network_worker m))) /\
    analysis_count m' =
      (analysis_count m +
       Z.of_nat (Nat.min (length stream)
                   (length (Queue.items (result_queue (network_worker m))))))%Z.
Proof.
  revert m. induction stream as [| [[frame has_person] tick] stream IH];
    intros m Hsafe.
  - exists m. cbn. repeat split. lia.
  - destruct (iteration_safe m frame has_person tick Hsafe)
      as [m1 [E [Q1 [A1 [C1 [I1 [N1 [L1 _]]]]]]]].
    assert (Hsafe1 : Forall (fun r => is_danger r = false)
                       (Queue.items (result_queue (network_worker m1)))).
    { rewrite Q1. destruct Hsafe; [constructor | assumption]. }
    destruct (IH m1 Hsafe1) as [m' [R [C [N [L [I [Q A]]]]]]].
    exists m'. cbn [run]. rewrite E. split; [exact R |].
    rewrite C, N, L, I, Q, A, C1, N1, L1, I1, Q1, A1.
    repeat split.
    + destruct (Queue.items (result_queue (network_worker m)));
        cbn [tl length skipn]; [now rewrite skipn_nil | reflexivity].
    + destruct (Queue.items (result_queue (network_worker m))) as [| r l];
        cbn [tl length]; [rewrite !Nat.min_0_r; lia |].
      rewrite <- Nat.succ_min_distr. lia.
Qed.

(** While no new danger result comes in, the alert on display stays exactly
    as long as every pass of the loop reads a clock less than
    [alert_display_duration] after its start; once taken down it does not
    come back. *)
Theorem alert_display_expires
        (stream : list (Frame * bool * Tick)) (m : SmartMonitor.t Frame) :
  Forall (fun r => is_danger r = false)
         (Queue.items (result_queue (network_worker m))) ->
  exists m',
    run draw_detections prompt m stream = Returns m' /\
    alert_display_start_time m' =
      match alert_display_start_time m with
      | Some start =>
          if forallb (fun c => Qltb (current_time (snd c) - start)
                                    (alert_display_duration m)) stream
          then Some start else None
      | None => None
      end.
Proof.
  revert m. induction stream as [| [[frame has_person] tick] stream IH];
    intros m Hsafe.
  - exists m. cbn. split; [reflexivity |].
    now destruct (alert_display_start_time m).
  - destruct (iteration_safe m frame has_person tick Hsafe)
      as [m1 [E [Q1 [_ [_ [_ [_ [_ [D1 [S1 _]]]]]]]]]].
    assert (Hsafe1 : Forall (fun r => is_danger r = false)
                       (Queue.items (result_queue (network_worker m1)))).
    { rewrite Q1. destruct Hsafe; [constructor | assumption]. }
    destruct (IH m1 Hsafe1) as [m' [R S]].
    exists m'. cbn [run]. rewrite E. split; [exact R |].
    rewrite S, S1, D1. cbn [forallb snd].
    destruct (alert_display_start_time m) as [start |]; [| reflexivity].
    destruct (Qltb (current_time tick - start) (alert_display_duration m));
      reflexivity.
Qed.

(** The part of an image's file name taken from the reasoning has at most 20
    characters and neither a space nor a slash. *)
Theorem reasoning_short_is_bounded (result : AnalysisResult) :
  (length (reasoning_short result) <= 20)%nat /\
  ~ In 32%N (reasoning_short result) /\
  ~ In 47%N (reasoning_short result).
Proof.
  unfold reasoning_short. split.
  - rewrite length_map. apply firstn_le_length.
  - split; intros H; apply in_map_iff in H; destruct H as [c [Hc _]];
      destruct (N.eqb_spec c 32); destruct (N.eqb_spec c 47);
        simpl in Hc; subst; discriminate || lia.
Qed.

End CoordinatorRuns.

Lemma uploads_are_spaced_witness :
  let m := SmartMonitor.initialized 5 (Dispatcher.__init__ nat) in
  let k1 := SmartMonitor.mkTick 1000 1000 (lit "s1") 1000 (lit "s1") (lit "s1") in
  let k2 := SmartMonitor.mkTick 1003 1003 (lit "s2") 1003 (lit "s2") (lit "s2") in
  let k3 := SmartMonitor.mkTick 1006 1006 (lit "s3") 1006 (lit "s3") (lit "s3") in
  CooldownSpec.spaced 5 0
    (CooldownSpec.upload_times S (lit "prompt") m
       [(1%nat, true, k1); (2%nat, true, k2); (3%nat, true, k3)]).
Proof.
  intros m k1 k2 k3.
  exact (proj2 (uploads_are_spaced nat S (lit "prompt")
                  [(1%nat, true, k1); (2%nat, true, k2); (3%nat, true, k3)]
                  m (Z.le_refl 0))).
Defined.

Lemma safe_results_raise_no_alert_witness :
  let safe := Response.mkResult (lit "fine") false (Some []) (Some [])
                                (lit "fine") PyFloat.half in
  let w := Dispatcher.mkWorker (Queue.new (Dispatcher.Task nat) 0)
                               (Queue.mk 0 [safe; safe]) true false [] [] in
  let m := SmartMonitor.initialized 5 w in
  let k := SmartMonitor.mkTick 1000 1000 (lit "s") 1000 (lit "s") (lit "s") in
  exists m',
    SmartMonitor.run S (lit "prompt") m [(1%nat, true, k)] = Returns m' /\
    SmartMonitor.alert_count m' = 0%Z /\
    SmartMonitor.alert_notifier m' = Some [] /\
    SmartMonitor.images m' = [].
Proof.
  intros safe w m k.
  destruct (safe_results_raise_no_alert nat S (lit "prompt")
              [(1%nat, true, k)] m
              (Forall_cons safe eq_refl
                 (Forall_cons safe eq_refl (Forall_nil _))))
    as [m' [R [C [N [_ [I _]]]]]].
  exists m'. exact (conj R (conj C (conj N I))).
Defined.

Lemma alert_display_expires_witness :
  let m := SmartMonitor.with_alert_display (Some 1000) None
             (SmartMonitor.initialized 5 (Dispatcher.__init__ nat)) in
  let k1 := SmartMonitor.mkTick 1004 1004 (lit "s1") 1004 (lit "s1") (lit "s1") in
  let k2 := SmartMonitor.mkTick 1005 1005 (lit "s2") 1005 (lit "s2") (lit "s2") in
  exists m',
    SmartMonitor.run S (lit "prompt") m [(1%nat, false, k1); (2%nat, false, k2)]
      = Returns m' /\
    SmartMonitor.alert_display_start_time m' = None.
Proof.
  intros m k1 k2.
  exact (alert_display_expires nat S (lit "prompt")
           [(1%nat, false, k1); (2%nat, false, k2)] m (Forall_nil _)).
Defined.

(* ================================================================== *)
(** * The video source and the capture thread *)
(* ================================================================== *)

Section CameraFacts.

Import CameraConnector.

Variable Frame : Type.

(** Reading from an open capture with frames ahead. *)
Lemma read_frames_stream (fs : list Frame) (rest : list (option Frame))
      (n : Z) :
  read_frames (length fs)
              (mk (Some (mkCapture true (map Some fs ++ rest))) true n) =
  (fs, mk (Some (mkCapture true rest)) true (n + Z.of_nat (length fs))).
Proof.
  revert n. induction fs as [| f fs IH]; intros n.
  - simpl. now rewrite Z.add_0_r.
  - cbn [length read_frames]. unfold read_frame, cap_read.
    cbn [is_opened cap isOpened upcoming map app frame_count].
    rewrite IH.
    replace (n + Z.of_nat (S (length fs)))%Z
      with (n + 1 + Z.of_nat (length fs))%Z by lia.
    reflexivity.
Qed.

Lemma read_frames_end (n : nat) (k : Z) :
  read_frames n (mk (Some (mkCapture true (@nil (option Frame)))) true k) =
  ([], mk (Some (mkCapture true [])) true k).
Proof. destruct n; reflexivity. Qed.

Lemma read_frames_app (a b : nat) (c : t Frame) :
  length (fst (read_frames a c)) = a ->
  read_frames (a + b) c =
  (fst (read_frames a c) ++ fst (read_frames b (snd (read_frames a c))),
   snd (read_frames b (snd (read_frames a c)))).
Proof.
  revert c. induction a as [| a IH]; intros c H.
  - simpl. now destruct (read_frames b c).
  - cbn [Nat.add read_frames] in *.
    destruct (read_frame c) as [[[|] [frame |]] c']; simpl in H;
      try discriminate.
    destruct (read_frames a c') as [frames c''] eqn:E.
    simpl in H. injection H as H.
    specialize (IH c'). rewrite E in IH. cbn [fst snd] in IH.
    rewrite (IH H). reflexivity.
Qed.

(** [connect] takes the first frame for itself: the reads that follow
    deliver the frames after it, in order, and then fail; [frame_count]
    counts the frames delivered; after [release] nothing is delivered. *)
Theorem camera_delivers_all_but_first
        (c : t Frame) (first : Frame) (fs : list Frame) (more : nat) :
  exists c1,
    connect c (Some (file_capture (first :: fs))) = (true, c1) /\
    is_connected c1 = true /\
    fst (read_frames (length fs + more) c1) = fs /\
    frame_count (snd (read_frames (length fs + more) c1)) =
      (frame_count c + Z.of_nat (length fs))%Z /\
    fst (read_frame (snd (read_frames (length fs + more) c1))) =
      (false, None) /\
    fst (read_frame (release c1)) = (false, None).
Proof.
  exists (mk (Some (mkCapture true (map Some fs))) true (frame_count c)).
  split; [reflexivity |]. split; [reflexivity |].
  pose proof (read_frames_stream fs [] (frame_count c)) as H.
  rewrite app_nil_r in H.
  rewrite read_frames_app by (rewrite H; reflexivity).
  rewrite H. cbn [fst snd]. rewrite read_frames_end. cbn [fst snd].
  rewrite app_nil_r. repeat split.
Qed.

End CameraFacts.

Section CaptureLoopFacts.

Import CameraConnector CaptureLoop.

Variable Frame : Type.

(** The pacing touches the time of the last frame and the sleeps only. *)
Lemma pace_fields (p : Pipeline Frame) (e : Pass Frame) :
  camera (pace p e) = camera p /\
  frame_queue (pace p e) = frame_queue p /\
  running (pace p e) = running p /\
  is_video_file (pace p e) = is_video_file p /\
  loop_video (pace p e) = loop_video p /\
  target_fps (pace p e) = target_fps p /\
  captured (pace p e) = captured p.
Proof.
  unfold pace.
  destruct (is_video_file p && Qltb 0 (target_fps p)); [| repeat split].
  destruct (Qltb 0 (last_frame_time p)); [| repeat split].
  destruct (Qltb _ _); repeat split.
Qed.

(** A pass whose read gives a frame. *)
Lemma pass_with_frame (p : Pipeline Frame) (e : Pass Frame) (f : Frame)
      (rest : list (option Frame)) (n : Z) :
  camera p = mk (Some (mkCapture true (Some f :: rest))) true n ->
  capture_pass p e =
  (Continue,
   enqueue f (with_camera (mk (Some (mkCapture true rest)) true (n + 1))
                          (pace p e))).
Proof.
  intros Hc. unfold capture_pass.
  destruct (pace_fields p e) as [H _]. rewrite H, Hc. reflexivity.
Qed.

(** The loop over frames that are there to read: all of them are handed to
    the queue, in order. *)
Lemma loop_reads (fs : list Frame) :
  forall (p : Pipeline Frame) (ps1 ps2 : list (Pass Frame))
         (rest : list (option Frame)) (n : Z) (items : list Frame),
    running p = true ->
    camera p = mk (Some (mkCapture true (map Some fs ++ rest))) true n ->
    frame_queue p = Queue.mk 2 items -> (length items <= 2)%nat ->
    length ps1 = length fs ->
    exists p',
      _capture_loop p (ps1 ++ ps2) = _capture_loop p' ps2 /\
      running p' = true /\
      camera p' =
        mk (Some (mkCapture true rest)) true (n + Z.of_nat (length fs)) /\
      frame_queue p' = Queue.mk 2 (VideoPipeline.last_two (items ++ fs)) /\
      captured p' = captured p ++ fs /\
      is_video_file p' = is_video_file p /\
      loop_video p' = loop_video p /\
      target_fps p' = target_fps p.
Proof.
  induction fs as [| f fs IH]; intros p ps1 ps2 rest n items Hr Hc Hq Hl Hlen.
  - destruct ps1; [| discriminate]. exists p. simpl.
    rewrite Z.add_0_r, !app_nil_r. repeat split; try assumption.
    rewrite Hq. unfold VideoPipeline.last_two.
    now replace (length items - 2)%nat with 0%nat by lia.
  - destruct ps1 as [| e ps1]; [discriminate |]. injection Hlen as Hlen.
    cbn [app _capture_loop]. rewrite Hr.
    rewrite (pass_with_frame p e f (map Some fs ++ rest) n Hc).
    destruct (pace_fields p e) as [_ [Q [R [V [L [T C]]]]]].
    set (p1 := enqueue f _).
    assert (Hq1 : frame_queue p1 =
                  Queue.mk 2 (VideoPipeline.last_two (items ++ [f]))).
    { subst p1. unfold enqueue. cbn [frame_queue with_camera].
      rewrite Q, Hq, run_push by exact Hl. reflexivity. }
    destruct (IH p1 ps1 ps2 rest (n + 1)%Z
                 (VideoPipeline.last_two (items ++ [f])))
      as [p' [E [R' [C' [Q' [K' [V' [L' T']]]]]]]];
      try assumption; try reflexivity.
    { subst p1. cbn. now rewrite R. }
    { apply last_two_length. }
    exists p'. split; [exact E |]. split; [exact R' |].
    split; [rewrite C'; f_equal; cbn [length]; lia |].
    split; [rewrite Q', last_two_app, <- app_assoc; reflexivity |].
    subst p1. cbn in K', V', L', T'.
    rewrite K', V', L', T', C, V, L, T, <- app_assoc. repeat split.
Qed.

(** A list splits at any length below its own. *)
Lemma split_at (A : Type) (n : nat) (l : list A) :
  (n < length l)%nat ->
  exists l1 x l2, l = l1 ++ x :: l2 /\ length l1 = n.
Proof.
  revert l. induction n as [| n IH]; intros [| x l] H; simpl in H; try lia.
  - now exists [], x, l.
  - destruct (IH l) as [l1 [y [l2 [E L]]]]; [lia |].
    exists (x :: l1), y, l2. simpl. now rewrite E, L.
Qed.

(** A video file that is not looped: the thread hands every frame after the
    first to the queue, in order, and leaves the loop at the end of the
    file; with nobody reading, the queue is left with the last two frames.
    The thread gone, [is_running] still answers [True]. *)
Theorem file_plays_once
        (first : Frame) (fs : list Frame) (fps : Q)
        (passes : list (Pass Frame)) :
  (length fs < length passes)%nat ->
  exists p1 p2,
    start (__init__ Frame true false fps)
          (Some (file_capture (first :: fs))) = (true, p1) /\
    _capture_loop p1 passes = Exited p2 /\
    captured p2 = fs /\
    Queue.items (frame_queue p2) = VideoPipeline.last_two fs /\
    frame_count (camera p2) = Z.of_nat (length fs) /\
    is_running p2 = true.
Proof.
  intros Hlen.
  destruct (split_at _ (length fs) passes Hlen) as [ps1 [e [ps2 [-> Hl]]]].
  set (p1 := mkPipeline (mk (Some (mkCapture true (map Some fs))) true 0)
                        (Queue.mk 2 []) true true false fps 0 [] []).
  destruct (loop_reads fs p1 ps1 (e :: ps2) [] 0 [])
    as [p' [E [R [C [Q [K [V [L T]]]]]]]];
    try reflexivity; try assumption.
  { subst p1. cbn. now rewrite app_nil_r. }
  { simpl. lia. }
  destruct (pace_fields p' e) as [C1 [Q1 [R1 [V1 [L1 [T1 K1]]]]]].
  exists p1, (with_camera (camera p') (pace p' e)).
  split; [reflexivity |]. split.
  { rewrite E. cbn [_capture_loop]. rewrite R. unfold capture_pass.
    rewrite C1, C. cbn [read_frame is_opened cap cap_read isOpened upcoming].
    cbn [is_video_file loop_video with_camera]. rewrite V1, L1, V, L.
    reflexivity. }
  cbn [captured frame_queue camera frame_count with_camera].
  rewrite K1, K, Q1, Q. cbn.
  split; [reflexivity |]. split; [reflexivity |].
  split; [now rewrite C |].
  unfold is_running. cbn [running with_camera camera]. rewrite R1, R, C.
  reflexivity.
Qed.

Lemma looping_rounds (first : Frame) (fs : list Frame) (k : nat) :
  forall (p : Pipeline Frame) (passes : list (Pass Frame)),
    looping_file fs p ->
    Forall (fun e => reopened e = Some (file_capture (first :: fs))) passes ->
    length passes = (k * S (length fs))%nat ->
    exists p',
      _capture_loop p passes = Looping p' /\
      looping_file fs p' /\
      captured p' = captured p ++ concat (repeat fs k).
Proof.
  induction k as [| k IH]; intros p passes Inv Hre Hlen.
  - destruct passes; [| discriminate]. exists p. simpl.
    rewrite (proj1 Inv), app_nil_r.
    split; [reflexivity | split; [exact Inv | reflexivity]].
  - assert (Hlt : (length fs < length passes)%nat) by (rewrite Hlen; simpl; lia).
    destruct (split_at _ (length fs) passes Hlt) as [ps1 [e [ps2 [-> Hl]]]].
    destruct Inv as [R [V [L [[n C] [items [Hq Hi]]]]]].
    destruct (loop_reads fs p ps1 (e :: ps2) [] n items)
      as [p' [E [R' [C' [Q' [K' [V' [L' T']]]]]]]];
      try assumption.
    { now rewrite app_nil_r. }
    apply Forall_app in Hre. destruct Hre as [_ Hre].
    inversion Hre as [| ? ? He Hre2]. subst.
    rewrite E. cbn [_capture_loop]. rewrite R'. unfold capture_pass.
    destruct (pace_fields p' e) as [C1 [Q1 [R1 [V1 [L1 [T1 K1]]]]]].
    rewrite C1, C'. cbn [read_frame is_opened cap cap_read isOpened upcoming].
    cbn [is_video_file loop_video with_camera]. rewrite V1, L1, V', L', V, L.
    cbn [andb camera with_camera release cap]. rewrite He.
    cbn [connect file_capture isOpened negb cap_read upcoming map frame_count
         is_opened].
    set (p1 := with_last_frame_time 0 _).
    destruct (IH p1 ps2) as [p2 [E2 [Inv2 K2]]].
    + subst p1. unfold looping_file.
      cbn [running is_video_file loop_video camera frame_queue
           with_last_frame_time with_camera].
      rewrite R1, V1, L1, Q1, R', V', L', V, L, Q'.
      repeat split. { eexists. reflexivity. }
      eexists. split; [reflexivity | apply last_two_length].
    + exact Hre2.
    + rewrite length_app in Hlen. cbn [length] in Hlen. simpl in Hlen. lia.
    + exists p2. split; [exact E2 |]. split; [exact Inv2 |].
      rewrite K2. subst p1. cbn [captured with_last_frame_time with_camera].
      rewrite K1, K'. cbn [repeat concat]. now rewrite <- app_assoc.
Qed.

(** A looped video file: each time round the file is opened again and its
    first frame is taken by [connect], so that after [k] rounds the frames
    after the first have gone to the queue [k] times, in order, and the
    first frame never; the thread stays in the loop. *)
Theorem looped_file_never_shows_first_frame
        (first : Frame) (fs : list Frame) (fps : Q) (k : nat)
        (passes : list (Pass Frame)) :
  Forall (fun e => reopened e = Some (file_capture (first :: fs))) passes ->
  length passes = (k * S (length fs))%nat ->
  exists p1 p2,
    start (__init__ Frame true true fps)
          (Some (file_capture (first :: fs))) = (true, p1) /\
    _capture_loop p1 passes = Looping p2 /\
    captured p2 = concat (repeat fs k) /\
    (forall f, In f (captured p2) -> In f fs).
Proof.
  intros Hre Hlen.
  set (p1 := mkPipeline (mk (Some (mkCapture true (map Some fs))) true 0)
                        (Queue.mk 2 []) true true true fps 0 [] []).
  destruct (looping_rounds first fs k p1 passes) as [p2 [E [_ K]]];
    try assumption.
  { subst p1. unfold looping_file. cbn. repeat split.
    - eexists. reflexivity.
    - exists []. split; [reflexivity | simpl; lia]. }
  exists p1, p2. split; [reflexivity |]. split; [exact E |].
  subst p1. cbn in K. split; [exact K |].
  intros f Hf. rewrite K in Hf. clear - Hf.
  induction k as [| k IH]; simpl in Hf; [contradiction |].
  apply in_app_or in Hf. destruct Hf as [Hf | Hf]; [exact Hf | now apply IH].
Qed.




End CaptureLoopFacts.

Lemma file_plays_once_witness :
  exists p1 p2,
    CaptureLoop.start (CaptureLoop.__init__ nat true false 0)
      (Some (CameraConnector.file_capture [0; 1; 2; 3]%nat)) = (true, p1) /\
    CaptureLoop._capture_loop p1
      (repeat (CaptureLoop.mkPass 0 0 None) 5) = CaptureLoop.Exited p2 /\
    CaptureLoop.captured p2 = [1; 2; 3]%nat /\
    Queue.items (CaptureLoop.frame_queue p2) = [2; 3]%nat.
Proof.
  destruct (file_plays_once nat 0%nat [1; 2; 3]%nat 0
              (repeat (CaptureLoop.mkPass 0 0 None) 5)
              (le_S 4 4 (le_n 4)))
    as [p1 [p2 [S [E [K [Q _]]]]]].
  exists p1, p2. exact (conj S (conj E (conj K Q))).
Defined.

Lemma looped_file_never_shows_first_frame_witness :
  let again := CaptureLoop.mkPass 0 0
                 (Some (CameraConnector.file_capture [7]%nat)) in
  exists p1 p2,
    CaptureLoop.start (CaptureLoop.__init__ nat true true 0)
      (Some (CameraConnector.file_capture [7]%nat)) = (true, p1) /\
    CaptureLoop._capture_loop p1 [again; again; again] =
      CaptureLoop.Looping p2 /\
    CaptureLoop.captured p2 = [].
Proof.
  intros again.
  destruct (looped_file_never_shows_first_frame nat 7%nat [] 0 3
              [again; again; again]
              (Forall_cons again eq_refl
                 (Forall_cons again eq_refl
                    (Forall_cons again eq_refl (Forall_nil _))))
              eq_refl)
    as [p1 [p2 [S [E [K _]]]]].
  exists p1, p2. exact (conj S (conj E K)).
Defined.



(* ================================================================== *)
(** * The alert notifier *)
(* ================================================================== *)

Section AlertNotifierFacts.

Import Json Builtins AlertNotifier.

Variable B : PyBuiltins.

Lemma pystr_eqb_refl (s : pystr) : PyStr.eqb s s = true.
Proof. unfold PyStr.eqb. now destruct (list_eq_dec N.eq_dec s s). Qed.

Lemma pystr_eqb_neq (s s' : pystr) : s <> s' -> PyStr.eqb s s' = false.
Proof. intros H. unfold PyStr.eqb. now destruct (list_eq_dec N.eq_dec s s'). Qed.

(** Lower-casing gives one of the three severities only from itself. *)
Lemma lower_is_cjk (s : pystr) (c : N) :
  (123 <= c)%N -> lower s = [c] -> s = [c].
Proof.
  intros Hc. destruct s as [| x [| y s]]; try discriminate.
  unfold lower. simpl. unfold lower_char.
  destruct ((65 <=? x) && (x <=? 90))%N eqn:E; intros [= H]; [| now subst].
  apply andb_true_iff in E. destruct E as [E1 E2].
  apply N.leb_le in E1, E2. lia.
Qed.

Lemma template_key_unknown (s : pystr) :
  s <> low -> s <> medium -> s <> high -> template_key s = lit "low".
Proof.
  intros H1 H2 H3. unfold template_key.
  rewrite !pystr_eqb_neq; try reflexivity;
    intros E; apply lower_is_cjk in E; try (unfold N.le; discriminate);
    contradiction.
Qed.


(** The loop of [send_alert] passes over the methods that are switched off
    or ask for a higher severity. *)
Lemma notify_skips (w : World) (alert_data : dict) (subject body : pystr) :
  forall (methods : dict) (success : bool) (done : list effect),
    Forall (fun m =>
              exists c, snd m = JObject c /\
                (truthy (dict_get c (lit "enabled") (JBool false)) = false \/
                 _check_severity c alert_data = inr false)) methods ->
    notify w alert_data subject body methods success done
    = (inr success, done).
Proof.
  induction methods as [| [name mc] methods IH]; intros success done H;
    [reflexivity |].
  inversion H as [| ? ? [c [Hc Hm]] Hrest]; subst. cbn [snd] in Hc. subst mc.
  cbn [notify]. destruct Hm as [Hm | Hm].
  - rewrite Hm. cbn [negb]. now apply IH.
  - destruct (negb (truthy _)); [| rewrite Hm]; now apply IH.
Qed.

(** With the default templates every alert whose severity is a string is
    formatted: the four fields are always given. *)
Lemma format_message_default (w : World) (alert_data : dict) (s : pystr) :
  lookup (lit "severity") alert_data = Some (JString s) ->
  exists subject body,
    _format_message B w default_notifier alert_data = inr (subject, body).
Proof.
  intros H. unfold _format_message. unfold dict_get at 1. rewrite H.
  assert (K : template_key s = lit "low" \/ template_key s = lit "medium" \/
              template_key s = lit "high").
  { unfold template_key.
    destruct (PyStr.eqb (lower s) low); [now left |].
    destruct (PyStr.eqb (lower s) medium); [now right; left |].
    destruct (PyStr.eqb (lower s) high); [now right; right | now left]. }
  set (v1 := dict_get alert_data (lit "rule_name") (JString unknown_rule)).
  set (v2 := dict_get alert_data (lit "description") (JString no_description)).
  set (v3 := dict_get alert_data (lit "timestamp") (JString (format_stamp w))).
  set (v4 := dict_get alert_data (lit "location") (JString unknown_location)).
  clearbody v1 v2 v3 v4.
  destruct K as [-> | [-> | ->]]; vm_compute; eexists; eexists; reflexivity.
Qed.

(** An alert whose severity is a string other than the three levels, such
    as ["high"] in English, reaches nobody through the default notifier:
    [send_alert] returns [False], and nothing is printed or written. *)
Theorem unknown_severity_reaches_nobody
        (w : World) (alert_data : dict) (s : pystr) :
  lookup (lit "severity") alert_data = Some (JString s) ->
  s <> low -> s <> medium -> s <> high ->
  send_alert B w default_notifier alert_data = (inr false, []).
Proof.
  intros H H1 H2 H3. unfold send_alert.
  change (negb (truthy (enabled default_notifier))) with false. cbv iota.
  destruct (format_message_default w alert_data s H) as [subject [body ->]].
  change (lookup (lit "methods") (config default_notifier))
    with (Some (dict_get default_config (lit "methods") JNull)).
  assert (C : forall c m,
             In m [JString low; JString medium; JString high] ->
             dict_get c (lit "min_severity") (JString low) = m ->
             _check_severity c alert_data = inr false).
  { intros c m Hm Hc. unfold _check_severity. rewrite Hc.
    unfold dict_get. rewrite H. unfold level_of at 1.
    rewrite !pystr_eqb_neq by assumption.
    destruct Hm as [<- | [<- | [<- | []]]]; reflexivity. }
  match goal with
  | |- context [dict_get default_config (lit "methods") JNull] =>
      let v := eval vm_compute in
        (dict_get default_config (lit "methods") JNull) in
      change (dict_get default_config (lit "methods") JNull) with v
  end.
  cbv iota beta.
  match goal with
  | |- context [items ?ms] =>
      let v := eval vm_compute in (items ms) in
      change (items ms) with v
  end.
  apply notify_skips.
  repeat constructor; eexists; (split; [reflexivity |]); cbn [snd].
  - right. eapply C; [| vm_compute; reflexivity]. simpl. tauto.
  - right. eapply C; [| vm_compute; reflexivity]. simpl. tauto.
  - left. vm_compute. reflexivity.
  - left. vm_compute. reflexivity.
Qed.



(** A sender that gives up for want of configuration counts as a success:
    with [email] the one method switched on and one of its five settings
    missing or empty, or with [webhook] the one method and no [url], the
    loop of [send_alert] answers [True] and nothing has left the program. *)
Theorem unsent_alert_counts_as_sent
        (w : World) (alert_data : dict) (subject body : pystr)
        (method_config : dict) :
  truthy (dict_get method_config (lit "enabled") (JBool false)) = true ->
  _check_severity method_config alert_data = inr true ->
  (forallb truthy
     [dict_get method_config (lit "smtp_server") JNull;
      dict_get method_config (lit "username") JNull;
      dict_get method_config (lit "password") JNull;
      dict_get method_config (lit "from_address") JNull;
      dict_get method_config (lit "to_addresses") (JArray [])] = false ->
   notify w alert_data subject body
          [(lit "email", JObject method_config)] false []
   = (inr true, [])) /\
  (truthy (dict_get method_config (lit "url") JNull) = false ->
   (exists method,
       dict_get method_config (lit "method") (JString (lit "POST"))
       = JString method) ->
   notify w alert_data subject body
          [(lit "webhook", JObject method_config)] false []
   = (inr true, [])).
Proof.
  intros He Hc. split.
  - intros Hi. cbn [notify]. rewrite He, Hc. cbn [negb].
    change (notification_methods (lit "email")) with (Some _send_email).
    unfold _send_email. rewrite Hi. reflexivity.
  - intros Hu [method Hm]. cbn [notify]. rewrite He, Hc. cbn [negb].
    change (notification_methods (lit "webhook")) with (Some _send_webhook).
    unfold _send_webhook. rewrite Hm, Hu. reflexivity.
Qed.

End AlertNotifierFacts.


Lemma unknown_severity_reaches_nobody_witness :
  AlertNotifier.send_alert Builtins.sample_builtins AlertNotifier.sample_world
    AlertNotifier.default_notifier
    [(lit "rule_name", Json.JString (lit "fall"));
     (lit "severity", Json.JString (lit "high"))]
  = (inr false, []).
Proof.
  apply (unknown_severity_reaches_nobody Builtins.sample_builtins
           AlertNotifier.sample_world _ (lit "high"));
    [reflexivity | discriminate | discriminate | discriminate].
Defined.


Lemma unsent_alert_counts_as_sent_witness :
  let email_config :=
    [(lit "enabled", Json.JBool true);
     (lit "smtp_server", Json.JString (lit "smtp.example.com"));
     (lit "username", Json.JString (lit "alerts"));
     (lit "password", Json.JString []);
     (lit "from_address", Json.JString (lit "alerts@example.com"));
     (lit "to_addresses", Json.JArray [Json.JString (lit "a@example.com")])] in
  AlertNotifier.notify AlertNotifier.sample_world
    [(lit "severity", Json.JString AlertNotifier.high)] [] []
    [(lit "email", Json.JObject email_config)] false []
  = (inr true, []).
Proof.
  intros email_config.
  exact (proj1 (unsent_alert_counts_as_sent AlertNotifier.sample_world
                  [(lit "severity", Json.JString AlertNotifier.high)] [] []
                  email_config eq_refl eq_refl) eq_refl).
Defined.
